(** * The request pipeline of the financial manager: validation, sanitization
      and business rules of [backend/src/middleware] and the routes that
      compose them.

    The embedding follows the JavaScript sources:
    - [sanitization.mjs]     -> module [Sanitization]
    - [validation.js]        -> module [Validation]
    - [businessValidation.js]-> module [Business]
    - [routes/income.js], [routes/expense.js], the controllers -> module [Routes]

    The libraries the code calls (the JavaScript built-ins, validator.js,
    express-validator 7, Express routing, the Mongoose queries) are modelled
    by their documented behaviour in the modules [JsString], [JsNumber],
    [Js], [Validator], [EV], [Store].  Strings are sequences of code units
    below 256 (Latin-1).  A finite number is the decimal that
    [Number.prototype.toString] prints; the body of a request is the value
    that the JSON parser handed over.  Where the code keeps the number that
    [parseFloat] reads from a string of the request
    ([sanitizeNumericFields]), the literal is rounded to its double
    ([JsNumber.binary64]); where it reads back a string that [toString]
    printed, the reading is exact.  A value of a body or of a query that is
    itself an object is not part of the embedding.  The [Date] built-in and
    validator's ISO-8601 and pattern matchers are parameters
    ([Js.DateEnv], [Express.dangerous]). *)

From stdpp Require Import base option list strings gmap fin_maps.
From Stdlib Require Import ZArith NArith Lia Ascii String Bool.

Local Open Scope Z_scope.
Set Warnings "-register-all".

(* ===================================================================== *)
(** ** JavaScript strings *)
(* ===================================================================== *)
Module JsString.

Definition code (c : ascii) : N := N_of_ascii c.

Definition in_range (lo hi : N) (c : ascii) : bool :=
  ((lo <=? code c) && (code c <=? hi))%N.

(** The class [\s] of a JavaScript regular expression, below 256. *)
Definition is_space (c : ascii) : bool :=
  in_range 9 13 c || (code c =? 32)%N || (code c =? 160)%N.

Definition is_digit (c : ascii) : bool := in_range 48 57 c.

Fixpoint all_chars (p : ascii -> bool) (s : string) : bool :=
  match s with
  | EmptyString => true
  | String c r => p c && all_chars p r
  end.

Fixpoint ltrim (s : string) : string :=
  match s with
  | EmptyString => EmptyString
  | String c r => if is_space c then ltrim r else s
  end.

Fixpoint rtrim (s : string) : string :=
  match s with
  | EmptyString => EmptyString
  | String c r =>
      match rtrim r with
      | EmptyString => if is_space c then EmptyString else String c EmptyString
      | r' => String c r'
      end
  end.

(** [String.prototype.trim], and validator's [trim] without a character
    set: [rtrim(ltrim(str))]. *)
Definition trim (s : string) : string := rtrim (ltrim s).

Definition lower_char (c : ascii) : ascii :=
  if in_range 65 90 c
     || (in_range 192 222 c && negb (code c =? 215)%N)
  then ascii_of_N (code c + 32) else c.

Fixpoint toLowerCase (s : string) : string :=
  match s with
  | EmptyString => EmptyString
  | String c r => String (lower_char c) (toLowerCase r)
  end.

Fixpoint prefix (p s : string) : bool :=
  match p, s with
  | EmptyString, _ => true
  | String a p', String b s' => if Ascii.eqb a b then prefix p' s' else false
  | String _ _, EmptyString => false
  end.

(** [hay.includes(needle)] *)
Fixpoint includes (needle hay : string) : bool :=
  prefix needle hay ||
  match hay with
  | EmptyString => false
  | String _ r => includes needle r
  end.

(** [s.split(c)] for a one-character separator. *)
Fixpoint split (sep : ascii) (s : string) : list string :=
  match s with
  | EmptyString => [EmptyString]
  | String c r =>
      if Ascii.eqb c sep then EmptyString :: split sep r
      else match split sep r with
           | x :: xs => String c x :: xs
           | [] => [String c EmptyString]
           end
  end.

(** [l.join(sep)] *)
Fixpoint join (sep : string) (l : list string) : string :=
  match l with
  | [] => EmptyString
  | [x] => x
  | x :: xs => x ++ sep ++ join sep xs
  end.

Fixpoint repeat0 (n : nat) : string :=
  match n with O => EmptyString | S m => String "0" (repeat0 m) end.

Fixpoint take (n : nat) (s : string) : string :=
  match n, s with
  | S m, String c r => String c (take m r)
  | _, _ => EmptyString
  end.

Fixpoint drop (n : nat) (s : string) : string :=
  match n, s with
  | S m, String _ r => drop m r
  | _, _ => s
  end.

Definition mem (x : string) (l : list string) : bool :=
  existsb (String.eqb x) l.

End JsString.

(* ===================================================================== *)
(** ** JavaScript numbers *)
(* ===================================================================== *)
Module JsNumber.
Import JsString.

(** [Fin m k] is the number [m / 10^k]. *)
Inductive number :=
| NaN
| Inf (neg : bool)
| Fin (m : Z) (k : nat).

Definition pow10 (k : nat) : Z := 10 ^ Z.of_nat k.

(** Drop the trailing zeros of the fraction. *)
Fixpoint normalize (m : Z) (k : nat) : Z * nat :=
  match k with
  | O => (m, O)
  | S k' => if m mod 10 =? 0 then normalize (m / 10) k' else (m, k)
  end.

Definition fin (m : Z) (k : nat) : number :=
  let '(m', k') := normalize m k in Fin m' k'.

(** m * 10^e *)
Definition scaled (m e : Z) : number :=
  if 0 <=? e then Fin (m * 10 ^ e) 0 else fin m (Z.to_nat (- e)).

Definition of_Z (z : Z) : number := Fin z 0.

(** Comparisons follow IEEE: every comparison with NaN is false. *)
Definition ltb (a b : number) : bool :=
  match a, b with
  | NaN, _ | _, NaN => false
  | Inf true, Inf true => false
  | Inf true, _ => true
  | _, Inf true => false
  | Inf false, _ => false
  | _, Inf false => true
  | Fin m k, Fin m' k' => m * pow10 k' <? m' * pow10 k
  end.

Definition eqb (a b : number) : bool :=
  match a, b with
  | Inf s, Inf s' => Bool.eqb s s'
  | Fin m k, Fin m' k' => m * pow10 k' =? m' * pow10 k
  | _, _ => false
  end.

Definition leb (a b : number) : bool := ltb a b || eqb a b.
Definition gtb (a b : number) : bool := ltb b a.
Definition geb (a b : number) : bool := leb b a.

Definition is_zero (a : number) : bool :=
  match a with Fin m _ => m =? 0 | _ => false end.

(** *** Printing: [Number::toString] of ECMA-262 *)

Definition digit_char (d : N) : ascii := ascii_of_N (48 + d).

Fixpoint show_fuel (fuel : nat) (n : N) : string :=
  match fuel with
  | O => EmptyString
  | S f =>
      if (n <? 10)%N then String (digit_char n) EmptyString
      else show_fuel f (n / 10) ++ String (digit_char (n mod 10)) EmptyString
  end.

Definition show_N (n : N) : string := show_fuel (S (N.to_nat (N.log2 n))) n.

Definition show_Z (z : Z) : string :=
  if z <? 0 then String "-" (show_N (Z.to_N (- z))) else show_N (Z.to_N z).

(** The digits [s] without trailing zeros. *)
Fixpoint strip_zeros (fuel : nat) (m : N) : N :=
  match fuel with
  | O => m
  | S f => if ((m mod 10 =? 0) && negb (m =? 0))%N
           then strip_zeros f (m / 10) else m
  end.

Definition exp_part (e : Z) : string :=
  String "e" (String (if e <? 0 then "-"%char else "+"%char)
                        (show_N (Z.to_N (Z.abs e)))).

(** [show_pos m k] prints the positive number [m / 10^k], [m > 0], given
    normalized: with [D] the digits of [m] and [n = |D| - k], the number is
    [0.D * 10^n]; ECMA-262 prints the digits in positional form when
    [-6 < n <= 21] and in exponent form otherwise. *)
Definition show_pos (m : N) (k : nat) : string :=
  let D := show_N m in
  let n := Z.of_nat (String.length D) - Z.of_nat k in
  if (Nat.eqb k 0) && (n <=? 21) then D
  else if (0 <? n) && (n <=? 21) then
    take (Z.to_nat n) D ++ String "." (drop (Z.to_nat n) D)
  else if (-6 <? n) && (n <=? 0) then
    String "0" (String "." (repeat0 (Z.to_nat (- n)) ++ D))
  else
    let s := show_N (strip_zeros (String.length D) m) in
    match s with
    | String c EmptyString => String c (exp_part (n - 1))
    | String c r => String c (String "." (r ++ exp_part (n - 1)))
    | EmptyString => EmptyString
    end.

(** [String(x)] for a number. *)
Definition toString (x : number) : string :=
  match x with
  | NaN => "NaN"
  | Inf false => "Infinity"
  | Inf true => "-Infinity"
  | Fin m k =>
      let '(m', k') := normalize m k in
      if m' =? 0 then "0"
      else if m' <? 0 then String "-" (show_pos (Z.to_N (- m')) k')
      else show_pos (Z.to_N m') k'
  end.

(** *** Parsing: [parseFloat] *)

Definition digit_val (c : ascii) : Z := Z.of_N (code c) - 48.

Fixpoint val_acc (acc : Z) (s : string) : Z :=
  match s with
  | EmptyString => acc
  | String c r => val_acc (10 * acc + digit_val c) r
  end.

(** Value of a string of digits. *)
Definition val (s : string) : Z := val_acc 0 s.

(** Longest prefix of digits, and the rest. *)
Fixpoint span_digits (s : string) : string * string :=
  match s with
  | EmptyString => (EmptyString, EmptyString)
  | String c r =>
      if is_digit c then let '(d, t) := span_digits r in (String c d, t)
      else (EmptyString, s)
  end.

Definition is_e (c : ascii) : bool :=
  Ascii.eqb c "e" || Ascii.eqb c "E".

(** An exponent part at the head of [s]: its value and the rest. *)
Definition span_exponent (s : string) : option (Z * string) :=
  match s with
  | String c r =>
      if is_e c then
        let '(neg, r') :=
          match r with
          | String "-" t => (true, t)
          | String "+" t => (false, t)
          | _ => (false, r)
          end in
        let '(d, t) := span_digits r' in
        match d with
        | EmptyString => None
        | _ => Some (if neg then - val d else val d, t)
        end
      else None
  | EmptyString => None
  end.

(** The longest prefix of [s] that is an unsigned decimal literal
    ([digits], [digits.digits], [.digits], each with an optional exponent):
    mantissa, decimal exponent and the rest; [None] when there is none. *)
Definition span_unsigned (s : string) : option (Z * Z * string) :=
  let '(ip, r1) := span_digits s in
  let '(fp, r2) :=
    match r1 with
    | String "." t => let '(f, t') := span_digits t in
                      match ip, f with
                      | EmptyString, EmptyString => (EmptyString, r1)
                      | _, _ => (f, t')
                      end
    | _ => (EmptyString, r1)
    end in
  match ip, fp with
  | EmptyString, EmptyString => None
  | _, _ =>
      let m := val (ip ++ fp) in
      let e := - Z.of_nat (String.length fp) in
      match span_exponent r2 with
      | Some (x, r3) => Some (m, e + x, r3)
      | None => Some (m, e, r2)
      end
  end.

Definition apply_sign (neg : bool) (x : number) : number :=
  match x with
  | NaN => NaN
  | Inf s => Inf (xorb neg s)
  | Fin m k => Fin (if neg then - m else m) k
  end.

Definition parse_magnitude (s : string) : number :=
  if prefix "Infinity" s then Inf false
  else match span_unsigned s with
       | Some (m, e, _) => scaled m e
       | None => NaN
       end.

(** The literal that [parseFloat(s)] reads from a string, in exact decimal
    arithmetic.  It is the number that the code reads when the string is
    one that [toString] printed; of any other string the code reads
    [binary64] of it. *)
Definition parseFloat (s : string) : number :=
  match ltrim s with
  | String "-" r => apply_sign true (parse_magnitude r)
  | String "+" r => parse_magnitude r
  | r => parse_magnitude r
  end.

(** *** Rounding: the double of a literal *)

(** The integer nearest to [a / b], ties to the even one; [0 <= a], [0 < b]. *)
Definition nearest_even (a b : Z) : Z :=
  let q := a / b in
  let r := a mod b in
  if 2 * r <? b then q
  else if b <? 2 * r then q + 1
  else if Z.even q then q else q + 1.

(** [2^g <= a / b], for [0 < a] and [0 < b]. *)
Definition at_least_pow2 (a b g : Z) : bool :=
  if 0 <=? g then b * 2 ^ g <=? a else b <=? a * 2 ^ (- g).

(** The exponent of the leading bit of [a / b]. *)
Definition floor_log2 (a b : Z) : Z :=
  let g := Z.log2 a - Z.log2 b in
  if at_least_pow2 a b g then g else g - 1.

(** The binary64 nearest to [a / b], ties to even, as [(M, e)] for
    [M * 2^e] with [M < 2^53] and [-1074 <= e] ([e = -1074] for the
    subnormal ones); [None] when it overflows. *)
Definition double_of (a b : Z) : option (Z * Z) :=
  let e := Z.max (floor_log2 a b - 52) (-1074) in
  let M := if 0 <=? e then nearest_even a (b * 2 ^ e)
           else nearest_even (a * 2 ^ (- e)) b in
  let '(M', e') := if M =? 2 ^ 53 then (2 ^ 52, e + 1) else (M, e) in
  if 971 <? e' then None else Some (M', e').

Definition same_double (x y : option (Z * Z)) : bool :=
  match x, y with
  | Some (M, e), Some (M', e') => (M =? M') && (e =? e')
  | _, _ => false
  end.

(** The digits that [Number::toString] gives a double [d] of value
    [X / 10^K], [X] of [L] digits: the decimal of fewest digits, from [n]
    digits on, that reads back as [d], and the nearer one when the decimals
    on both sides of [d] do. *)
Fixpoint shortest (fuel : nat) (n : nat) (d : option (Z * Z)) (X : Z) (K L : nat)
  : number :=
  match fuel with
  | O => fin X K
  | S fuel' =>
      if Nat.leb L n then fin X K
      else
        let u := 10 ^ Z.of_nat (L - n) in
        let lo := (X / u) * u in
        let hi := lo + u in
        let ok_lo := same_double (double_of lo (pow10 K)) d in
        let ok_hi := same_double (double_of hi (pow10 K)) d in
        if ok_lo && ok_hi then (if X - lo <=? hi - X then fin lo K else fin hi K)
        else if ok_lo then fin lo K
        else if ok_hi then fin hi K
        else shortest fuel' (S n) d X K L
  end.

(** The number that the literal [m / 10^k] leaves in a double: the nearest
    binary64, an infinity when it overflows, as [Number::toString] prints
    it. *)
Definition binary64 (x : number) : number :=
  match x with
  | Fin m k =>
      if m =? 0 then Fin 0 0
      else
        match double_of (Z.abs m) (pow10 k) with
        | None => Inf (m <? 0)
        | Some (M, e) =>
            if M =? 0 then Fin 0 0
            else
              let '(X, K) := if 0 <=? e then (M * 2 ^ e, O)
                             else (M * 5 ^ (- e), Z.to_nat (- e)) in
              let L := String.length (show_N (Z.to_N X)) in
              apply_sign (m <? 0) (shortest 17 1 (Some (M, e)) X K L)
        end
  | _ => x
  end.

(** [Number(s)] for a string: the whole string, trimmed, must be a decimal
    literal; the empty string is 0.  (Hexadecimal, octal and binary
    literals are not modelled and give NaN.) *)
Definition stringToNumber (s : string) : number :=
  let t := trim s in
  let body neg r :=
    if String.eqb r "Infinity" then Inf neg
    else match span_unsigned r with
         | Some (m, e, EmptyString) => apply_sign neg (scaled m e)
         | _ => NaN
         end in
  match t with
  | EmptyString => Fin 0 0
  | String "-" r => body true r
  | String "+" r => body false r
  | r => body false r
  end.

(** Truncation toward zero of a finite number. *)
Definition trunc (m : Z) (k : nat) : Z := Z.quot m (pow10 k).

(** *** Parsing: [parseInt] without a radix *)

(** The value of a hexadecimal digit. *)
Definition hex_val (c : ascii) : option Z :=
  if is_digit c then Some (digit_val c)
  else if in_range 97 102 c then Some (Z.of_N (code c) - 87)
  else if in_range 65 70 c then Some (Z.of_N (code c) - 55)
  else None.

(** The value of the longest prefix of hexadecimal digits of [s], after
    the digits of value [acc]; [seen] tells that there is a digit. *)
Fixpoint hex_acc (acc : Z) (seen : bool) (s : string) : option Z :=
  match s with
  | EmptyString => if seen then Some acc else None
  | String c r =>
      match hex_val c with
      | Some d => hex_acc (16 * acc + d) true r
      | None => if seen then Some acc else None
      end
  end.

(** [parseInt(s)]: white space, a sign, then the longest prefix of digits,
    hexadecimal after [0x] or [0X] and decimal otherwise; [NaN] when there
    is no digit.  (The sign of a zero is not part of the embedding.) *)
Definition parseInt (s : string) : number :=
  let t := ltrim s in
  let '(neg, u) :=
    match t with
    | String "-" r => (true, r)
    | String "+" r => (false, r)
    | _ => (false, t)
    end in
  let decimal :=
    match fst (span_digits u) with
    | EmptyString => NaN
    | d => Fin (val d) 0
    end in
  let mag :=
    match u with
    | String "0" (String x r) =>
        if Ascii.eqb x "x" || Ascii.eqb x "X"
        then match hex_acc 0 false r with Some z => Fin z 0 | None => NaN end
        else decimal
    | _ => decimal
    end in
  apply_sign neg mag.

(** [isNaN(x)] and [Math.min(x, y)] on numbers. *)
Definition is_nan (x : number) : bool :=
  match x with NaN => true | _ => false end.

Definition min_number (x y : number) : number :=
  match x, y with
  | NaN, _ | _, NaN => NaN
  | _, _ => if ltb y x then y else x
  end.

End JsNumber.


(* ===================================================================== *)
(** ** JavaScript values *)
(* ===================================================================== *)
Module Js.
Export JsString JsNumber.

(** The values a parsed JSON body or a parsed query string holds, objects
    apart: a value that is itself an object ([{...}] in a body, [a[b]=c] in
    a query) is not part of the embedding.  A field that is absent reads
    as [JUndefined]. *)
Inductive JsVal :=
| JUndefined
| JNull
| JBool (b : bool)
| JNum (n : number)
| JStr (s : string)
| JArr (l : list JsVal).

(** A synchronous computation that may throw. *)
Inductive Exc (A : Type) :=
| Ok (a : A)
| Throw (name : string).
Arguments Ok {A} a.
Arguments Throw {A} name.

Definition bindE {A B} (x : Exc A) (f : A -> Exc B) : Exc B :=
  match x with Ok a => f a | Throw e => Throw e end.

Notation "x <- e1 ;; e2" := (bindE e1 (fun x => e2))
  (at level 100, e1 at next level, right associativity).

(** An object used as a map from field names to values. *)
Abbreviation object := (gmap string JsVal).

Definition get (o : object) (f : string) : JsVal := default JUndefined (o !! f).

(** Assignment [o[f] = v]; a field holding [undefined] is kept absent. *)
Definition set (f : string) (v : JsVal) (o : object) : object :=
  match v with
  | JUndefined => delete f o
  | _ => <[f := v]> o
  end.

Definition is_string (v : JsVal) : bool :=
  match v with JStr _ => true | _ => false end.

Definition is_array (v : JsVal) : bool :=
  match v with JArr _ => true | _ => false end.

(** [Boolean(v)] *)
Definition truthy (v : JsVal) : bool :=
  match v with
  | JUndefined | JNull => false
  | JBool b => b
  | JNum NaN => false
  | JNum n => negb (is_zero n)
  | JStr s => negb (String.eqb s "")
  | JArr _ => true
  end.

(** [String(v)]; inside [Array.prototype.join], [null] and [undefined]
    print as the empty string. *)
Fixpoint js_String (v : JsVal) : string :=
  match v with
  | JUndefined => "undefined"
  | JNull => "null"
  | JBool true => "true"
  | JBool false => "false"
  | JNum n => toString n
  | JStr s => s
  | JArr l =>
      join "," (List.map (fun x => match x with
                                   | JUndefined | JNull => EmptyString
                                   | _ => js_String x
                                   end) l)
  end.

(** The method call [v.toString()]: a TypeError on [null] and [undefined]. *)
Definition method_toString (v : JsVal) : Exc string :=
  match v with
  | JUndefined | JNull => Throw "TypeError"
  | _ => Ok (js_String v)
  end.

(** [Number(v)] and the coercion of the relational operators. *)
Definition toNumber (v : JsVal) : number :=
  match v with
  | JUndefined => NaN
  | JNull => Fin 0 0
  | JBool b => Fin (if b then 1 else 0) 0
  | JNum n => n
  | JStr s => stringToNumber s
  | JArr _ => stringToNumber (js_String v)
  end.

(** [parseFloat(v)] *)
Definition js_parseFloat (v : JsVal) : number := parseFloat (js_String v).

(** [parseInt(v)] *)
Definition js_parseInt (v : JsVal) : number := parseInt (js_String v).

(** [v.length > 0] as [sanitizeTags] evaluates it: [None] is the TypeError
    of a property read on [null] or [undefined]. *)
Definition length_positive (v : JsVal) : Exc bool :=
  match v with
  | JUndefined | JNull => Throw "TypeError"
  | JStr s => Ok (negb (String.eqb s ""))
  | JArr l => Ok (negb (Nat.eqb (List.length l) 0))
  | JBool _ | JNum _ => Ok false
  end.

(** *** Dates.  A date is its time value in milliseconds; [None] is the
    invalid date.  The calendar and the parser of the host are a
    parameter. *)
Record DateEnv := {
  date_parse : string -> option Z;        (* Date.parse(s) *)
  date_toISOString : Z -> string;         (* d.toISOString() *)
  date_startOfDay : Z -> Z;               (* d.setHours(0, 0, 0, 0) *)
  date_nextDay : Z -> Z;                  (* d.setDate(d.getDate() + 1) *)
  date_addYears : Z -> Z -> Z;            (* new Date(y + k, m, d) of d *)
  isISO8601 : string -> bool              (* validator.isISO8601(s) *)
}.

Definition max_time : Z := 8640000000000000.

Definition time_clip (t : Z) : option Z :=
  if Z.abs t <=? max_time then Some t else None.

(** [new Date(v).getTime()] *)
Definition new_Date (D : DateEnv) (v : JsVal) : option Z :=
  match v with
  | JUndefined => None
  | JNull => Some 0
  | JBool b => Some (if b then 1 else 0)
  | JNum (Fin m k) => time_clip (trunc m k)
  | JNum _ => None
  | JStr s => date_parse D s
  | JArr _ => date_parse D (js_String v)
  end.

(** [a < b] on dates: false when one of them is invalid. *)
Definition date_lt (a b : option Z) : bool :=
  match a, b with
  | Some x, Some y => x <? y
  | _, _ => false
  end.

End Js.

(* ===================================================================== *)
(** ** validator.js *)
(* ===================================================================== *)
Module Validator.
Import Js.

(** [isLength(str, {min, max})] *)
Definition isLength (min : nat) (max : option nat) (s : string) : bool :=
  let n := String.length s in
  Nat.leb min n && match max with Some m => Nat.leb n m | None => true end.

(** [isIn(str, values)] *)
Definition isIn (values : list string) (s : string) : bool := mem s values.

(** [isBoolean(str)] *)
Definition isBoolean (s : string) : bool := mem s ["true"; "false"; "1"; "0"].

Definition replace_char (c : ascii) : string :=
  if Ascii.eqb c "&" then "&amp;"
  else if (code c =? 34)%N then "&quot;"
  else if Ascii.eqb c "'" then "&#x27;"
  else if Ascii.eqb c "<" then "&lt;"
  else if Ascii.eqb c ">" then "&gt;"
  else if Ascii.eqb c "/" then "&#x2F;"
  else if Ascii.eqb c "\" then "&#x5C;"
  else if Ascii.eqb c "`" then "&#96;"
  else String c EmptyString.

(** [escape(str)]: the eight replacements, [&] first, so that each
    character of the input is replaced once. *)
Fixpoint escape (s : string) : string :=
  match s with
  | EmptyString => EmptyString
  | String c r => replace_char c ++ escape r
  end.

(** The characters [stripLow(str, true)] removes:
    [\x00-\x09\x0B\x0C\x0E-\x1F\x7F]. *)
Definition is_low (keep_new_lines : bool) (c : ascii) : bool :=
  if keep_new_lines then
    in_range 0 9 c || in_range 11 12 c || in_range 14 31 c || (code c =? 127)%N
  else in_range 0 31 c || (code c =? 127)%N.

Fixpoint stripLow (keep_new_lines : bool) (s : string) : string :=
  match s with
  | EmptyString => EmptyString
  | String c r =>
      if is_low keep_new_lines c then stripLow keep_new_lines r
      else String c (stripLow keep_new_lines r)
  end.

(** The pattern of [isFloat], anchored at both ends: an optional sign,
    optional digits, optionally a point followed by any number of digits,
    optionally an exponent ([e] or [E], an optional sign, one digit or
    more). *)
Definition float_exponent (s : string) : bool :=
  match s with
  | EmptyString => true
  | String c r =>
      is_e c &&
      let r' := match r with
                | String "-" t | String "+" t => t
                | _ => r
                end in
      negb (String.eqb r' "") && all_chars is_digit r'
  end.

Definition float_pattern (s : string) : bool :=
  let s1 := match s with
            | String "-" t | String "+" t => t
            | _ => s
            end in
  let '(_, s2) := span_digits s1 in
  let s3 := match s2 with
            | String "." t => snd (span_digits t)
            | _ => s2
            end in
  float_exponent s3.

(** [isFloat(str, {min, max})] *)
Definition isFloat (min max : number) (s : string) : bool :=
  if mem s [""; "."; ","; "-"; "+"] then false
  else
    let value := parseFloat s in
    float_pattern s && geb value min && leb value max.

(** [matches(str, /^[class]+$/)] *)
Definition matches_plus (class : ascii -> bool) (s : string) : bool :=
  negb (String.eqb s "") && all_chars class s.

(** [isInt(str, {min, max})]: an optional sign and digits (leading zeros
    are allowed unless the option [allow_leading_zeroes] is false), and the
    bounds compared with the string as with [>=] and [<=]. *)
Definition int_pattern (s : string) : bool :=
  let s1 := match s with
            | String "-" t | String "+" t => t
            | _ => s
            end in
  negb (String.eqb s1 "") && all_chars is_digit s1.

Definition isInt (min max : option number) (s : string) : bool :=
  int_pattern s
  && match min with Some lo => geb (stringToNumber s) lo | None => true end
  && match max with Some hi => leb (stringToNumber s) hi | None => true end.

End Validator.


(* ===================================================================== *)
(** ** express-validator: validation chains on the request body *)
(* ===================================================================== *)
Module EV.
Import Js.

Record ValidationError := {
  ve_path : string;
  ve_msg : string;
  ve_value : JsVal;
  ve_location : string
}.

(** The steps of a chain.  A standard sanitizer or validator of
    validator.js works on the string form of the value; [isArray] and the
    custom steps see the value itself.  A custom validator returns the
    message of the error it throws, a custom sanitizer may throw past the
    chain. *)
Inductive Item :=
| Sanitize (f : string -> string)
| CustomSanitizer (f : JsVal -> Exc JsVal)
| Validate (p : string -> bool) (msg : string)
| ValidateRaw (p : JsVal -> bool) (msg : string)
| Custom (p : JsVal -> object -> option string).

(** [body(field)], or [body('field.*')] when [ch_wildcard]. *)
Record Chain := {
  ch_field : string;
  ch_wildcard : bool;
  ch_optional : bool;
  ch_items : list Item
}.

(** The [toString] of express-validator. *)
Definition toString (v : JsVal) : string :=
  match v with
  | JUndefined | JNull | JNum NaN => EmptyString
  | _ => js_String v
  end.

Definition values (v : JsVal) : list JsVal :=
  match v with JArr l => l | _ => [v] end.

Definition mkError (path msg : string) (v : JsVal) : ValidationError :=
  {| ve_path := path; ve_msg := msg; ve_value := v; ve_location := "body" |}.

(** One step on one selected field instance. *)
Definition run_item (it : Item) (body : object) (path : string) (v : JsVal)
  : Exc (JsVal * list ValidationError) :=
  match it with
  | Sanitize f =>
      Ok (match v with
          | JArr l => JArr (List.map (fun x => JStr (f (toString x))) l)
          | _ => JStr (f (toString v))
          end, [])
  | CustomSanitizer f => v' <- f v ;; Ok (v', [])
  | Validate p msg =>
      Ok (v, List.map (mkError path msg)
               (List.filter (fun x => negb (p (toString x))) (values v)))
  | ValidateRaw p msg => Ok (v, if p v then [] else [mkError path msg v])
  | Custom p =>
      Ok (v, match p v body with
             | Some msg => [mkError path msg v]
             | None => []
             end)
  end.

Definition index_path (field : string) (i : nat) : string :=
  field ++ "[" ++ show_N (N.of_nat i) ++ "]".

(** The instances a chain selects: the field, or each element of the
    array under it. *)
Definition select (c : Chain) (body : object) : list (string * JsVal) :=
  if ch_wildcard c then
    match get body (ch_field c) with
    | JArr l => imap (fun i x => (index_path (ch_field c) i, x)) l
    | _ => []
    end
  else [(ch_field c, get body (ch_field c))].

(** Writing the instances back to the request. *)
Definition write_back (c : Chain) (insts : list (string * JsVal)) (body : object)
  : object :=
  if ch_wildcard c then
    match insts with
    | [] => body
    | _ => set (ch_field c) (JArr (List.map snd insts)) body
    end
  else
    match insts with
    | [(_, v)] => set (ch_field c) v body
    | _ => body
    end.

(** An optional chain skips the instances whose value is [undefined]. *)
Definition skipped (c : Chain) (v : JsVal) : bool :=
  ch_optional c && match v with JUndefined => true | _ => false end.

Fixpoint item_on_instances (c : Chain) (it : Item) (body : object)
    (insts : list (string * JsVal))
  : Exc (list (string * JsVal) * list ValidationError) :=
  match insts with
  | [] => Ok ([], [])
  | (path, v) :: rest =>
      r <- (if skipped c v then Ok (v, []) else run_item it body path v) ;;
      rs <- item_on_instances c it body rest ;;
      Ok ((path, fst r) :: fst rs, snd r ++ snd rs)
  end.

Fixpoint run_items (c : Chain) (items : list Item) (body : object)
    (insts : list (string * JsVal))
  : Exc (object * list ValidationError) :=
  match items with
  | [] => Ok (body, [])
  | it :: rest =>
      r <- item_on_instances c it body insts ;;
      let body' := write_back c (fst r) body in
      k <- run_items c rest body' (fst r) ;;
      Ok (fst k, snd r ++ snd k)
  end.

(** Running a chain as middleware: the body after the sanitizers of the
    chain and the errors it adds to the request, in order. *)
Definition run (c : Chain) (body : object) : Exc (object * list ValidationError) :=
  run_items c (ch_items c) body (select c body).

Definition chain (field : string) (items : list Item) : Chain :=
  {| ch_field := field; ch_wildcard := false; ch_optional := false;
     ch_items := items |}.

Definition optional (c : Chain) : Chain :=
  {| ch_field := ch_field c; ch_wildcard := ch_wildcard c; ch_optional := true;
     ch_items := ch_items c |}.

Definition each (c : Chain) : Chain :=
  {| ch_field := ch_field c; ch_wildcard := true; ch_optional := ch_optional c;
     ch_items := ch_items c |}.

(** [isArray({max})] *)
Definition isArray (max : option nat) (v : JsVal) : bool :=
  match v with
  | JArr l => match max with Some m => Nat.leb (List.length l) m | None => true end
  | _ => false
  end.

End EV.

(* ===================================================================== *)
(** ** middleware/validation.js *)
(* ===================================================================== *)
Module Validation.
Import Js Validator EV.

Definition is_letter_or_digit (c : ascii) : bool :=
  in_range 97 122 c || in_range 65 90 c || is_digit c ||
  existsb (N.eqb (code c))
    [225; 233; 237; 243; 250; 193; 201; 205; 211; 218; 241; 209]%N.

(** The class of the description pattern: letters, digits, the accented
    vowels and the n with tilde, white space, and [-.,()]. *)
Definition description_char (c : ascii) : bool :=
  is_letter_or_digit c || is_space c ||
  existsb (Ascii.eqb c) ["-"; "."; ","; "("; ")"]%char.

(** The class of the tag pattern: as above with [-] and [_] only. *)
Definition tag_char (c : ascii) : bool :=
  is_letter_or_digit c || is_space c ||
  existsb (Ascii.eqb c) ["-"; "_"]%char.

Definition min_amount : number := Fin 1 2.
Definition max_amount : number := Fin 99999999999 2.

(** The custom validator of [amount]: the part after the first point of
    [value.toString()] has at most two characters. *)
Definition amount_decimals (v : JsVal) (_ : object) : option string :=
  match method_toString v with
  | Throw _ => Some "Cannot read properties of undefined (reading 'toString')"
  | Ok s =>
      match split "." s with
      | _ :: f :: _ =>
          if negb (String.eqb f "") && Nat.ltb 2 (String.length f)
          then Some "El monto no puede tener más de 2 decimales"
          else None
      | _ => None
      end
  end.

(** The custom validator of [date]: within one year of today. *)
Definition date_window (D : DateEnv) (now : Z) (v : JsVal) (_ : object) : option string :=
  let date := new_Date D v in
  let oneYearAgo := Some (date_addYears D now (-1)) in
  let oneYearFromNow := Some (date_addYears D now 1) in
  if date_lt date oneYearAgo
  then Some "La fecha no puede ser anterior a un año"
  else if date_lt oneYearFromNow date
  then Some "La fecha no puede ser posterior a un año"
  else None.

Definition payment_methods : list string :=
  ["efectivo"; "tarjeta_debito"; "tarjeta_credito"; "transferencia";
   "cheque"; "crypto"; "otros"].

Module transactionValidations.
Definition description : Chain :=
  chain "description"
    [Sanitize trim;
     Validate (isLength 1 (Some 200%nat))
       "La descripción debe tener entre 1 y 200 caracteres";
     Validate (matches_plus description_char)
       "La descripción contiene caracteres no válidos"].

Definition amount : Chain :=
  chain "amount"
    [Validate (isFloat min_amount max_amount)
       "El monto debe ser un número entre 0.01 y 999,999,999.99";
     Custom amount_decimals].

Definition date (D : DateEnv) (now : Z) : Chain :=
  chain "date"
    [Validate (isISO8601 D) "La fecha debe ser válida (formato ISO 8601)";
     Custom (date_window D now)].

Definition paymentMethod : Chain :=
  chain "paymentMethod"
    [Validate (isIn payment_methods) "Método de pago no válido"].

Definition notes : Chain :=
  optional (chain "notes"
    [Sanitize trim;
     Validate (isLength 0 (Some 500%nat))
       "Las notas no pueden exceder 500 caracteres"]).

Definition tags : Chain :=
  optional (chain "tags"
    [ValidateRaw (isArray (Some 10%nat))
       "No se pueden agregar más de 10 etiquetas"]).

Definition tagItem : Chain :=
  each (optional (chain "tags"
    [Sanitize trim;
     Validate (isLength 1 (Some 20%nat))
       "Cada etiqueta debe tener entre 1 y 20 caracteres";
     Validate (matches_plus tag_char)
       "Las etiquetas solo pueden contener letras, números, espacios, guiones y guiones bajos"])).
End transactionValidations.

Definition income_categories : list string :=
  ["salario"; "ventas"; "inversiones"; "freelance"; "bonos"; "comisiones";
   "alquiler"; "intereses"; "dividendos"; "reembolsos"; "regalos"; "otros"].

Definition expense_categories : list string :=
  ["alimentacion"; "transporte"; "vivienda"; "servicios"; "salud";
   "educacion"; "entretenimiento"; "ropa"; "tecnologia"; "deudas"; "ahorro";
   "inversion"; "impuestos"; "seguros"; "mantenimiento"; "otros"].

Definition frequencies : list string :=
  ["diario"; "semanal"; "mensual"; "trimestral"; "anual"].

(** The custom validator of [recurringFrequency]:
    [req.body.isRecurring && !value] throws. *)
Definition frequency_required (v : JsVal) (body : object) : option string :=
  if truthy (get body "isRecurring") && negb (truthy v)
  then Some "La frecuencia de recurrencia es requerida cuando isRecurring es true"
  else None.

Definition recurringFrequency_chain : Chain :=
  optional (chain "recurringFrequency"
    [Validate (isIn frequencies) "Frecuencia de recurrencia no válida";
     Custom frequency_required]).

Definition isRecurring_chain : Chain :=
  optional (chain "isRecurring"
    [Validate isBoolean "isRecurring debe ser un valor booleano"]).

Module incomeValidations.
Definition category : Chain :=
  chain "category"
    [Validate (isIn income_categories) "Categoría de ingreso no válida"].
Definition isRecurring : Chain := isRecurring_chain.
Definition recurringFrequency : Chain := recurringFrequency_chain.
End incomeValidations.

Module expenseValidations.
Definition category : Chain :=
  chain "category"
    [Validate (isIn expense_categories) "Categoría de gasto no válida"].
Definition isEssential : Chain :=
  chain "isEssential"
    [Validate isBoolean "isEssential debe ser un valor booleano"].
Definition isRecurring : Chain := isRecurring_chain.
Definition recurringFrequency : Chain := recurringFrequency_chain.
End expenseValidations.
(** The custom validator of [endDate]: not before [startDate], when both
    are given. *)
Definition end_after_start (D : DateEnv) (value : JsVal) (q : object)
  : option string :=
  if truthy value && truthy (get q "startDate") then
    if date_lt (new_Date D value) (new_Date D (get q "startDate"))
    then Some "La fecha de fin debe ser posterior a la fecha de inicio"
    else None
  else None.

Definition sort_fields : list string := ["date"; "amount"; "description"; "category"].

Definition sort_orders : list string := ["asc"; "desc"].

Module queryValidations.
Definition page : Chain :=
  optional (chain "page"
    [Validate (isInt (Some (of_Z 1)) None)
       "La página debe ser un número entero mayor a 0"]).

Definition limit : Chain :=
  optional (chain "limit"
    [Validate (isInt (Some (of_Z 1)) (Some (of_Z 100)))
       "El límite debe ser un número entre 1 y 100"]).

Definition startDate (D : DateEnv) : Chain :=
  optional (chain "startDate"
    [Validate (isISO8601 D)
       "La fecha de inicio debe ser válida (formato ISO 8601)"]).

Definition endDate (D : DateEnv) : Chain :=
  optional (chain "endDate"
    [Validate (isISO8601 D) "La fecha de fin debe ser válida (formato ISO 8601)";
     Custom (end_after_start D)]).

Definition sortBy : Chain :=
  optional (chain "sortBy"
    [Validate (isIn sort_fields) "Campo de ordenamiento no válido"]).

Definition sortOrder : Chain :=
  optional (chain "sortOrder"
    [Validate (isIn sort_orders) "Orden de clasificación debe ser asc o desc"]).
End queryValidations.

End Validation.


(* ===================================================================== *)
(** ** The document store behind the Mongoose models *)
(* ===================================================================== *)
Module Store.
Import Js.

(** [userSchema]: name, email, password, role, isActive, lastLogin and
    preferences.  The schema declares no other path. *)
Record User := {
  u_id : Z;
  u_name : string;
  u_email : string;
  u_role : string;
  u_isActive : bool;
  u_lastLogin : option Z;          (* a date, or null *)
  u_currency : string;
  u_language : string
}.

(** [incomeSchema] and [expenseSchema]; [t_isEssential] is read by the
    expense model only. *)
Record Transaction := {
  t_user : Z;
  t_description : string;
  t_amount : number;
  t_category : string;
  t_date : Z;
  t_paymentMethod : string;
  t_notes : option string;
  t_isRecurring : bool;
  t_recurringFrequency : option string;
  t_tags : list string;
  t_isEssential : bool;
  t_isActive : bool
}.

Record Db := {
  users : list User;
  incomes : list Transaction;
  expenses : list Transaction
}.

Inductive Collection := Users | Incomes | Expenses.

(** [User.findById(id)] *)
Definition findById (db : Db) (id : Z) : option User :=
  List.find (fun u => u_id u =? id) (users db).

(** Reading a path of a user document that was loaded with
    [select(fields)]: a path outside the projection, or outside the
    schema, is [undefined].  Dates are read through [u_lastLogin]. *)
Definition user_path (fields : list string) (u : User) (path : string) : JsVal :=
  if negb (mem path fields) then JUndefined
  else if String.eqb path "name" then JStr (u_name u)
  else if String.eqb path "email" then JStr (u_email u)
  else if String.eqb path "role" then JStr (u_role u)
  else if String.eqb path "isActive" then JBool (u_isActive u)
  else JUndefined.

(** The filter [{ user, date: { $gte, $lt }, isActive: true }] *)
Definition on_day (user : Z) (from to : Z) (t : Transaction) : bool :=
  (t_user t =? user) && (from <=? t_date t) && (t_date t <? to) && t_isActive t.

(** The filter [{ user, isActive: true }] *)
Definition active_of (user : Z) (t : Transaction) : bool :=
  (t_user t =? user) && t_isActive t.

(** The filter [{ user, amount, date, category, isActive: true }] *)
Definition same_data (user : Z) (amount : number) (date : Z) (category : string)
    (t : Transaction) : bool :=
  (t_user t =? user) && JsNumber.eqb (t_amount t) amount && (t_date t =? date)
  && String.eqb (t_category t) category && t_isActive t.

Definition countDocuments (f : Transaction -> bool) (l : list Transaction) : Z :=
  Z.of_nat (List.length (List.filter f l)).

Definition findOne (f : Transaction -> bool) (l : list Transaction)
  : option Transaction := List.find f l.

(** The casts Mongoose applies to a filter value; [None] is a CastError. *)
Definition cast_number (n : number) : option number :=
  match n with NaN => None | _ => Some n end.

Definition cast_string (v : JsVal) : option string :=
  match v with
  | JArr _ | JUndefined | JNull => None
  | _ => Some (js_String v)
  end.

End Store.

(* ===================================================================== *)
(** ** Express: requests, responses, middleware *)
(* ===================================================================== *)
Module Express.
Import Js EV Store.

Inductive Method := GET | POST | PUT | PATCH | DELETE.

Record Env := {
  dates : DateEnv;
  now : Z;                          (* the clock, [new Date()] and [Date.now()] *)
  dangerous : string -> bool        (* some pattern of [dangerousPatterns] matches *)
}.

Record Request := {
  method : Method;
  path : string;                    (* [req.path], relative to the mount point *)
  token : option Z;                 (* the user id of a token that verifies *)
  content_type : option string;
  content_length : option Z;
  body : object;
  query : object;
  user : option Z;                  (* [req.user._id] *)
  errors : list ValidationError     (* the results of the chains run so far *)
}.

Definition with_body (b : object) (r : Request) : Request :=
  {| method := method r; path := path r; token := token r;
     content_type := content_type r; content_length := content_length r;
     body := b; query := query r; user := user r; errors := errors r |}.

Definition with_query (q : object) (r : Request) : Request :=
  {| method := method r; path := path r; token := token r;
     content_type := content_type r; content_length := content_length r;
     body := body r; query := q; user := user r; errors := errors r |}.

Definition with_user (u : Z) (r : Request) : Request :=
  {| method := method r; path := path r; token := token r;
     content_type := content_type r; content_length := content_length r;
     body := body r; query := query r; user := Some u; errors := errors r |}.

Definition add_errors (es : list ValidationError) (r : Request) : Request :=
  {| method := method r; path := path r; token := token r;
     content_type := content_type r; content_length := content_length r;
     body := body r; query := query r; user := user r;
     errors := errors r ++ es |}.

Definition with_path (p : string) (r : Request) : Request :=
  {| method := method r; path := p; token := token r;
     content_type := content_type r; content_length := content_length r;
     body := body r; query := query r; user := user r; errors := errors r |}.

Record Response := {
  status : Z;
  message : string;
  validationErrors : list ValidationError
}.

Definition reply (st : Z) (msg : string) : Response :=
  {| status := st; message := msg; validationErrors := [] |}.

(** What a middleware does: call [next()], answer, or throw. *)
Inductive Step :=
| Next (r : Request)
| Respond (r : Response)
| Raise (name : string).

Inductive Stage :=
| Auth | ContentGuard | InjectionGuard | Sanitizer | Schema | BusinessRule
| ValidationReport.

(** A middleware with the reads of the store it performed. *)
Record Middleware := {
  mw_name : string;
  mw_stage : Stage;
  mw_run : Env -> Db -> Request -> Step * list Collection
}.

Inductive Event :=
| Entered (name : string) (stage : Stage)
| Read (c : Collection)
| Handled.

Record Outcome := {
  response : Response;
  db_after : Db;
  trace : list Event
}.

(** [errorHandler] for an error that is neither a Mongoose nor a JWT
    error: [err.status || 500]. *)
Definition errorHandler (name : string) : Response :=
  reply 500 name.

Definition Handler := Env -> Db -> Request -> Response * Db.

(** The middleware of a route, in order, until one answers or throws. *)
Fixpoint run_stack (mws : list Middleware) (E : Env) (db : Db) (r : Request)
  : Step * list Event :=
  match mws with
  | [] => (Next r, [])
  | m :: rest =>
      let '(step, rd) := mw_run m E db r in
      let here := Entered (mw_name m) (mw_stage m) :: List.map Read rd in
      match step with
      | Next r' => let '(s, t) := run_stack rest E db r' in (s, here ++ t)
      | _ => (step, here)
      end
  end.

(** A route [router.method(path, [middleware...], handler)]. *)
Definition run_route (mws : list Middleware) (h : Handler) (E : Env) (db : Db)
    (r : Request) : Outcome :=
  match run_stack mws E db r with
  | (Next r', t) =>
      let '(resp, db') := h E db r' in
      {| response := resp; db_after := db'; trace := t ++ [Handled] |}
  | (Respond resp, t) => {| response := resp; db_after := db; trace := t |}
  | (Raise name, t) =>
      {| response := errorHandler name; db_after := db; trace := t |}
  end.

(** A validation chain used as middleware. *)
Definition of_chain (name : string) (stage : Stage) (c : Env -> Chain)
  : Middleware :=
  {| mw_name := name; mw_stage := stage;
     mw_run := fun E _ r =>
       (match EV.run (c E) (body r) with
        | Ok (b, es) => Next (add_errors es (with_body b r))
        | Throw name => Raise name
        end, []) |}.

Definition stages (t : list Event) : list Stage :=
  omap (fun e => match e with Entered _ s => Some s | _ => None end) t.

Definition names (t : list Event) : list string :=
  omap (fun e => match e with Entered n _ => Some n | _ => None end) t.

Definition reads (t : list Event) : list Collection :=
  omap (fun e => match e with Read c => Some c | _ => None end) t.

Definition handled (t : list Event) : bool :=
  existsb (fun e => match e with Handled => true | _ => false end) t.

Definition entered (name : string) (t : list Event) : bool :=
  existsb (String.eqb name) (names t).

End Express.

(* ===================================================================== *)
(** ** middleware/auth.js *)
(* ===================================================================== *)
Module AuthMw.
Import Js Store Express.

(** [authenticateToken]: the token must verify and name a stored user. *)
Definition authenticateToken : Middleware :=
  {| mw_name := "authenticateToken"; mw_stage := Auth;
     mw_run := fun _ db r =>
       match token r with
       | None => (Respond (reply 401 "Token de acceso requerido"), [])
       | Some id =>
           match findById db id with
           | None => (Respond (reply 401 "Usuario no encontrado"), [Users])
           | Some u => (Next (with_user (u_id u) r), [Users])
           end
       end |}.

(** [optionalAuth]: the user of a token that verifies and names a stored
    user; the request goes on in every case. *)
Definition optionalAuth : Middleware :=
  {| mw_name := "optionalAuth"; mw_stage := Auth;
     mw_run := fun _ db r =>
       match token r with
       | None => (Next r, [])
       | Some id =>
           match findById db id with
           | None => (Next r, [Users])
           | Some u => (Next (with_user (u_id u) r), [Users])
           end
       end |}.

End AuthMw.

(* ===================================================================== *)
(** ** middleware/sanitization.mjs *)
(* ===================================================================== *)
Module Sanitization.
Import Js Validator EV Store Express.

Definition trim_string (v : JsVal) : JsVal :=
  match v with JStr s => JStr (trim s) | _ => v end.

(** The assignment of the second loop of [sanitizeInput]:
    [req.query[key] = req.body[key].trim()], a TypeError unless
    [req.body[key]] is a string. *)
Definition query_value (body : object) (key : string) (v : JsVal) : Exc JsVal :=
  match v with
  | JStr _ =>
      match get body key with
      | JStr s => Ok (JStr (trim s))
      | _ => Throw "TypeError"
      end
  | _ => Ok v
  end.

Definition query_ok (body : object) (key : string) (v : JsVal) : Prop :=
  match query_value body key v with Ok _ => True | Throw _ => False end.

#[global] Instance query_ok_dec body key v : Decision (query_ok body key v).
Proof. unfold query_ok; destruct (query_value body key v); apply _. Defined.

Definition sanitize_body (b : object) : object := trim_string <$> b.

Definition sanitize_query (b q : object) : Exc object :=
  if decide (map_Forall (query_ok b) q)
  then Ok (map_imap (fun k v => match query_value b k v with
                                 | Ok v' => Some v'
                                 | Throw _ => Some v
                                 end) q)
  else Throw "TypeError".

Definition sanitizeInput : Middleware :=
  {| mw_name := "sanitizeInput"; mw_stage := Sanitizer;
     mw_run := fun _ _ r =>
       let b := sanitize_body (body r) in
       (match sanitize_query b (query r) with
        | Ok q => Next (with_query q (with_body b r))
        | Throw name => Raise name
        end, []) |}.

Definition sanitizeTextFields (fields : list string) : list Chain :=
  List.map (fun f => chain f [Sanitize trim; Sanitize escape; Sanitize (stripLow false)])
    fields.

Definition sanitizeDescription : Chain :=
  chain "description" [Sanitize trim; Sanitize escape; Sanitize (stripLow true)].

Definition sanitizeNotes : Chain :=
  optional (chain "notes" [Sanitize trim; Sanitize escape; Sanitize (stripLow true)]).

Definition clean_tag (tag : JsVal) : JsVal :=
  match tag with JStr s => JStr (toLowerCase (trim s)) | _ => tag end.

Fixpoint keep_nonempty (l : list JsVal) : Exc (list JsVal) :=
  match l with
  | [] => Ok []
  | tag :: rest =>
      keep <- length_positive tag ;;
      rest' <- keep_nonempty rest ;;
      Ok (if keep then tag :: rest' else rest')
  end.

Definition clean_tags (value : JsVal) : Exc JsVal :=
  match value with
  | JArr l => l' <- keep_nonempty (List.map clean_tag l) ;; Ok (JArr l')
  | _ => Ok value
  end.

Definition sanitizeTags : Chain :=
  optional (chain "tags" [CustomSanitizer clean_tags]).

(** The sanitizer of a numeric field: a string becomes the double that
    [parseFloat] reads from it, anything else stays. *)
Definition to_number (value : JsVal) : Exc JsVal :=
  match value with
  | JStr s => Ok (JNum (binary64 (parseFloat s)))
  | _ => Ok value
  end.

Definition sanitizeNumericFields (fields : list string) : list Chain :=
  List.map (fun f => chain f [CustomSanitizer to_number]) fields.

Definition to_iso (D : DateEnv) (value : JsVal) : Exc JsVal :=
  if truthy value then
    match new_Date D value with
    | None => Ok value
    | Some t => Ok (JStr (date_toISOString D t))
    end
  else Ok value.

Definition sanitizeDate (D : DateEnv) : Chain :=
  chain "date" [CustomSanitizer (to_iso D)].

Definition to_boolean (value : JsVal) : Exc JsVal :=
  match value with
  | JStr s => Ok (JBool (String.eqb (toLowerCase s) "true"))
  | _ => Ok (JBool (truthy value))
  end.

Definition sanitizeBooleanFields (fields : list string) : list Chain :=
  List.map (fun f => chain f [CustomSanitizer to_boolean]) fields.

(** [checkForInjection]: some string of the structure matches a pattern. *)
Fixpoint value_dangerous (bad : string -> bool) (v : JsVal) : bool :=
  match v with
  | JStr s => bad s
  | JArr l => existsb (value_dangerous bad) l
  | _ => false
  end.

Definition checkForInjection (bad : string -> bool) (o : object) : bool :=
  existsb (fun kv => value_dangerous bad (snd kv)) (map_to_list o).

Definition preventInjection : Middleware :=
  {| mw_name := "preventInjection"; mw_stage := InjectionGuard;
     mw_run := fun E _ r =>
       (if checkForInjection (dangerous E) (body r)
           || checkForInjection (dangerous E) (query r)
        then Respond (reply 400 "Contenido potencialmente peligroso detectado")
        else Next r, []) |}.

Definition limitDataSize (maxSize : Z) : Middleware :=
  {| mw_name := "limitDataSize"; mw_stage := ContentGuard;
     mw_run := fun _ _ r =>
       let contentLength := default 0 (content_length r) in
       (if maxSize <? contentLength
        then Respond (reply 413 "Datos demasiado grandes")
        else Next r, []) |}.

Definition validateContentType (allowedTypes : list string) : Middleware :=
  {| mw_name := "validateContentType"; mw_stage := ContentGuard;
     mw_run := fun _ _ r =>
       (match method r with
        | POST | PUT | PATCH =>
            match content_type r with
            | Some ct =>
                if String.eqb ct "" || negb (existsb (fun t => includes t ct) allowedTypes)
                then Respond (reply 415 "Tipo de contenido no soportado")
                else Next r
            | None => Respond (reply 415 "Tipo de contenido no soportado")
            end
        | _ => Next r
        end, []) |}.

(** [sanitizeQueryParams]: the four custom sanitizers of the query. *)
Definition to_page (value : JsVal) : Exc JsVal :=
  let page := js_parseInt value in
  Ok (JNum (if is_nan page || ltb page (of_Z 1) then of_Z 1 else page)).

Definition to_limit (value : JsVal) : Exc JsVal :=
  let limit := js_parseInt value in
  Ok (JNum (if is_nan limit || ltb limit (of_Z 1) then of_Z 10
            else min_number limit (of_Z 100))).

Definition to_sort_field (value : JsVal) : Exc JsVal :=
  let allowedFields := ["date"; "amount"; "description"; "category"] in
  Ok (match value with
      | JStr s => if mem s allowedFields then value else JStr "date"
      | _ => JStr "date"
      end).

Definition to_sort_order (value : JsVal) : Exc JsVal :=
  Ok (match value with
      | JStr "asc" => JStr "asc"
      | _ => JStr "desc"
      end).

Definition sanitizeQueryParams : list Chain :=
  [ chain "page" [CustomSanitizer to_page];
    chain "limit" [CustomSanitizer to_limit];
    chain "sortBy" [CustomSanitizer to_sort_field];
    chain "sortOrder" [CustomSanitizer to_sort_order] ].

End Sanitization.


(* ===================================================================== *)
(** ** middleware/businessValidation.js *)
(* ===================================================================== *)
Module Business.
Import Js Validator EV Store Express.

Definition ms_per_day : Z := 24 * 60 * 60 * 1000.

Definition server_error : Response := reply 500 "Error interno del servidor".

(** [validateActiveUser] *)
Definition validateActiveUser : Middleware :=
  {| mw_name := "validateActiveUser"; mw_stage := BusinessRule;
     mw_run := fun E db r =>
       match user r with
       | None => (Respond server_error, [])
       | Some userId =>
           match findById db userId with
           | None => (Respond (reply 404 "Usuario no encontrado"), [Users])
           | Some u =>
               let sel := user_path ["isActive"; "lastLogin"] u in
               if negb (truthy (sel "isActive"))
               then (Respond (reply 403 "Cuenta desactivada"), [Users])
               else
                 let maxInactiveDays := 90 in
                 let lastLogin := default 0 (u_lastLogin u) in
                 if maxInactiveDays * ms_per_day <? now E - lastLogin
                 then (Respond (reply 401 "Sesión expirada por inactividad"), [Users])
                 else (Next r, [Users])
           end
       end |}.

(** [validateTransactionLimits] *)
Definition validateTransactionLimits : Middleware :=
  {| mw_name := "validateTransactionLimits"; mw_stage := BusinessRule;
     mw_run := fun E db r =>
       match user r with
       | None => (Respond server_error, [])
       | Some userId =>
           let amount := get (body r) "amount" in
           let date := get (body r) "date" in
           match new_Date (dates E) date with
           | None => (Respond server_error, [])
           | Some t =>
               let today := date_startOfDay (dates E) t in
               let tomorrow := date_nextDay (dates E) today in
               let todayTransactions :=
                 countDocuments (on_day userId today tomorrow) (incomes db) in
               let maxDailyTransactions := 50 in
               if maxDailyTransactions <=? todayTransactions
               then (Respond (reply 429 "Límite diario de transacciones excedido"),
                     [Incomes])
               else
                 let maxTransactionAmount := of_Z 1000000 in
                 if gtb (toNumber amount) maxTransactionAmount
                 then (Respond (reply 400 "Monto excesivo"), [Incomes])
                 else (Next r, [Incomes])
           end
       end |}.

Definition includes_value (l : list string) (v : JsVal) : bool :=
  match v with JStr s => mem s l | _ => false end.

Definition validIncomeCategories : list string :=
  ["salario"; "ventas"; "inversiones"; "freelance"; "bonos"; "comisiones";
   "alquiler"; "intereses"; "dividendos"; "reembolsos"; "regalos"; "otros"].

Definition validExpenseCategories : list string :=
  ["alimentacion"; "transporte"; "vivienda"; "servicios"; "salud";
   "educacion"; "entretenimiento"; "ropa"; "tecnologia"; "deudas"; "ahorro";
   "inversion"; "impuestos"; "seguros"; "mantenimiento"; "otros"].

(** [validateFinancialConsistency] *)
Definition validateFinancialConsistency : Middleware :=
  {| mw_name := "validateFinancialConsistency"; mw_stage := BusinessRule;
     mw_run := fun E db r =>
       match user r with
       | None => (Respond server_error, [])
       | Some _ =>
           let amount := get (body r) "amount" in
           let date := get (body r) "date" in
           let category := get (body r) "category" in
           let isIncome := includes "/incomes" (path r) in
           let isExpense := includes "/expenses" (path r) in
           if leb (toNumber amount) (of_Z 0)
           then (Respond (reply 400 "Monto inválido"), [])
           else
             let transactionDate := new_Date (dates E) date in
             let maxFutureDays := 30 in
             let futureLimit := time_clip (now E + maxFutureDays * ms_per_day) in
             if date_lt futureLimit transactionDate
             then (Respond (reply 400 "Fecha inválida"), [])
             else if isIncome && negb (includes_value validIncomeCategories category)
             then (Respond (reply 400 "Categoría inválida"), [])
             else if isExpense && negb (includes_value validExpenseCategories category)
             then (Respond (reply 400 "Categoría inválida"), [])
             else (Next r, [])
       end |}.

Record Limits := {
  maxTransactions : Z;
  maxCategories : Z;
  maxTags : Z
}.

(** [planLimits[userPlan]] *)
Definition planLimits (userPlan : string) : option Limits :=
  if String.eqb userPlan "free"
  then Some {| maxTransactions := 100; maxCategories := 10; maxTags := 5 |}
  else if String.eqb userPlan "premium"
  then Some {| maxTransactions := 1000; maxCategories := 50; maxTags := 20 |}
  else if String.eqb userPlan "enterprise"
  then Some {| maxTransactions := -1; maxCategories := -1; maxTags := -1 |}
  else None.

(** [v.length] where it is a number. *)
Definition js_length (v : JsVal) : option Z :=
  match v with
  | JStr s => Some (Z.of_nat (String.length s))
  | JArr l => Some (Z.of_nat (List.length l))
  | _ => None
  end.

(** [user.plan || 'free'] of a user loaded with [select('plan preferences')] *)
Definition userPlan (u : User) : JsVal :=
  let plan := user_path ["plan"; "preferences"] u "plan" in
  if truthy plan then plan else JStr "free".

Definition transactionCount (db : Db) (userId : Z) : Z :=
  countDocuments (active_of userId) (incomes db)
  + countDocuments (active_of userId) (expenses db).

(** [validateUserPlanLimits] *)
Definition validateUserPlanLimits : Middleware :=
  {| mw_name := "validateUserPlanLimits"; mw_stage := BusinessRule;
     mw_run := fun E db r =>
       match user r with
       | None => (Respond server_error, [])
       | Some userId =>
           match findById db userId with
           | None => (Respond (reply 404 "Usuario no encontrado"), [Users])
           | Some u =>
               match planLimits (js_String (userPlan u)) with
               | None => (Respond server_error, [Users])
               | Some limits =>
                   let counted := 0 <? maxTransactions limits in
                   let reads :=
                     if counted then [Users; Incomes; Expenses] else [Users] in
                   if counted && (maxTransactions limits <=? transactionCount db userId)
                   then (Respond (reply 429 "Límite de plan excedido"), reads)
                   else
                     let tags := get (body r) "tags" in
                     if (0 <? maxTags limits) && truthy tags
                        && match js_length tags with
                           | Some n => maxTags limits <? n
                           | None => false
                           end
                     then (Respond (reply 400 "Límite de etiquetas excedido"), reads)
                     else (Next r, reads)
               end
           end
       end |}.

(** [validateDataIntegrity] *)
Definition validateDataIntegrity : Middleware :=
  {| mw_name := "validateDataIntegrity"; mw_stage := BusinessRule;
     mw_run := fun E db r =>
       match user r with
       | None => (Respond server_error, [])
       | Some userId =>
           let amount := get (body r) "amount" in
           let date := get (body r) "date" in
           let category := get (body r) "category" in
           if truthy amount && truthy date && truthy category then
             match cast_number (js_parseFloat amount),
                   new_Date (dates E) date, cast_string category with
             | Some a, Some d, Some c =>
                 match findOne (same_data userId a d c) (incomes db) with
                 | Some _ => (Respond (reply 409 "Transacción duplicada"), [Incomes])
                 | None =>
                     match findOne (same_data userId a d c) (expenses db) with
                     | Some _ =>
                         (Respond (reply 409 "Transacción duplicada"),
                          [Incomes; Expenses])
                     | None => (Next r, [Incomes; Expenses])
                     end
                 end
             | _, _, _ => (Respond server_error, [])
             end
           else (Next r, [])
       end |}.

End Business.

(* ===================================================================== *)
(** ** The Mongoose models: casting and validation on [save] *)
(* ===================================================================== *)
Module Models.
Import Js Validator Store Express.

Inductive Kind := Income | Expense.

Definition model_payment_methods : list string :=
  ["efectivo"; "tarjeta"; "transferencia"; "cheque"; "crypto"; "otros"].

Definition model_frequencies : list string :=
  ["semanal"; "quincenal"; "mensual"; "trimestral"; "anual"].

Definition categories (k : Kind) : list string :=
  match k with
  | Income => Business.validIncomeCategories
  | Expense => Business.validExpenseCategories
  end.

(** A cast gives the value, nothing for an absent or null field, or fails. *)
Definition castNumber (v : JsVal) : Exc (option number) :=
  match v with
  | JUndefined | JNull => Ok None
  | JStr "" => Ok None
  | JStr s => match stringToNumber s with NaN => Throw "CastError" | n => Ok (Some n) end
  | JBool b => Ok (Some (Fin (if b then 1 else 0) 0))
  | JNum NaN => Throw "CastError"
  | JNum n => Ok (Some n)
  | JArr _ => Throw "CastError"
  end.

Definition castString (v : JsVal) : Exc (option string) :=
  match v with
  | JUndefined | JNull => Ok None
  | JArr _ => Throw "CastError"
  | _ => Ok (Some (js_String v))
  end.

Definition castBoolean (v : JsVal) : Exc (option bool) :=
  match v with
  | JUndefined | JNull => Ok None
  | JBool b => Ok (Some b)
  | JStr s =>
      if mem s ["true"; "1"; "yes"] then Ok (Some true)
      else if mem s ["false"; "0"; "no"] then Ok (Some false)
      else Throw "CastError"
  | JNum n =>
      if JsNumber.eqb n (Fin 1 0) then Ok (Some true)
      else if JsNumber.eqb n (Fin 0 0) then Ok (Some false)
      else Throw "CastError"
  | JArr _ => Throw "CastError"
  end.

Definition castDate (D : DateEnv) (v : JsVal) : Exc (option Z) :=
  match v with
  | JUndefined | JNull => Ok None
  | _ =>
      let t :=
        match v with
        | JStr s =>
            let n := stringToNumber s in
            if geb n (of_Z 275761) || ltb n (of_Z (-271820))
            then new_Date D (JNum n) else date_parse D s
        | _ => new_Date D v
        end in
      match t with Some x => Ok (Some x) | None => Throw "CastError" end
  end.

Fixpoint castTags (l : list JsVal) : Exc (list string) :=
  match l with
  | [] => Ok []
  | x :: rest =>
      s <- castString x ;;
      rest' <- castTags rest ;;
      Ok (match s with Some t => trim t :: rest' | None => rest' end)
  end.

Definition within (lo hi : nat) (s : string) : bool :=
  Nat.leb lo (String.length s) && Nat.leb (String.length s) hi.

(** [new Model({...req.body, user}).save()]: the stored document, or the
    error of a failed cast or validator. *)
Definition create (k : Kind) (E : Env) (userId : Z) (b : object)
  : Exc Transaction :=
  description <- castString (get b "description") ;;
  amount <- castNumber (get b "amount") ;;
  category <- castString (get b "category") ;;
  date <- (match get b "date" with
           | JUndefined => Ok (Some (now E))
           | v => castDate (dates E) v
           end) ;;
  paymentMethod <- (match get b "paymentMethod" with
                    | JUndefined => Ok (Some "efectivo")
                    | v => castString v
                    end) ;;
  notes <- castString (get b "notes") ;;
  isRecurring <- (match get b "isRecurring" with
                  | JUndefined => Ok (Some false)
                  | v => castBoolean v
                  end) ;;
  recurringFrequency <- castString (get b "recurringFrequency") ;;
  tags <- (match get b "tags" with
           | JUndefined | JNull => Ok []
           | JArr l => castTags l
           | v => castTags [v]
           end) ;;
  isEssential <- (match k, get b "isEssential" with
                  | Income, _ => Ok (Some false)
                  | Expense, JUndefined => Ok (Some false)
                  | Expense, v => castBoolean v
                  end) ;;
  isActive <- (match get b "isActive" with
               | JUndefined => Ok (Some true)
               | v => castBoolean v
               end) ;;
  match description, amount, category, date with
  | Some d0, Some a, Some c, Some t =>
      let d := trim d0 in
      let valid :=
        within 3 200 d
        && geb a (Fin 1 2) && leb a (Fin 99999999999 2)
        && mem c (categories k)
        && match paymentMethod with
           | Some m => mem m model_payment_methods
           | None => true
           end
        && match notes with
           | Some n => Nat.leb (String.length (trim n)) 500
           | None => true
           end
        && match recurringFrequency with
           | Some f => mem f model_frequencies
           | None => negb (bool_decide (isRecurring = Some true))
           end
        && forallb (fun t => Nat.leb (String.length t) 20) tags in
      if valid then
        Ok {| t_user := userId; t_description := d; t_amount := a;
              t_category := c; t_date := t;
              t_paymentMethod := default "efectivo" paymentMethod;
              t_notes := option_map trim notes;
              t_isRecurring := default false isRecurring;
              t_recurringFrequency := recurringFrequency;
              t_tags := tags;
              t_isEssential := default false isEssential;
              t_isActive := default true isActive |}
      else Throw "ValidationError"
  | _, _, _, _ => Throw "ValidationError"
  end.

Definition insert (k : Kind) (t : Transaction) (db : Db) : Db :=
  match k with
  | Income => {| users := users db; incomes := incomes db ++ [t];
                 expenses := expenses db |}
  | Expense => {| users := users db; incomes := incomes db;
                  expenses := expenses db ++ [t] |}
  end.

End Models.


(* ===================================================================== *)
(** ** The controllers and the routes *)
(* ===================================================================== *)
Module Routes.
Import Js Validator EV Store Express.
Import Validation Sanitization Business AuthMw.

(** [handleValidationErrors] of validation.js *)
Definition handleValidationErrors : Middleware :=
  {| mw_name := "handleValidationErrors"; mw_stage := ValidationReport;
     mw_run := fun _ _ r =>
       (match errors r with
        | [] => Next r
        | es => Respond {| status := 400; message := "Datos de entrada inválidos";
                           validationErrors := es |}
        end, []) |}.

(** [createIncome] and [createExpense] of the controllers *)
Definition create (k : Models.Kind) (ok_message : string) : Handler :=
  fun E db r =>
    match errors r with
    | _ :: _ =>
        ({| status := 400; message := "Datos de entrada inválidos";
            validationErrors := errors r |}, db)
    | [] =>
        match user r with
        | None => (server_error, db)
        | Some userId =>
            match Models.create k E userId (body r) with
            | Ok t => (reply 201 ok_message, Models.insert k t db)
            | Throw _ => (server_error, db)
            end
        end
    end.

Definition createIncome : Handler :=
  create Models.Income "Ingreso creado exitosamente".

Definition createExpense : Handler :=
  create Models.Expense "Gasto creado exitosamente".

Definition sanitizer (name : string) (c : Env -> Chain) : Middleware :=
  of_chain name Sanitizer c.

Definition schema (name : string) (c : Env -> Chain) : Middleware :=
  of_chain name Schema c.

(** The stack of [router.post('/', [...], createIncome)] in income.js, in
    the order of the array, by groups. *)
Definition income_guards : list Middleware :=
  [ validateContentType ["application/json"];
    limitDataSize 2048;
    preventInjection ].

Definition income_sanitizers : list Middleware :=
  [ sanitizeInput;
    sanitizer "sanitizeDescription" (fun _ => sanitizeDescription);
    sanitizer "sanitizeNotes" (fun _ => sanitizeNotes);
    sanitizer "sanitizeTags" (fun _ => sanitizeTags);
    sanitizer "sanitizeDate" (fun E => sanitizeDate (dates E)) ]
  ++ List.map (fun c => sanitizer "sanitizeNumericFields" (fun _ => c))
       (sanitizeNumericFields ["amount"])
  ++ List.map (fun c => sanitizer "sanitizeBooleanFields" (fun _ => c))
       (sanitizeBooleanFields ["isRecurring"]).

Definition income_schema : list Middleware :=
  [ schema "transactionValidations.description"
      (fun _ => transactionValidations.description);
    schema "transactionValidations.amount"
      (fun _ => transactionValidations.amount);
    schema "transactionValidations.date"
      (fun E => transactionValidations.date (dates E) (now E));
    schema "transactionValidations.paymentMethod"
      (fun _ => transactionValidations.paymentMethod);
    schema "transactionValidations.notes"
      (fun _ => transactionValidations.notes);
    schema "transactionValidations.tags"
      (fun _ => transactionValidations.tags);
    schema "transactionValidations.tagItem"
      (fun _ => transactionValidations.tagItem);
    schema "incomeValidations.category" (fun _ => incomeValidations.category);
    schema "incomeValidations.isRecurring"
      (fun _ => incomeValidations.isRecurring);
    schema "incomeValidations.recurringFrequency"
      (fun _ => incomeValidations.recurringFrequency) ].

Definition income_rules : list Middleware :=
  [ validateActiveUser;
    validateTransactionLimits;
    validateFinancialConsistency;
    validateUserPlanLimits;
    validateDataIntegrity ].

Definition income_post : list Middleware :=
  income_guards ++ income_sanitizers ++ income_schema ++ income_rules
  ++ [ handleValidationErrors ].

(** The part of the stack in front of the business rules. *)
Definition income_front : list Middleware :=
  income_guards ++ income_sanitizers ++ income_schema.

Definition route_payment_methods : list string :=
  ["efectivo"; "tarjeta"; "transferencia"; "cheque"; "crypto"; "otros"].

Definition route_frequencies : list string :=
  ["semanal"; "quincenal"; "mensual"; "trimestral"; "anual"].

Definition opt (required : bool) (c : Chain) : Chain :=
  if required then c else optional c.

(** The chains written inline in expense.js and in the update route of
    income.js.  [creating] tells the create route, where description,
    amount and category are required, from the update routes. *)
Definition inline_chains (k : Models.Kind) (creating : bool) : list Middleware :=
  [ schema "description"
      (fun _ => opt creating (chain "description"
         [Sanitize trim;
          Validate (isLength 3 (Some 200%nat))
            "La descripción debe tener entre 3 y 200 caracteres"]));
    schema "amount"
      (fun _ => opt creating (chain "amount"
         [Validate (isFloat min_amount max_amount)
            "El monto debe ser un número entre 0.01 y 999,999,999.99"]));
    schema "category"
      (fun _ => opt creating (chain "category"
         [Validate (isIn (Models.categories k)) "Categoría no válida"]));
    schema "date"
      (fun E => optional (chain "date"
         [Validate (isISO8601 (dates E)) "La fecha debe ser válida"]));
    schema "paymentMethod"
      (fun _ => optional (chain "paymentMethod"
         [Validate (isIn route_payment_methods) "Método de pago no válido"]));
    schema "notes"
      (fun _ => optional (chain "notes"
         [Validate (isLength 0 (Some 500%nat))
            "Las notas no pueden exceder 500 caracteres"]));
    schema "isRecurring"
      (fun _ => optional (chain "isRecurring"
         [Validate isBoolean "isRecurring debe ser un booleano"]));
    schema "recurringFrequency"
      (fun _ => optional (chain "recurringFrequency"
         [Validate (isIn route_frequencies) "Frecuencia de recurrencia no válida"]));
    schema "tags"
      (fun _ => optional (chain "tags"
         [ValidateRaw (isArray None) "Los tags deben ser un array"]));
    schema "tags.*"
      (fun _ => each (optional (chain "tags"
         [Validate (isLength 0 (Some 20%nat))
            "Cada tag no puede exceder 20 caracteres"]))) ]
  ++ match k with
     | Models.Income => []
     | Models.Expense =>
         [ schema "isEssential"
             (fun _ => optional (chain "isEssential"
                [Validate isBoolean "isEssential debe ser un booleano"])) ]
     end.

(** [router.post('/', [...], createExpense)] in expense.js *)
Definition expense_post : list Middleware := inline_chains Models.Expense true.

(** [router.put('/:id', [...], updateIncome)] in income.js *)
Definition income_put : list Middleware := inline_chains Models.Income false.

(** [router.put('/:id', [...], updateExpense)] in expense.js *)
Definition expense_put : list Middleware := inline_chains Models.Expense false.

(** The path a router sees when it is mounted with [app.use(mount, router)]:
    the part of the URL after the mount point. *)
Definition relative (mount url : string) : option string :=
  if JsString.prefix mount url then
    match drop (String.length mount) url with
    | EmptyString => Some "/"
    | String "/" _ as rest => Some rest
    | _ => None
    end
  else None.

(** The path pattern ['/'] *)
Definition is_root (p : string) : bool := String.eqb p "/".

(** The path pattern ['/:id'] *)
Definition is_id (p : string) : bool :=
  match p with
  | String "/" id =>
      negb (String.eqb id "") && all_chars (fun c => negb (Ascii.eqb c "/")) id
  | _ => false
  end.

(** A router of transactions: [router.use(authenticateToken)], then the
    create and the update route.  The update handlers are parameters. *)
Definition router (post put : list Middleware) (creator updater : Handler)
    (E : Env) (db : Db) (r : Request) : option Outcome :=
  match method r with
  | POST =>
      if is_root (path r)
      then Some (run_route (authenticateToken :: post) creator E db r)
      else None
  | PUT =>
      if is_id (path r)
      then Some (run_route (authenticateToken :: put) updater E db r)
      else None
  | _ => None
  end.

(** [app.use('/api/incomes', incomeRoutes)] and
    [app.use('/api/expenses', expenseRoutes)]; [path r] is the path of the
    URL.  [None] stands for the routes outside this development. *)
Definition app (updateIncome updateExpense : Handler)
    (E : Env) (db : Db) (r : Request) : option Outcome :=
  match relative "/api/incomes" (path r) with
  | Some p => router income_post income_put createIncome updateIncome
                E db (with_path p r)
  | None =>
      match relative "/api/expenses" (path r) with
      | Some p => router expense_post expense_put createExpense updateExpense
                    E db (with_path p r)
      | None => None
      end
  end.

(** A chain built with [query(...)]: it runs on the query and its errors
    carry that location.  [req.query] is a property of the request that a
    chain may write, as in Express 4. *)
Definition in_query (e : ValidationError) : ValidationError :=
  {| ve_path := ve_path e; ve_msg := ve_msg e; ve_value := ve_value e;
     ve_location := "query" |}.

Definition of_query_chain (name : string) (stage : Stage) (c : Env -> Chain)
  : Middleware :=
  {| mw_name := name; mw_stage := stage;
     mw_run := fun E _ r =>
       (match EV.run (c E) (query r) with
        | Ok (q, es) => Next (add_errors (List.map in_query es) (with_query q r))
        | Throw name => Raise name
        end, []) |}.

(** The stack of [router.get('/', [...], getIncomes)] in income.js. *)
Definition income_list : list Middleware :=
  List.map (fun c => of_query_chain "sanitizeQueryParams" Sanitizer (fun _ => c))
    sanitizeQueryParams
  ++ [ of_query_chain "queryValidations.page" Schema
         (fun _ => queryValidations.page);
       of_query_chain "queryValidations.limit" Schema
         (fun _ => queryValidations.limit);
       of_query_chain "queryValidations.startDate" Schema
         (fun E => queryValidations.startDate (dates E));
       of_query_chain "queryValidations.endDate" Schema
         (fun E => queryValidations.endDate (dates E));
       of_query_chain "queryValidations.sortBy" Schema
         (fun _ => queryValidations.sortBy);
       of_query_chain "queryValidations.sortOrder" Schema
         (fun _ => queryValidations.sortOrder);
       schema "category"
         (fun _ => optional (chain "category"
            [Validate (isIn income_categories) "Categoría no válida"]));
       validateActiveUser;
       handleValidationErrors ].

(** The stack of [router.get('/', [...], getExpenses)] in expense.js: the
    chains only; [getExpenses] does not read their result. *)
Definition expense_list : list Middleware :=
  [ of_query_chain "page" Schema
      (fun _ => optional (chain "page"
         [Validate (isInt (Some (of_Z 1)) None)
            "La página debe ser un número entero mayor a 0"]));
    of_query_chain "limit" Schema
      (fun _ => optional (chain "limit"
         [Validate (isInt (Some (of_Z 1)) (Some (of_Z 100)))
            "El límite debe ser un número entre 1 y 100"]));
    of_query_chain "category" Schema
      (fun _ => optional (chain "category"
         [Validate (isIn expense_categories) "Categoría no válida"]));
    of_query_chain "startDate" Schema
      (fun E => optional (chain "startDate"
         [Validate (isISO8601 (dates E)) "Fecha de inicio debe ser válida"]));
    of_query_chain "endDate" Schema
      (fun E => optional (chain "endDate"
         [Validate (isISO8601 (dates E)) "Fecha de fin debe ser válida"]));
    of_query_chain "sortBy" Schema
      (fun _ => optional (chain "sortBy"
         [Validate (isIn ["date"; "amount"; "description"])
            "Campo de ordenamiento no válido"]));
    of_query_chain "sortOrder" Schema
      (fun _ => optional (chain "sortOrder"
         [Validate (isIn ["asc"; "desc"]) "Orden de clasificación no válido"]));
    of_query_chain "isEssential" Schema
      (fun _ => optional (chain "isEssential"
         [Validate isBoolean "isEssential debe ser un valor booleano"])) ].

End Routes.

(* ===================================================================== *)
(** ** A host for the examples: UTC dates in the ISO format *)
(* ===================================================================== *)
Module Utc.
Import Js.

Definition ms_per_day : Z := 86400000.

(** Days from 1970-01-01 of a civil date. *)
Definition days_from_civil (y m d : Z) : Z :=
  let y' := if m <=? 2 then y - 1 else y in
  let era := y' / 400 in
  let yoe := y' - era * 400 in
  let mp := (m + 9) mod 12 in
  let doy := (153 * mp + 2) / 5 + d - 1 in
  let doe := yoe * 365 + yoe / 4 - yoe / 100 + doy in
  era * 146097 + doe - 719468.

Definition civil_from_days (z0 : Z) : Z * Z * Z :=
  let z := z0 + 719468 in
  let era := z / 146097 in
  let doe := z - era * 146097 in
  let yoe := (doe - doe / 1460 + doe / 36524 - doe / 146096) / 365 in
  let doy := doe - (365 * yoe + yoe / 4 - yoe / 100) in
  let mp := (5 * doy + 2) / 153 in
  let d := doy - (153 * mp + 2) / 5 + 1 in
  let m := if mp <? 10 then mp + 3 else mp - 9 in
  let y := yoe + era * 400 in
  (if m <=? 2 then y + 1 else y, m, d).

Definition pad (width : nat) (z : Z) : string :=
  let s := show_N (Z.to_N z) in
  repeat0 (width - String.length s) ++ s.

(** Digits [n] of [s] from position [i], as a number. *)
Definition field (i n : nat) (s : string) : option Z :=
  let f := take n (drop i s) in
  if Nat.eqb (String.length f) n && all_chars is_digit f then Some (val f) else None.

Definition char_at (i : nat) (s : string) : string := take 1 (drop i s).

(** [YYYY-MM-DD], alone or followed by [THH:mm:ss.sssZ]. *)
Definition parse (s : string) : option Z :=
  y ← field 0 4 s; m ← field 5 2 s; d ← field 8 2 s;
  if negb (String.eqb (char_at 4 s) "-" && String.eqb (char_at 7 s) "-"
           && (1 <=? m) && (m <=? 12) && (1 <=? d) && (d <=? 31))
  then None
  else
    let day := days_from_civil y m d * ms_per_day in
    if Nat.eqb (String.length s) 10 then Some day
    else
      h ← field 11 2 s; mi ← field 14 2 s; sec ← field 17 2 s; ms ← field 20 3 s;
      if String.eqb (char_at 10 s) "T" && String.eqb (char_at 13 s) ":"
         && String.eqb (char_at 16 s) ":" && String.eqb (char_at 19 s) "."
         && String.eqb (drop 23 s) "Z"
         && (h <? 24) && (mi <? 60) && (sec <? 60)
      then Some (day + ((h * 60 + mi) * 60 + sec) * 1000 + ms)
      else None.

Definition toISOString (t : Z) : string :=
  let '(y, m, d) := civil_from_days (t / ms_per_day) in
  let r := t mod ms_per_day in
  pad 4 y ++ "-" ++ pad 2 m ++ "-" ++ pad 2 d ++ "T"
  ++ pad 2 (r / 3600000) ++ ":" ++ pad 2 (r / 60000 mod 60) ++ ":"
  ++ pad 2 (r / 1000 mod 60) ++ "." ++ pad 3 (r mod 1000) ++ "Z".

Definition addYears (t k : Z) : Z :=
  let '(y, m, d) := civil_from_days (t / ms_per_day) in
  days_from_civil (y + k) m d * ms_per_day.

Definition host : DateEnv :=
  {| date_parse := parse;
     date_toISOString := toISOString;
     date_startOfDay := fun t => t / ms_per_day * ms_per_day;
     date_nextDay := fun t => t + ms_per_day;
     date_addYears := addYears;
     isISO8601 := fun s => bool_decide (is_Some (parse s)) |}.

End Utc.


(* ===================================================================== *)
(** ** Requests and stores used in the examples *)
(* ===================================================================== *)
Module Fixtures.
Import Js EV Store Express Routes.

(** 2024-01-15T10:30:00.123Z *)
Definition E0 : Env :=
  {| dates := Utc.host; now := 1705314600123; dangerous := fun _ => false |}.

Definition alice : User :=
  {| u_id := 1; u_name := "Alice"; u_email := "alice@example.com";
     u_role := "user"; u_isActive := true; u_lastLogin := Some 1705000000000;
     u_currency := "USD"; u_language := "es" |}.

(** A deactivated account. *)
Definition bob : User :=
  {| u_id := 2; u_name := "Bob"; u_email := "bob@example.com";
     u_role := "user"; u_isActive := false; u_lastLogin := Some 1705000000000;
     u_currency := "USD"; u_language := "es" |}.

Definition db0 : Db := {| users := [alice; bob]; incomes := []; expenses := [] |}.

Definition salary (user : Z) (day : Z) : Transaction :=
  {| t_user := user; t_description := "Salario"; t_amount := Fin 2500 0;
     t_category := "salario"; t_date := day; t_paymentMethod := "transferencia";
     t_notes := None; t_isRecurring := false; t_recurringFrequency := None;
     t_tags := []; t_isEssential := false; t_isActive := true |}.

(** A store where the principal [user] has [n] incomes on 2024-01-15. *)
Definition db_with (user : Z) (n : nat) : Db :=
  {| users := [alice; bob];
     incomes := List.map (fun i => salary user (1705276800000 + Z.of_nat i)) (seq 0 n);
     expenses := [] |}.

(** The draft of the scenarios, and the same with a payment method. *)
Definition bare_draft : object :=
  list_to_map [("description", JStr "Test"); ("amount", JNum (Fin 100 0));
               ("category", JStr "salario"); ("date", JStr "2024-01-15")].

Definition draft : object := <["paymentMethod" := JStr "efectivo"]> bare_draft.

Definition expense_draft : object :=
  list_to_map [("description", JStr "Mercado"); ("amount", JNum (Fin 4550 2));
               ("category", JStr "alimentacion"); ("date", JStr "2024-01-15")].

Definition request (m : Method) (url : string) (principal : Z) (b q : object)
  : Request :=
  {| method := m; path := url; token := Some principal;
     content_type := Some "application/json"; content_length := Some 160;
     body := b; query := q; user := None; errors := [] |}.

Definition post_income (principal : Z) (b : object) : Request :=
  request POST "/api/incomes" principal b ∅.

Definition post_expense (principal : Z) (b : object) : Request :=
  request POST "/api/expenses" principal b ∅.

(** An update handler for the examples; the theorems hold for any. *)
Definition no_update : Handler := fun _ db _ => (reply 200 "actualizado", db).

Definition serve : Env -> Db -> Request -> option Outcome :=
  app no_update no_update.

End Fixtures.

(* ===================================================================== *)
(** * Properties *)
(* ===================================================================== *)

Import Js Validator EV Store Express AuthMw Sanitization Validation Business Routes.

(** ** Predicates of the statements *)

(** The stages of the stack that creates an income, in the order of the
    route. *)
Definition income_create_stages : list Stage :=
  [Auth; ContentGuard; ContentGuard; InjectionGuard]
  ++ List.repeat Sanitizer 7 ++ List.repeat Schema 10
  ++ List.repeat BusinessRule 5 ++ [ValidationReport].

(** A POST under the mount point of the incomes. *)
Definition is_income_create (r : Request) : bool :=
  match method r, relative "/api/incomes" (path r) with
  | POST, Some _ => true
  | _, _ => false
  end.

(** [keeps P m]: when [m] calls [next()], it hands on a request in [P]. *)
Definition keeps (P : Request -> Prop) (m : Middleware) : Prop :=
  forall E db r r' rd, P r -> mw_run m E db r = (Next r', rd) -> P r'.

(** [answers Q m]: every response of [m] is in [Q]. *)
Definition answers (Q : Response -> Prop) (m : Middleware) : Prop :=
  forall E db r resp rd, mw_run m E db r = (Respond resp, rd) -> Q resp.

(** [never_raises m]: [m] throws nothing past itself. *)
Definition never_raises (m : Middleware) : Prop :=
  forall E db r name rd, mw_run m E db r <> (Raise name, rd).

(** The characters that [escape] and [stripLow(true)] leave alone. *)
Definition plain_char (c : ascii) : bool :=
  String.eqb (replace_char c) (String c EmptyString) && negb (is_low true c).

(** A string of such characters. *)
Definition plain (s : string) : bool := all_chars plain_char s.

(** A standard sanitizer on a value: on each element of an array, else on
    the value, always through the string form. *)
Definition smap (f : string -> string) (v : JsVal) : JsVal :=
  match v with
  | JArr l => JArr (List.map (fun x => JStr (f (EV.toString x))) l)
  | _ => JStr (f (EV.toString v))
  end.

(** The value a step of a chain leaves in the field. *)
Definition item_value (it : Item) (v : JsVal) : Exc JsVal :=
  match it with
  | Sanitize f => Ok (smap f v)
  | CustomSanitizer f => f v
  | _ => Ok v
  end.

(** The value a chain on one field leaves there. *)
Fixpoint chain_value (c : Chain) (items : list Item) (v : JsVal) : Exc JsVal :=
  match items with
  | [] => Ok v
  | it :: rest =>
      v' <- (if skipped c v then Ok v else item_value it v) ;;
      chain_value c rest v'
  end.

(** [None] for [undefined]: how [set] stores a value. *)
Definition stored (v : JsVal) : option JsVal :=
  match v with JUndefined => None | _ => Some v end.

(** The string forms a text sanitizer works on are plain. *)
Definition text_plain (v : JsVal) : bool :=
  forallb (fun x => plain (EV.toString x)) (EV.values v).

(** The host prints the date of [v] in a form that it reads back. *)
Definition date_round_trip (D : DateEnv) (v : JsVal) : Prop :=
  match new_Date D v with
  | Some t =>
      let s := date_toISOString D t in
      trim s = s /\ s <> EmptyString /\ date_parse D s = Some t
  | None => True
  end.

(** The three sanitizers of [description] and [notes] on a string. *)
Definition clean_text (s : string) : string := stripLow true (escape (trim s)).


(** A stack with the middleware of a given name taken out. *)
Definition without (name : string) (mws : list Middleware) : list Middleware :=
  List.filter (fun m => negb (String.eqb (mw_name m) name)) mws.

(** [t] does not begin with a digit. *)
Definition no_digit_head (t : string) : bool :=
  match t with
  | EmptyString => true
  | String c _ => negb (is_digit c)
  end.

(** The fraction of a literal: a point and digits, or nothing. *)
Definition frac_part (fp : string) : string :=
  match fp with
  | EmptyString => EmptyString
  | _ => String "." fp
  end.

(** The exponent [n] of ECMA-262 for [m / 10^k]. *)
Definition point (m : N) (k : nat) : Z :=
  Z.of_nat (String.length (show_N m)) - Z.of_nat k.

(** A number that is not negative. *)
Definition nonneg (x : number) : Prop :=
  match x with
  | NaN => True
  | Inf s => s = false
  | Fin m _ => 0 <= m
  end.

(** The two steps of the chain of [amount] on one value: [isFloat] on its
    string, and the custom check of the decimals. *)
Definition amount_accepts (v : JsVal) : bool :=
  isFloat min_amount max_amount (EV.toString v)
  && match amount_decimals v ∅ with None => true | Some _ => false end.

(** A whole number of cents between 0.01 and 999999999.99. *)
Definition cents (n : number) : Prop :=
  exists c : Z, 1 <= c <= 99999999999 /\ eqb n (Fin c 2) = true.

(** The same on the normalized fraction [m' / 10^k']. *)
Definition cents_normal (m' : Z) (k' : nat) : Prop :=
  1 <= m' /\ (k' <= 2)%nat /\ m' * 100 <= 99999999999 * pow10 k'.

(** The custom check on the string of the value. *)
Definition decimals_ok (s : string) : bool :=
  match split "." s with
  | _ :: f :: _ => negb (negb (String.eqb f "") && Nat.ltb 2 (String.length f))
  | _ => true
  end.


(** A value that is no string. *)
Definition not_a_string (v : JsVal) : Prop := forall s, v <> JStr s.

(** The steps that validate and sanitize nothing. *)
Definition validator (it : Item) : bool :=
  match it with
  | Validate _ _ | ValidateRaw _ _ | Custom _ => true
  | _ => false
  end.

(** A list request with a limit, a page and a sort field out of range. *)
Definition list_incomes : Request :=
  Fixtures.request GET "/" 1 ∅
    (list_to_map [("limit", JStr "5000"); ("page", JStr "abc");
                  ("sortBy", JStr "user")]).

(** The steps that sanitize and validate nothing. *)
Definition sanitizer_item (it : Item) : bool :=
  match it with
  | Sanitize _ | CustomSanitizer _ => true
  | _ => false
  end.

(** The characters of markup that [escape] replaces, the ampersand apart:
    the two quotes, the slash, the angle brackets, the backslash and the
    backtick. *)
Definition markup (c : ascii) : bool :=
  existsb (N.eqb (code c)) [34; 39; 47; 60; 62; 92; 96]%N.

(** Neither markup nor a control character that [stripLow(true)] removes. *)
Definition clean_char (c : ascii) : bool := negb (markup c) && negb (is_low true c).

(** A string, or an array of strings, of such characters. *)
Definition text_clean (v : JsVal) : bool :=
  forallb (fun x => match x with
                    | JStr s => all_chars clean_char s
                    | _ => false
                    end) (EV.values v).

(** What [sanitizeTags] leaves of the tags that are strings, arrays,
    numbers, booleans or null: a string that is left is not empty, trimmed
    and in lower case, an array that is left is not empty, and no number,
    boolean, [null] or [undefined] is left. *)
Definition tag_clean (x : JsVal) : Prop :=
  (forall s, x = JStr s -> s <> EmptyString /\ trim s = s /\ toLowerCase s = s)
  /\ (forall a, x = JArr a -> a <> [])
  /\ (forall n, x <> JNum n) /\ (forall q, x <> JBool q)
  /\ x <> JNull /\ x <> JUndefined.

(** The values the four sanitizers of the query give. *)
Definition page_ok (v : JsVal) : Prop :=
  exists n, v = JNum n /\ geb n (of_Z 1) = true.

Definition limit_ok (v : JsVal) : Prop :=
  exists z, v = JNum (Fin z 0) /\ 1 <= z <= 100.

Definition sort_ok (v : JsVal) : Prop :=
  exists s, v = JStr s /\ mem s sort_fields = true.

Definition order_ok (v : JsVal) : Prop := v = JStr "asc" \/ v = JStr "desc".

(** What the handler of a list request may rely on. *)
Definition query_bounded (q : object) : Prop :=
  page_ok (get q "page") /\ limit_ok (get q "limit")
  /\ sort_ok (get q "sortBy") /\ order_ok (get q "sortOrder").

(** A list request with a start date that is none. *)
Definition list_incomes_since_yesterday : Request :=
  Fixtures.request GET "/" 1 ∅
    (list_to_map [("limit", JStr "5000"); ("startDate", JStr "ayer")]).

(** The fields a list request of the incomes can be rejected for. *)
Definition list_fields : list string := ["page"; "startDate"; "endDate"; "category"].

Definition about (fields : list string) (es : list ValidationError) : Prop :=
  List.Forall (fun e => In (ve_path e) fields) es.

Definition list_state (x : Request) : Prop :=
  query_bounded (query x) /\ about list_fields (errors x).

(** The middlewares of the list route after the sanitizers and before the
    report. *)
Definition income_list_checks : list Middleware :=
  [ of_query_chain "queryValidations.page" Schema (fun _ => queryValidations.page);
    of_query_chain "queryValidations.limit" Schema (fun _ => queryValidations.limit);
    of_query_chain "queryValidations.startDate" Schema
      (fun E => queryValidations.startDate (dates E));
    of_query_chain "queryValidations.endDate" Schema
      (fun E => queryValidations.endDate (dates E));
    of_query_chain "queryValidations.sortBy" Schema (fun _ => queryValidations.sortBy);
    of_query_chain "queryValidations.sortOrder" Schema
      (fun _ => queryValidations.sortOrder);
    schema "category"
      (fun _ => optional (chain "category"
         [Validate (isIn income_categories) "Categoría no válida"]));
    validateActiveUser ].

(** [same_query r r']: the handler reads from [r'] what it would from [r]. *)
Definition same_query (r r' : Request) : Prop :=
  (forall k, get (query r') k = get (query r) k)
  /\ body r' = body r /\ user r' = user r.

(** An expense with markup in its description. *)
Definition expense_with_markup : Request :=
  Fixtures.post_expense 1
    (<["description" := JStr " <b>Mercado</b> "]> Fixtures.expense_draft).

(** Notes that are absent, or text without markup. *)
Definition notes_clean (v : JsVal) : Prop := v = JUndefined \/ text_clean v = true.


(** ** Running a stack *)

Lemma stages_reads (rd : list Collection) : stages (List.map Read rd) = [].
Proof. induction rd; simpl; auto. Qed.

Lemma stages_app (t1 t2 : list Event) : stages (t1 ++ t2) = stages t1 ++ stages t2.
Proof. unfold stages. apply omap_app. Qed.

Lemma names_app (t1 t2 : list Event) : names (t1 ++ t2) = names t1 ++ names t2.
Proof. unfold names. apply omap_app. Qed.

Lemma names_reads (rd : list Collection) : names (List.map Read rd) = [].
Proof. induction rd; simpl; auto. Qed.

Lemma handled_reads (rd : list Collection) : handled (List.map Read rd) = false.
Proof. induction rd; simpl; auto. Qed.

Lemma handled_app (t1 t2 : list Event) :
  handled (t1 ++ t2) = handled t1 || handled t2.
Proof. unfold handled. apply existsb_app. Qed.

Lemma run_stack_app (l1 l2 : list Middleware) E db r :
  run_stack (l1 ++ l2) E db r =
  match run_stack l1 E db r with
  | (Next r', t) => let '(s, t') := run_stack l2 E db r' in (s, t ++ t')
  | other => other
  end.
Proof.
  revert r. induction l1 as [|m l1 IH]; intros r; simpl.
  - destruct (run_stack l2 E db r); reflexivity.
  - destruct (mw_run m E db r) as [step rd]. destruct step as [r'| |]; try reflexivity.
    rewrite IH. destruct (run_stack l1 E db r') as [s t].
    destruct s as [r''| |]; try reflexivity.
    destruct (run_stack l2 E db r'') as [s' t']. simpl. now rewrite app_assoc.
Qed.

(** The stages a request went through are an initial part of the stages of
    the stack, all of them when every middleware called [next()]. *)
Lemma run_stack_stages (mws : list Middleware) E db r :
  stages (snd (run_stack mws E db r)) `prefix_of` List.map mw_stage mws
  /\ (forall r', fst (run_stack mws E db r) = Next r' ->
       stages (snd (run_stack mws E db r)) = List.map mw_stage mws)
  /\ handled (snd (run_stack mws E db r)) = false.
Proof.
  revert r. induction mws as [|m mws IH]; intros r; simpl.
  - split; [apply prefix_nil | auto].
  - destruct (mw_run m E db r) as [step rd].
    assert (Hhere : forall t, stages (Entered (mw_name m) (mw_stage m)
                     :: (List.map Read rd ++ t)) = mw_stage m :: stages t).
    { intros t. change (stages ([Entered (mw_name m) (mw_stage m)]
                                  ++ (List.map Read rd ++ t)) = mw_stage m :: stages t).
      rewrite !stages_app, stages_reads. reflexivity. }
    assert (Hh : forall t, handled (Entered (mw_name m) (mw_stage m)
                     :: (List.map Read rd ++ t)) = handled t).
    { intros t. change (handled ([Entered (mw_name m) (mw_stage m)]
                                  ++ (List.map Read rd ++ t)) = handled t).
      rewrite !handled_app, handled_reads. reflexivity. }
    specialize (Hhere []). specialize (Hh []). rewrite app_nil_r in Hhere, Hh.
    destruct step as [r'| |]; cbn [fst snd].
    + specialize (IH r'). destruct (run_stack mws E db r') as [s t].
      cbn [fst snd] in *. destruct IH as (IH1 & IH2 & IH3).
      change (Entered (mw_name m) (mw_stage m) :: (List.map Read rd ++ t))
        with ([Entered (mw_name m) (mw_stage m)] ++ (List.map Read rd ++ t)).
      rewrite !stages_app, !handled_app, stages_reads, handled_reads. simpl.
      repeat split; auto.
      * now apply prefix_cons.
      * intros r'' ->. f_equal. eauto.
    + rewrite Hhere, Hh. repeat split; auto; [|discriminate].
      apply prefix_cons, prefix_nil.
    + rewrite Hhere, Hh. repeat split; auto; [|discriminate].
      apply prefix_cons, prefix_nil.
Qed.

Lemma run_route_stages (mws : list Middleware) (h : Handler) E db r :
  let o := run_route mws h E db r in
  stages (trace o) `prefix_of` List.map mw_stage mws
  /\ (handled (trace o) = true -> stages (trace o) = List.map mw_stage mws).
Proof.
  unfold run_route. pose proof (run_stack_stages mws E db r) as (H1 & H2 & H3).
  destruct (run_stack mws E db r) as [s t]. simpl in *.
  destruct s as [r'|resp|name]; simpl.
  - destruct (h E db r') as [resp db']. simpl.
    rewrite stages_app, app_nil_r. split; auto. intros _. eauto.
  - split; auto. congruence.
  - split; auto. congruence.
Qed.

(** ** The order of the stages (C2) *)

Lemma inline_stages k c :
  Forall (fun s => s = Auth \/ s = Schema) (List.map mw_stage (inline_chains k c)).
Proof. destruct k; cbn; repeat (constructor; [now right|]); constructor. Qed.

Lemma Forall_prefix {A} (P : A -> Prop) (l1 l2 : list A) :
  l1 `prefix_of` l2 -> Forall P l2 -> Forall P l1.
Proof. intros [k ->] H. now apply Forall_app in H. Qed.

(** C2, as the code has it.  A request that creates an income goes through
    authentication, the two content guards, the injection guard, the seven
    sanitizers, the ten schema chains, the five business rules and the
    validation report, in that order, and reaches the handler only after all
    of them; a request that updates an income, or creates or updates an
    expense, goes through authentication and schema chains only. *)
Theorem C2_stages_in_route_order (updateIncome updateExpense : Handler)
    (E : Env) (db : Db) (r : Request) (o : Outcome) :
  app updateIncome updateExpense E db r = Some o ->
  if is_income_create r then
    stages (trace o) `prefix_of` income_create_stages
    /\ (handled (trace o) = true -> stages (trace o) = income_create_stages)
  else Forall (fun s => s = Auth \/ s = Schema) (stages (trace o)).
Proof.
  unfold app, is_income_create, router. intros H.
  destruct (relative "/api/incomes" (path r)) as [p|] eqn:Hi.
  - cbn [method path with_path] in H. destruct (method r); try discriminate.
    + destruct (is_root p); [|discriminate]. injection H as <-.
      apply (run_route_stages (authenticateToken :: income_post)).
    + destruct (is_id p); [|discriminate]. injection H as <-.
      eapply Forall_prefix;
        [apply (run_route_stages (authenticateToken :: income_put))|].
      constructor; [now left | apply inline_stages].
  - assert (Hgoal : Forall (fun s => s = Auth \/ s = Schema) (stages (trace o))).
    { destruct (relative "/api/expenses" (path r)) as [p|]; [|discriminate].
      cbn [method path with_path] in H. destruct (method r); try discriminate.
      + destruct (is_root p); [|discriminate]. injection H as <-.
        eapply Forall_prefix;
          [apply (run_route_stages (authenticateToken :: expense_post))|].
        constructor; [now left | apply inline_stages].
      + destruct (is_id p); [|discriminate]. injection H as <-.
        eapply Forall_prefix;
          [apply (run_route_stages (authenticateToken :: expense_put))|].
        constructor; [now left | apply inline_stages]. }
    destruct (method r); exact Hgoal.
Qed.

Lemma C2_stages_in_route_order_witness :
  exists o, Fixtures.serve Fixtures.E0 Fixtures.db0
              (Fixtures.post_income 1 Fixtures.draft) = Some o
            /\ stages (trace o) = income_create_stages.
Proof.
  eexists. split; [reflexivity|].
  pose proof (C2_stages_in_route_order Fixtures.no_update Fixtures.no_update
                Fixtures.E0 Fixtures.db0 (Fixtures.post_income 1 Fixtures.draft)
                _ eq_refl) as H.
  apply H. vm_compute. reflexivity.
Defined.

(** C2 fails on the expense routes: a request that creates an expense
    reaches the handler, which stores the expense, after authentication and
    the eleven schema chains alone; no guard, sanitizer or business rule
    ran. *)
Lemma C2_counterexample :
  exists o, Fixtures.serve Fixtures.E0 Fixtures.db0
              (Fixtures.post_expense 1 Fixtures.expense_draft) = Some o
            /\ status (response o) = 201
            /\ handled (trace o) = true
            /\ stages (trace o) = Auth :: List.repeat Schema 11.
Proof. eexists. split; [reflexivity|]. vm_compute. repeat split. Qed.

(** ** The sanitizer can end the request (C9) *)

(** C9 fails on the code.  A request that creates an income with the query
    parameter [ref=abc] and no field [ref] in its body makes [sanitizeInput]
    throw: the loop over the query reads [req.body[key]], not
    [req.query[key]].  The error handler answers 500 and no later stage
    runs. *)
Theorem C9_sanitizeInput_throws_on_query_parameter :
  let r := Fixtures.request POST "/api/incomes" 1 Fixtures.draft
             {[ "ref" := JStr "abc" ]} in
  fst (mw_run sanitizeInput Fixtures.E0 Fixtures.db0 r) = Raise "TypeError"
  /\ exists o, Fixtures.serve Fixtures.E0 Fixtures.db0 r = Some o
               /\ status (response o) = 500
               /\ last (names (trace o)) = Some "sanitizeInput"
               /\ handled (trace o) = false.
Proof.
  split; [vm_compute; reflexivity|].
  eexists. split; [reflexivity|]. vm_compute. repeat split.
Qed.

(** The same stage throws on a tag that is [null]. *)
Lemma sanitizeTags_throws_on_null_tag :
  EV.run sanitizeTags (<["tags" := JArr [JStr "a"; JNull]]> Fixtures.draft)
  = Throw "TypeError".
Proof. vm_compute. reflexivity. Qed.

(** ** The frequency of a recurring transaction (C4) *)

(** An optional chain does nothing on a field that is absent. *)
Lemma optional_chain_skips_absent (c : Chain) (b : object) :
  ch_optional c = true -> ch_wildcard c = false -> b !! ch_field c = None ->
  EV.run c b = Ok (b, []).
Proof.
  intros Ho Hw Hb. unfold EV.run, select. rewrite Hw.
  unfold get. rewrite Hb. cbn [default].
  generalize (ch_items c). intros items. induction items as [|it items IH].
  - reflexivity.
  - cbn [run_items item_on_instances]. unfold skipped. rewrite Ho. cbn.
    unfold write_back. rewrite Hw. cbn [set].
    rewrite (delete_id b (ch_field c) Hb).
    cbn in IH. unfold write_back in IH. now rewrite IH.
Qed.

(** C4 fails on the code.  For a draft with [isRecurring = true] and no
    [recurringFrequency] the chains of [recurringFrequency] report nothing:
    they are optional and skip the custom validator on an absent field.  The
    whole route finds no schema error; the request reaches the handler and
    fails there on the model (500). *)
Theorem C4_absent_frequency_passes_schema :
  let b := <["isRecurring" := JBool true]> Fixtures.draft in
  EV.run incomeValidations.recurringFrequency b = Ok (b, [])
  /\ EV.run expenseValidations.recurringFrequency b = Ok (b, [])
  /\ exists o, Fixtures.serve Fixtures.E0 Fixtures.db0 (Fixtures.post_income 1 b)
               = Some o
               /\ handled (trace o) = true
               /\ validationErrors (response o) = []
               /\ status (response o) = 500.
Proof.
  repeat split; try (vm_compute; reflexivity).
  eexists. split; [reflexivity|]. vm_compute. repeat split.
Qed.

(** For every draft without [recurringFrequency] the chain reports nothing,
    whatever [isRecurring] holds. *)
Lemma absent_frequency_never_reported (b : object) :
  b !! "recurringFrequency" = None ->
  EV.run incomeValidations.recurringFrequency b = Ok (b, [])
  /\ EV.run expenseValidations.recurringFrequency b = Ok (b, []).
Proof.
  intros H. split; apply optional_chain_skips_absent; auto.
Qed.

(** With [isRecurring = false] a frequency is not required: the custom
    validator accepts every value. *)
Lemma frequency_not_required_when_not_recurring (b : object) (v : JsVal) :
  truthy (get b "isRecurring") = false -> frequency_required v b = None.
Proof. intros H. unfold frequency_required. now rewrite H. Qed.

(** ** Invariants of a stack *)

Lemma run_stack_keeps (P : Request -> Prop) (mws : list Middleware) :
  Forall (keeps P) mws ->
  forall E db r r' t, P r -> run_stack mws E db r = (Next r', t) -> P r'.
Proof.
  induction 1 as [|m mws Hm _ IH]; intros E db r r' t HP H; simpl in H.
  - now injection H as <- _.
  - destruct (mw_run m E db r) as [step rd] eqn:Hrun.
    destruct step as [r1| |]; try discriminate.
    destruct (run_stack mws E db r1) as [s t1] eqn:Hrest.
    injection H as -> _. eapply IH; [|exact Hrest]. eapply Hm; eauto.
Qed.

Lemma run_stack_answers (Q : Response -> Prop) (mws : list Middleware) :
  Forall (answers Q) mws ->
  forall E db r resp t, run_stack mws E db r = (Respond resp, t) -> Q resp.
Proof.
  induction 1 as [|m mws Hm _ IH]; intros E db r resp t H; simpl in H.
  - discriminate.
  - destruct (mw_run m E db r) as [step rd] eqn:Hrun.
    destruct step as [r1|resp1|].
    + destruct (run_stack mws E db r1) as [s t1] eqn:Hrest.
      injection H as -> _. eapply IH; exact Hrest.
    + injection H as <- _. eapply Hm; eauto.
    + discriminate.
Qed.

Lemma run_stack_names (mws : list Middleware) E db r :
  names (snd (run_stack mws E db r)) `prefix_of` List.map mw_name mws.
Proof.
  revert r. induction mws as [|m mws IH]; intros r; simpl.
  - apply prefix_nil.
  - destruct (mw_run m E db r) as [step rd].
    assert (Hhere : forall t, names (Entered (mw_name m) (mw_stage m)
                     :: (List.map Read rd ++ t)) = mw_name m :: names t).
    { intros t. change (names ([Entered (mw_name m) (mw_stage m)]
                                 ++ (List.map Read rd ++ t)) = mw_name m :: names t).
      rewrite !names_app, names_reads. reflexivity. }
    destruct step as [r'| |]; cbn [snd].
    + specialize (IH r'). destruct (run_stack mws E db r') as [s t]. cbn [snd] in *.
      rewrite Hhere. now apply prefix_cons.
    + specialize (Hhere []). rewrite app_nil_r in Hhere. rewrite Hhere.
      apply prefix_cons, prefix_nil.
    + specialize (Hhere []). rewrite app_nil_r in Hhere. rewrite Hhere.
      apply prefix_cons, prefix_nil.
Qed.

(** *** The steps of the middleware of the routes *)

Lemma of_chain_next name stage c E db r r' rd :
  mw_run (of_chain name stage c) E db r = (Next r', rd) ->
  exists b es, EV.run (c E) (body r) = Ok (b, es)
               /\ r' = add_errors es (with_body b r) /\ rd = [].
Proof.
  cbn [mw_run of_chain]. destruct (EV.run (c E) (body r)) as [[b es]|e]; intros H.
  - injection H as <- <-. eauto.
  - discriminate.
Qed.

Lemma of_chain_answers Q name stage c : answers Q (of_chain name stage c).
Proof.
  intros E db r resp rd. cbn [mw_run of_chain].
  destruct (EV.run (c E) (body r)) as [[b es]|e]; discriminate.
Qed.

Lemma of_chain_keeps (P : Request -> Prop) name stage c :
  (forall r b es, P r -> P (add_errors es (with_body b r))) ->
  keeps P (of_chain name stage c).
Proof.
  intros HP E db r r' rd Hr H. apply of_chain_next in H as (b & es & _ & -> & _).
  now apply HP.
Qed.

Lemma guard_next (m : Middleware) E db r r' rd :
  In m income_guards -> mw_run m E db r = (Next r', rd) -> r' = r /\ rd = [].
Proof.
  intros [<-|[<-|[<-|[]]]]; cbn [mw_run validateContentType limitDataSize preventInjection];
    intros H;
    repeat match type of H with
           | context [match ?x with _ => _ end] => destruct x
           end; try discriminate; injection H as <- <-; auto.
Qed.

Lemma sanitizeInput_next E db r r' rd :
  mw_run sanitizeInput E db r = (Next r', rd) ->
  exists q, sanitize_query (sanitize_body (body r)) (query r) = Ok q
            /\ r' = with_query q (with_body (sanitize_body (body r)) r) /\ rd = [].
Proof.
  cbn [mw_run sanitizeInput].
  destruct (sanitize_query (sanitize_body (body r)) (query r)) as [q|e]; intros H.
  - injection H as <- <-. eauto.
  - discriminate.
Qed.

(** A business rule hands on the request it received. *)
Lemma rule_next (m : Middleware) E db r r' rd :
  In m income_rules -> mw_run m E db r = (Next r', rd) -> r' = r.
Proof.
  intros [<-|[<-|[<-|[<-|[<-|[]]]]]];
    cbn [mw_run validateActiveUser validateTransactionLimits
           validateFinancialConsistency validateUserPlanLimits validateDataIntegrity];
    intros H;
    repeat match type of H with
           | context [match ?x with _ => _ end] => destruct x
           | context [if ?x then _ else _] => destruct x
           end; try discriminate; injection H as <- _; auto.
Qed.

(** A business rule answers with an error and without validation errors. *)
Lemma rule_answers (m : Middleware) :
  In m income_rules ->
  answers (fun resp => validationErrors resp = []
                       /\ In (status resp) [400; 401; 403; 404; 409; 429; 500]) m.
Proof.
  intros [<-|[<-|[<-|[<-|[<-|[]]]]]] E db r resp rd;
    cbn [mw_run validateActiveUser validateTransactionLimits
           validateFinancialConsistency validateUserPlanLimits validateDataIntegrity];
    intros H;
    repeat match type of H with
           | context [match ?x with _ => _ end] => destruct x
           | context [if ?x then _ else _] => destruct x
           end; try discriminate; injection H as <- _; cbn; intuition auto.
Qed.

Lemma front_list :
  income_front =
  income_guards ++ sanitizeInput ::
    [ sanitizer "sanitizeDescription" (fun _ => sanitizeDescription);
      sanitizer "sanitizeNotes" (fun _ => sanitizeNotes);
      sanitizer "sanitizeTags" (fun _ => sanitizeTags);
      sanitizer "sanitizeDate" (fun E => sanitizeDate (dates E));
      sanitizer "sanitizeNumericFields"
        (fun _ => chain "amount" [CustomSanitizer to_number]);
      sanitizer "sanitizeBooleanFields"
        (fun _ => chain "isRecurring" [CustomSanitizer to_boolean]) ]
    ++ income_schema.
Proof. reflexivity. Qed.

(** Every middleware in front of the business rules leaves alone what a
    predicate on the principal, the path and the method sees. *)
Lemma front_keeps (P : Request -> Prop) :
  (forall r b es, P r -> P (add_errors es (with_body b r))) ->
  (forall r q b, P r -> P (with_query q (with_body b r))) ->
  Forall (keeps P) income_front.
Proof.
  intros H1 H2. rewrite front_list. apply Forall_app. split.
  - apply List.Forall_forall. intros m Hm E db r r' rd HP H.
    apply guard_next in H as [-> _]; auto.
  - constructor.
    + intros E db r r' rd HP H. apply sanitizeInput_next in H as (q & _ & -> & _).
      now apply H2.
    + unfold income_schema.
      repeat (constructor; [now apply of_chain_keeps|]). constructor.
Qed.

Lemma front_answers :
  Forall (answers (fun resp => validationErrors resp = []
                               /\ In (status resp) [400; 413; 415])) income_front.
Proof.
  rewrite front_list. apply Forall_app. split.
  - unfold income_guards.
    repeat (constructor;
            [intros E db r resp rd;
             cbn [mw_run validateContentType limitDataSize preventInjection];
             intros H;
             repeat match type of H with
                    | context [match ?x with _ => _ end] => destruct x
                    end; try discriminate; injection H as <- _; cbn; intuition auto|]).
    constructor.
  - constructor.
    + intros E db r resp rd. cbn [mw_run sanitizeInput].
      destruct (sanitize_query _ _); discriminate.
    + unfold income_schema.
      repeat (constructor; [now apply of_chain_answers|]). constructor.
Qed.

(** ** The account check comes first (C5) *)

Lemma income_post_split :
  authenticateToken :: income_post =
  (authenticateToken :: income_front) ++ income_rules ++ [handleValidationErrors].
Proof. reflexivity. Qed.

Lemma findById_id db id u : findById db id = Some u -> u_id u = id.
Proof.
  unfold findById. intros H. apply find_some in H as [_ H]. lia.
Qed.

(** Past authentication and the front of the stack the request carries the
    principal of its token. *)
Lemma front_principal E db r r1 t1 id :
  token r = Some id ->
  run_stack (authenticateToken :: income_front) E db r = (Next r1, t1) ->
  user r1 = Some id /\ exists u, findById db id = Some u.
Proof.
  intros Ht H. cbn [run_stack mw_run authenticateToken] in H. rewrite Ht in H.
  destruct (findById db id) as [u|] eqn:Hu; [|discriminate].
  destruct (run_stack income_front E db (with_user (u_id u) r)) as [s t] eqn:Hf.
  injection H as -> _. split; [|eauto].
  apply (run_stack_keeps (fun x => user x = Some id) income_front) in Hf; auto.
  - apply front_keeps; auto.
  - cbn. f_equal. eapply findById_id; eauto.
Qed.

Lemma existsb_prefix {A} (p : A -> bool) (l1 l2 : list A) :
  l1 `prefix_of` l2 -> existsb p l2 = false -> existsb p l1 = false.
Proof.
  intros [k ->]. rewrite existsb_app. now intros [H _]%orb_false_elim.
Qed.

Lemma rules_on_inactive_account (rest : list Middleware) E db r id u :
  user r = Some id -> findById db id = Some u -> u_isActive u = false ->
  run_stack (income_rules ++ rest) E db r
  = (Respond (reply 403 "Cuenta desactivada"),
     [Entered "validateActiveUser" BusinessRule; Read Users]).
Proof.
  intros Hr Hu Hact. unfold income_rules. cbn [Datatypes.app run_stack].
  cbn [mw_run validateActiveUser]. rewrite Hr, Hu.
  unfold user_path. cbn [mem existsb String.eqb Ascii.eqb Bool.eqb orb negb].
  rewrite Hact. reflexivity.
Qed.

(** C5.  On the route that creates an income, for a principal whose account
    is deactivated: the response is never 429 and the volume check never
    runs; and when the request gets past the guards, the sanitizers and the
    schema chains, the response is the 403 of the account check, whatever
    the number of transactions of the day. *)
Theorem C5_inactive_account_before_volume_limit
    (E : Env) (db : Db) (r : Request) (id : Z) (u : User) :
  token r = Some id -> findById db id = Some u -> u_isActive u = false ->
  let o := run_route (authenticateToken :: income_post) createIncome E db r in
  status (response o) <> 429
  /\ entered "validateTransactionLimits" (trace o) = false
  /\ (forall r1 t1,
        run_stack (authenticateToken :: income_front) E db r = (Next r1, t1) ->
        response o = reply 403 "Cuenta desactivada").
Proof.
  intros Ht Hu Hact o. subst o. unfold run_route.
  rewrite income_post_split, run_stack_app.
  pose proof (run_stack_names (authenticateToken :: income_front) E db r) as Hn.
  assert (Hno : existsb (String.eqb "validateTransactionLimits")
                  (names (snd (run_stack (authenticateToken :: income_front) E db r)))
                = false).
  { eapply existsb_prefix; [exact Hn|]. vm_compute. reflexivity. }
  destruct (run_stack (authenticateToken :: income_front) E db r) as [s t1] eqn:Hf.
  cbn [snd] in Hno. destruct s as [r1|resp|name].
  - destruct (front_principal _ _ _ _ _ _ Ht Hf) as [Hr1 _].
    rewrite (rules_on_inactive_account _ E db r1 id u Hr1 Hu Hact).
    cbn [response status reply trace].
    split; [discriminate|split].
    + unfold entered. rewrite names_app, existsb_app, Hno. reflexivity.
    + intros r1' t1' H. reflexivity.
  - cbn [response trace]. split; [|split; [exact Hno | intros; discriminate]].
    cbn [run_stack] in Hf. cbn [mw_run authenticateToken] in Hf.
    rewrite Ht, Hu in Hf.
    destruct (run_stack income_front E db (with_user (u_id u) r)) as [s t] eqn:Hf'.
    injection Hf as -> _.
    apply (run_stack_answers _ _ front_answers) in Hf' as [_ Hs].
    cbn in Hs. intros H429. rewrite H429 in Hs. intuition discriminate.
  - cbn [response trace]. split; [discriminate|split; [exact Hno | intros; discriminate]].
Qed.

(** Bob's account is deactivated and he has fifty incomes on the day of the
    draft: the response is 403. *)
Lemma C5_inactive_account_before_volume_limit_witness :
  response (run_route (authenticateToken :: income_post) createIncome Fixtures.E0
              (Fixtures.db_with 2 50)
              (with_path "/" (Fixtures.post_income 2 Fixtures.draft)))
  = reply 403 "Cuenta desactivada"
  /\ countDocuments (on_day 2 1705276800000 1705363200000)
       (incomes (Fixtures.db_with 2 50)) = 50.
Proof.
  split; [|vm_compute; reflexivity].
  eapply (C5_inactive_account_before_volume_limit Fixtures.E0 (Fixtures.db_with 2 50)
            (with_path "/" (Fixtures.post_income 2 Fixtures.draft)) 2 Fixtures.bob).
  - reflexivity.
  - reflexivity.
  - reflexivity.
  - vm_compute. reflexivity.
Defined.

(** ** The plan limits (C10) *)

(** No path [plan] exists in the user schema: every user is on the free
    plan. *)
Lemma userPlan_free (u : User) : userPlan u = JStr "free".
Proof. reflexivity. Qed.

(** C10.  [validateUserPlanLimits] applies the limits of the free plan to
    every principal: 429 once the active incomes and expenses of the
    principal number 100, otherwise 400 when the draft carries more than 5
    tags, otherwise the request goes on. *)
Theorem C10_free_plan_limits (E : Env) (db : Db) (r : Request) (id : Z) (u : User) :
  user r = Some id -> findById db id = Some u ->
  planLimits (js_String (userPlan u))
  = Some {| maxTransactions := 100; maxCategories := 10; maxTags := 5 |}
  /\ (100 <= transactionCount db id ->
      fst (mw_run validateUserPlanLimits E db r)
      = Respond (reply 429 "Límite de plan excedido"))
  /\ (forall tags, transactionCount db id < 100 ->
        get (body r) "tags" = JArr tags -> (5 < List.length tags)%nat ->
        fst (mw_run validateUserPlanLimits E db r)
        = Respond (reply 400 "Límite de etiquetas excedido"))
  /\ (forall tags, transactionCount db id < 100 ->
        get (body r) "tags" = JArr tags -> (List.length tags <= 5)%nat ->
        fst (mw_run validateUserPlanLimits E db r) = Next r).
Proof.
  intros Hr Hu. split; [reflexivity|].
  cbn [mw_run validateUserPlanLimits]. rewrite Hr, Hu.
  rewrite userPlan_free.
  cbn [js_String planLimits String.eqb Ascii.eqb Bool.eqb maxTransactions maxTags
       Z.ltb Z.compare andb].
  repeat split.
  - intros H. apply Z.leb_le in H. now rewrite H.
  - intros tags H Ht Hl. apply Z.leb_gt in H. rewrite H, Ht.
    cbn [truthy js_length andb].
    replace (5 <? Z.of_nat (List.length tags)) with true by (symmetry; apply Z.ltb_lt; lia).
    reflexivity.
  - intros tags H Ht Hl. apply Z.leb_gt in H. rewrite H, Ht.
    cbn [truthy js_length andb].
    replace (5 <? Z.of_nat (List.length tags)) with false by (symmetry; apply Z.ltb_ge; lia).
    reflexivity.
Qed.

Lemma C10_free_plan_limits_witness :
  fst (mw_run validateUserPlanLimits Fixtures.E0 (Fixtures.db_with 1 100)
         (with_user 1 (Fixtures.post_income 1 Fixtures.draft)))
  = Respond (reply 429 "Límite de plan excedido").
Proof.
  apply (C10_free_plan_limits Fixtures.E0 (Fixtures.db_with 1 100)
           (with_user 1 (Fixtures.post_income 1 Fixtures.draft)) 1 Fixtures.alice
           eq_refl eq_refl).
  vm_compute. discriminate.
Defined.

(** ** Schema errors are reported after the business rules (C1) *)

Lemma run_stack_never_raises (mws : list Middleware) :
  Forall never_raises mws ->
  forall E db r name t, run_stack mws E db r <> (Raise name, t).
Proof.
  induction 1 as [|m mws Hm _ IH]; intros E db r name t H; simpl in H.
  - discriminate.
  - destruct (mw_run m E db r) as [step rd] eqn:Hrun.
    destruct step as [r1|resp1|n].
    + destruct (run_stack mws E db r1) as [s t1] eqn:Hrest.
      injection H as -> _. eapply IH; exact Hrest.
    + discriminate.
    + eapply Hm; eauto.
Qed.

Lemma rules_never_raise : Forall never_raises income_rules.
Proof.
  unfold income_rules.
  repeat (constructor;
          [intros E db r name rd;
           cbn [mw_run validateActiveUser validateTransactionLimits
                  validateFinancialConsistency validateUserPlanLimits
                  validateDataIntegrity];
           intros H;
           repeat match type of H with
                  | context [match ?x with _ => _ end] => destruct x
                  | context [if ?x then _ else _] => destruct x
                  end; discriminate|]).
  constructor.
Qed.


Lemma rules_answers :
  Forall (answers (fun resp => validationErrors resp = []
                     /\ In (status resp) [400; 401; 403; 404; 409; 429; 500]))
    income_rules.
Proof. apply List.Forall_forall. intros m Hm. now apply rule_answers. Qed.

Lemma run_stack_cons (m : Middleware) (rest : list Middleware) E db r :
  run_stack (m :: rest) E db r =
  let here := Entered (mw_name m) (mw_stage m) :: List.map Read (snd (mw_run m E db r)) in
  match fst (mw_run m E db r) with
  | Next r' => (fst (run_stack rest E db r'), here ++ snd (run_stack rest E db r'))
  | step => (step, here)
  end.
Proof.
  cbn [run_stack]. destruct (mw_run m E db r) as [step rd]. cbn [fst snd].
  destruct step as [r'| |]; try reflexivity.
  destruct (run_stack rest E db r'); reflexivity.
Qed.


Lemma front_passed E db r r1 t1 :
  run_stack (authenticateToken :: income_front) E db r = (Next r1, t1) ->
  exists id u, token r = Some id /\ user r1 = Some id /\ findById db id = Some u.
Proof.
  intros H. destruct (token r) as [id|] eqn:Ht.
  - destruct (front_principal E db r r1 t1 id Ht H) as (H1 & u & H2). eauto 6.
  - cbn [run_stack mw_run authenticateToken] in H. rewrite Ht in H. discriminate.
Qed.




(** ** Strings: trimming, escaping, lower case *)

Lemma ltrim_fixed (c : ascii) (s : string) :
  is_space c = false -> ltrim (String c s) = String c s.
Proof. intros H. simpl. now rewrite H. Qed.

Lemma ltrim_head (s : string) :
  ltrim s = EmptyString \/ exists c r, ltrim s = String c r /\ is_space c = false.
Proof.
  induction s as [|c s IH]; simpl; auto.
  destruct (is_space c) eqn:Hc; auto. right. eauto.
Qed.

Lemma rtrim_head (c : ascii) (s : string) :
  is_space c = false -> exists r, rtrim (String c s) = String c r.
Proof. intros H. simpl. rewrite H. destruct (rtrim s); eauto. Qed.

Lemma rtrim_idem (s : string) : rtrim (rtrim s) = rtrim s.
Proof.
  induction s as [|c s IH]; simpl; auto.
  destruct (rtrim s) as [|c' r] eqn:Hr.
  - destruct (is_space c) eqn:Hc; simpl; auto. now rewrite Hc.
  - simpl in *. destruct (rtrim r) as [|c'' r'] eqn:Hr'.
    + destruct (is_space c') eqn:Hc'; [discriminate|].
      injection IH as <-. reflexivity.
    + now rewrite IH.
Qed.

Lemma trim_idem (s : string) : trim (trim s) = trim s.
Proof.
  unfold trim. destruct (ltrim_head s) as [H|(c & r & H & Hc)]; rewrite H.
  - reflexivity.
  - destruct (rtrim_head c r Hc) as [r' Hr']. rewrite Hr'.
    rewrite (ltrim_fixed c r' Hc), <- Hr'. apply rtrim_idem.
Qed.

Lemma all_chars_ltrim p s : all_chars p s = true -> all_chars p (ltrim s) = true.
Proof.
  induction s as [|c s IH]; simpl; auto.
  intros [H1 H2]%andb_prop. destruct (is_space c); simpl; auto.
  now rewrite H1, H2.
Qed.

Lemma all_chars_rtrim p s : all_chars p s = true -> all_chars p (rtrim s) = true.
Proof.
  induction s as [|c s IH]; simpl; auto.
  intros [H1 H2]%andb_prop. specialize (IH H2).
  destruct (rtrim s) as [|c' r].
  - destruct (is_space c); simpl; auto. now rewrite H1.
  - simpl in *. now rewrite H1, IH.
Qed.

Lemma all_chars_trim p s : all_chars p s = true -> all_chars p (trim s) = true.
Proof. intros H. unfold trim. now apply all_chars_rtrim, all_chars_ltrim. Qed.

Lemma escape_plain (s : string) : plain s = true -> escape s = s.
Proof.
  unfold plain. induction s as [|c s IH]; simpl; auto.
  intros [H1 H2]%andb_prop. unfold plain_char in H1.
  apply andb_prop in H1 as [H1 _]. apply String.eqb_eq in H1.
  rewrite H1, IH; auto.
Qed.

Lemma stripLow_plain (s : string) : plain s = true -> stripLow true s = s.
Proof.
  unfold plain. induction s as [|c s IH]; cbn [stripLow all_chars]; auto.
  intros [H1 H2]%andb_prop. unfold plain_char in H1.
  apply andb_prop in H1 as [_ H1]. apply negb_true_iff in H1.
  rewrite H1, IH; auto.
Qed.

(** [escape] is not idempotent: it escapes the ampersand of its own
    entities. *)
Lemma escape_not_idempotent : escape (escape "a&b") <> escape "a&b".
Proof. vm_compute. discriminate. Qed.

Lemma is_space_lower (c : ascii) : is_space (lower_char c) = is_space c.
Proof. destruct c as [[] [] [] [] [] [] [] []]; reflexivity. Qed.

Lemma lower_char_idem (c : ascii) : lower_char (lower_char c) = lower_char c.
Proof. destruct c as [[] [] [] [] [] [] [] []]; reflexivity. Qed.

Lemma toLowerCase_idem (s : string) : toLowerCase (toLowerCase s) = toLowerCase s.
Proof. induction s as [|c s IH]; simpl; auto. now rewrite lower_char_idem, IH. Qed.

Lemma ltrim_lower (s : string) : ltrim (toLowerCase s) = toLowerCase (ltrim s).
Proof.
  induction s as [|c s IH]; simpl; auto. rewrite is_space_lower.
  destruct (is_space c); auto.
Qed.

Lemma rtrim_lower (s : string) : rtrim (toLowerCase s) = toLowerCase (rtrim s).
Proof.
  induction s as [|c s IH]; simpl; auto. rewrite IH, is_space_lower.
  destruct (rtrim s); simpl; auto. destruct (is_space c); auto.
Qed.

Lemma trim_lower (s : string) : trim (toLowerCase s) = toLowerCase (trim s).
Proof. unfold trim. now rewrite ltrim_lower, rtrim_lower. Qed.

Lemma toLowerCase_empty (s : string) :
  String.eqb (toLowerCase s) "" = String.eqb s "".
Proof. destruct s; reflexivity. Qed.

(** ** What a chain of sanitizers does to its field *)

Lemma lookup_set (f k : string) (v : JsVal) (b : object) :
  set f v b !! k = if decide (k = f) then stored v else b !! k.
Proof.
  unfold set. destruct (decide (k = f)) as [->|Hne].
  - destruct v; cbn [stored];
      first [apply lookup_delete_eq | apply lookup_insert_eq].
  - destruct v;
      first [apply lookup_delete_ne; congruence | apply lookup_insert_ne; congruence].
Qed.

Lemma get_set_ne (f k : string) (v : JsVal) (b : object) :
  k <> f -> get (set f v b) k = get b k.
Proof.
  intros H. unfold get. rewrite lookup_set. now destruct (decide (k = f)).
Qed.

Lemma get_set_eq (f : string) (v : JsVal) (b : object) : get (set f v b) f = v.
Proof.
  unfold get. rewrite lookup_set. destruct (decide (f = f)); [|congruence].
  now destruct v.
Qed.

Lemma get_stored (b : object) (k : string) (v : JsVal) :
  b !! k = stored v -> get b k = v.
Proof. unfold get. intros ->. now destruct v. Qed.

Lemma set_set (f : string) (v w : JsVal) (b : object) :
  set f v (set f w b) = set f v b.
Proof.
  apply map_eq. intros k. rewrite !lookup_set. now destruct (decide (k = f)).
Qed.

Lemma run_item_value (it : Item) (body : object) (path : string) (v : JsVal) :
  match run_item it body path v with
  | Ok (v', _) => item_value it v = Ok v'
  | Throw e => item_value it v = Throw e
  end.
Proof.
  destruct it; cbn; auto.
  destruct (f v); reflexivity.
Qed.

Lemma run_items_single (c : Chain) (items : list Item) :
  ch_wildcard c = false ->
  forall (body : object) (path : string) (v : JsVal) b' es,
    run_items c items body [(path, v)] = Ok (b', es) ->
    exists v', chain_value c items v = Ok v'
               /\ b' = match items with
                       | [] => body
                       | _ => set (ch_field c) v' body
                       end.
Proof.
  intros Hw. induction items as [|it rest IH]; intros body path v b' es H.
  - cbn in H. injection H as <- _. cbn. eauto.
  - cbn [run_items item_on_instances] in H. cbn [chain_value].
    destruct (skipped c v) eqn:Hs.
    + cbn [bindE fst snd] in H. unfold write_back in H. rewrite Hw in H.
      destruct (run_items c rest (set (ch_field c) v body) [(path, v)])
        as [[b1 es1]|e] eqn:Hrest; [|discriminate].
      cbn in H. injection H as <- _.
      apply IH in Hrest as (v' & Hv & Hb). cbn [bindE]. exists v'. split; auto.
      subst b1. destruct rest; [cbn in Hv; now injection Hv as <-|apply set_set].
    + pose proof (run_item_value it body path v) as Hit.
      destruct (run_item it body path v) as [[v1 es0]|e]; [|discriminate].
      rewrite Hit. cbn [bindE fst snd] in *. unfold write_back in H. rewrite Hw in H.
      destruct (run_items c rest (set (ch_field c) v1 body) [(path, v1)])
        as [[b1 es1]|e] eqn:Hrest; [|discriminate].
      cbn in H. injection H as <- _.
      apply IH in Hrest as (v' & Hv & Hb). exists v'. split; auto.
      subst b1. destruct rest; [cbn in Hv; now injection Hv as <-|apply set_set].
Qed.

(** A chain on a single field, used as middleware, replaces the field by
    the value of the chain and leaves the rest of the request alone. *)
Lemma chain_mw_effect name stage (c : Env -> Chain) E db r r' rd :
  ch_wildcard (c E) = false -> ch_items (c E) <> [] ->
  mw_run (of_chain name stage c) E db r = (Next r', rd) ->
  exists v', chain_value (c E) (ch_items (c E)) (get (body r) (ch_field (c E))) = Ok v'
             /\ body r' = set (ch_field (c E)) v' (body r)
             /\ query r' = query r.
Proof.
  intros Hw Hi H. apply of_chain_next in H as (b & es & Hrun & -> & _).
  unfold EV.run, select in Hrun. rewrite Hw in Hrun.
  apply (run_items_single _ _ Hw) in Hrun as (v' & Hv & Hb).
  exists v'. split; auto. split; [|reflexivity].
  cbn. subst b. destruct (ch_items (c E)); congruence.
Qed.

(** ** The sanitizers of the income route on the body (C8) *)

Lemma trim_string_idem (v : JsVal) : trim_string (trim_string v) = trim_string v.
Proof. destruct v; cbn; auto. now rewrite trim_idem. Qed.

Lemma lookup_sanitize_body (b : object) (k : string) :
  get (sanitize_body b) k = trim_string (get b k).
Proof.
  unfold get, sanitize_body. rewrite lookup_fmap. now destruct (b !! k).
Qed.

(** The body that leaves the sanitizers, field by field. *)
Lemma sanitizers_effect E db r r1 :
  fst (run_stack income_sanitizers E db r) = Next r1 ->
  let b0 := sanitize_body (body r) in
  exists v1 v2 v3 v4 v5 v6,
    chain_value sanitizeDescription (ch_items sanitizeDescription)
      (get b0 "description") = Ok v1
    /\ chain_value sanitizeNotes (ch_items sanitizeNotes) (get b0 "notes") = Ok v2
    /\ chain_value sanitizeTags (ch_items sanitizeTags) (get b0 "tags") = Ok v3
    /\ to_iso (dates E) (get b0 "date") = Ok v4
    /\ to_number (get b0 "amount") = Ok v5
    /\ to_boolean (get b0 "isRecurring") = Ok v6
    /\ body r1 = set "isRecurring" v6 (set "amount" v5 (set "date" v4
                   (set "tags" v3 (set "notes" v2 (set "description" v1 b0))))).
Proof.
  intros H b0. unfold income_sanitizers in H.
  cbn [List.map Datatypes.app sanitizeNumericFields sanitizeBooleanFields] in H.
  rewrite run_stack_cons in H. cbn zeta in H.
  destruct (mw_run sanitizeInput E db r) as [s0 rd0] eqn:H0.
  destruct s0 as [r0| |]; cbn [fst snd] in H; try discriminate.
  apply sanitizeInput_next in H0 as (q & _ & -> & _).
  repeat match type of H with
         | fst (run_stack (?m :: _) E db ?x) = _ =>
             rewrite run_stack_cons in H; cbn zeta in H;
             let s := fresh "s" in let rd := fresh "rd" in let Hm := fresh "Hm" in
             destruct (mw_run m E db x) as [s rd] eqn:Hm;
             destruct s as [?r| |]; cbn [fst snd] in H; try discriminate;
             apply chain_mw_effect in Hm as (?v & ?Hv & ?Hb & _);
             [|reflexivity|discriminate]
         end.
  cbn in H. injection H as <-.
  cbn [ch_field sanitizeDescription sanitizeNotes sanitizeTags sanitizeDate
       chain optional] in *.
  cbn [body with_query with_body] in *.
  rewrite Hb in Hv0, Hb0. rewrite Hb0 in Hv1, Hb1. rewrite Hb1 in Hv2, Hb2.
  rewrite Hb2 in Hv3, Hb3. rewrite Hb3 in Hv4, Hb4.
  repeat rewrite get_set_ne in Hv0 by discriminate.
  repeat rewrite get_set_ne in Hv1 by discriminate.
  repeat rewrite get_set_ne in Hv2 by discriminate.
  repeat rewrite get_set_ne in Hv3 by discriminate.
  repeat rewrite get_set_ne in Hv4 by discriminate.
  subst b0.
  cbn [chain_value ch_items chain skipped ch_optional andb bindE item_value
       sanitizeDate] in Hv2, Hv3, Hv4.
  destruct (to_iso (dates E) (get (sanitize_body (body r)) "date")) as [w2|];
    cbn in Hv2; [|discriminate].
  destruct (to_number (get (sanitize_body (body r)) "amount")) as [w3|];
    cbn in Hv3; [|discriminate].
  destruct (to_boolean (get (sanitize_body (body r)) "isRecurring")) as [w4|];
    cbn in Hv4; [|discriminate].
  injection Hv2 as ->. injection Hv3 as ->. injection Hv4 as ->.
  exists v, v0, v1, v2, v3, v4. repeat split; auto.
Qed.

Lemma smap_smap (f g : string -> string) (v : JsVal) :
  smap g (smap f v) = smap (fun s => g (f s)) v.
Proof.
  destruct v; cbn; auto. f_equal. rewrite List.map_map. reflexivity.
Qed.

Lemma smap_ext (f g : string -> string) (v : JsVal) :
  forallb (fun x => String.eqb (f (EV.toString x)) (g (EV.toString x))) (EV.values v)
  = true ->
  smap f v = smap g v.
Proof.
  destruct v; cbn; rewrite ?andb_true_r;
    try (intros H; apply String.eqb_eq in H; now rewrite H).
  intros H. f_equal. induction l as [|x l IH]; cbn in *; auto.
  apply andb_prop in H as [H1 H2]. apply String.eqb_eq in H1. rewrite H1, IH; auto.
Qed.

Lemma description_value (v : JsVal) :
  chain_value sanitizeDescription (ch_items sanitizeDescription) v
  = Ok (smap clean_text v).
Proof. cbn. now rewrite !smap_smap. Qed.

Lemma smap_defined (f : string -> string) (v : JsVal) : smap f v <> JUndefined.
Proof. destruct v; discriminate. Qed.

Lemma notes_value (v : JsVal) :
  chain_value sanitizeNotes (ch_items sanitizeNotes) v
  = Ok (match v with JUndefined => JUndefined | _ => smap clean_text v end).
Proof.
  destruct v; cbn; try reflexivity; rewrite ?List.map_map; reflexivity.
Qed.

Lemma clean_text_plain (s : string) : plain s = true -> clean_text s = trim s.
Proof.
  intros H. unfold clean_text.
  assert (Ht : plain (trim s) = true) by now apply all_chars_trim.
  now rewrite (escape_plain _ Ht), (stripLow_plain _ Ht).
Qed.

Lemma smap_clean_plain (v : JsVal) :
  text_plain v = true -> smap clean_text v = smap trim v.
Proof.
  intros H. apply smap_ext. unfold text_plain in H.
  induction (EV.values v) as [|x l IH]; cbn in *; auto.
  apply andb_prop in H as [H1 H2]. rewrite (clean_text_plain _ H1), String.eqb_refl.
  now apply IH.
Qed.

Lemma text_plain_trim_string (v : JsVal) :
  text_plain v = true -> text_plain (trim_string v) = true.
Proof.
  destruct v; cbn; auto. rewrite !andb_true_r. apply all_chars_trim.
Qed.

(** A text that went through the sanitizer once comes back unchanged. *)
Lemma smap_trim_fixed (v : JsVal) :
  text_plain v = true ->
  let w := smap trim v in
  trim_string w = w /\ text_plain w = true /\ smap trim w = w.
Proof.
  intros H. unfold text_plain in H.
  assert (Hs : forall s, plain s = true ->
                 trim_string (JStr (trim s)) = JStr (trim s)
                 /\ text_plain (JStr (trim s)) = true
                 /\ smap trim (JStr (trim s)) = JStr (trim s)).
  { intros s Hp. repeat split.
    - cbn [trim_string]. now rewrite trim_idem.
    - unfold text_plain. cbn [EV.values EV.toString js_String forallb].
      rewrite andb_true_r. now apply all_chars_trim.
    - cbn [smap EV.toString js_String]. now rewrite trim_idem. }
  destruct v; cbn in H; rewrite ?andb_true_r in H; try (apply Hs; assumption).
  cbn [smap trim_string]. split; [reflexivity|]. split.
  - unfold text_plain. cbn [EV.values].
    induction l as [|x l IH]; cbn [List.map forallb] in *; auto.
    apply andb_prop in H as [H1 H2]. rewrite IH; auto.
    cbn [EV.toString js_String]. rewrite andb_true_r. now apply all_chars_trim.
  - f_equal. rewrite List.map_map. apply List.map_ext. intros x.
    cbn [EV.toString js_String]. now rewrite trim_idem.
Qed.

Lemma clean_tag_idem (x : JsVal) : clean_tag (clean_tag x) = clean_tag x.
Proof.
  destruct x; cbn; auto. f_equal.
  now rewrite trim_lower, toLowerCase_idem, trim_idem.
Qed.

Lemma keep_nonempty_fixed (l l' : list JsVal) :
  keep_nonempty (List.map clean_tag l) = Ok l' ->
  keep_nonempty (List.map clean_tag l') = Ok l'.
Proof.
  revert l'. induction l as [|x l IH]; intros l' H; cbn in H.
  - now injection H as <-.
  - destruct (length_positive (clean_tag x)) as [keep|] eqn:Hk; [|discriminate].
    cbn in H. destruct (keep_nonempty (List.map clean_tag l)) as [l1|]; [|discriminate].
    cbn in H. specialize (IH l1 eq_refl). destruct keep; injection H as <-; auto.
    cbn. rewrite clean_tag_idem, Hk. cbn. now rewrite IH.
Qed.

Lemma tags_value (v : JsVal) :
  chain_value sanitizeTags (ch_items sanitizeTags) v
  = match v with JUndefined => Ok JUndefined | _ => clean_tags v end.
Proof.
  destruct v; cbn; try reflexivity.
  destruct (keep_nonempty (List.map clean_tag l)); reflexivity.
Qed.

Lemma tags_fixed (v w : JsVal) :
  trim_string v = v ->
  chain_value sanitizeTags (ch_items sanitizeTags) v = Ok w ->
  chain_value sanitizeTags (ch_items sanitizeTags) (trim_string w) = Ok w.
Proof.
  intros Hv. rewrite !tags_value.
  destruct v; cbn; intros H; try (injection H as <-; cbn; auto; fail).
  - injection H as <-. cbn in *. now rewrite Hv.
  - destruct (keep_nonempty (List.map clean_tag l)) as [l'|] eqn:Hk; [|discriminate].
    cbn in H. injection H as <-. cbn. now rewrite (keep_nonempty_fixed _ _ Hk).
Qed.

Lemma date_fixed (D : DateEnv) (v w : JsVal) :
  trim_string v = v -> date_round_trip D v ->
  to_iso D v = Ok w -> to_iso D (trim_string w) = Ok w.
Proof.
  unfold to_iso, date_round_trip. intros Hv Hd.
  destruct (truthy v) eqn:Ht.
  - destruct (new_Date D v) as [t|] eqn:Hn; intros H; injection H as <-.
    + destruct Hd as (H1 & H2 & H3). cbn [trim_string]. rewrite H1.
      cbn [truthy new_Date]. rewrite H3.
      destruct (date_toISOString D t); [congruence|reflexivity].
    + now rewrite Hv, Ht, Hn.
  - intros H; injection H as <-. now rewrite Hv, Ht.
Qed.

Lemma amount_fixed (v w : JsVal) :
  trim_string v = v -> to_number v = Ok w -> to_number (trim_string w) = Ok w.
Proof.
  intros Hv. destruct v; cbn; intros H; injection H as <-; auto.
Qed.

Lemma boolean_fixed (v w : JsVal) :
  to_boolean v = Ok w -> to_boolean (trim_string w) = Ok w.
Proof.
  destruct v; cbn; intros H; injection H as <-; cbn; auto.
Qed.

(** C8, as the code has it.  Running the sanitizers of the income route a
    second time leaves the body as the first run made it, when the string
    forms of [description] and [notes] hold no character that [escape]
    replaces and none that [stripLow] removes, and when the host reads back
    the ISO form of the date. *)
Theorem C8_sanitizers_idempotent_on_plain_text
    (E : Env) (db : Db) (r r1 r2 : Request) :
  fst (run_stack income_sanitizers E db r) = Next r1 ->
  fst (run_stack income_sanitizers E db r1) = Next r2 ->
  text_plain (get (body r) "description") = true ->
  text_plain (get (body r) "notes") = true ->
  date_round_trip (dates E) (trim_string (get (body r) "date")) ->
  body r2 = body r1.
Proof.
  intros H1 H2 Hd Hn Hdate.
  apply sanitizers_effect in H1 as (v1 & v2 & v3 & v4 & v5 & v6 & A1 & A2 & A3 & A4
                                     & A5 & A6 & Hb1).
  apply sanitizers_effect in H2 as (w1 & w2 & w3 & w4 & w5 & w6 & B1 & B2 & B3 & B4
                                     & B5 & B6 & Hb2).
  cbn zeta in *. rewrite !lookup_sanitize_body in *.
  rewrite Hb1 in B1, B2, B3, B4, B5, B6.
  repeat rewrite get_set_ne in B1 by discriminate.
  repeat rewrite get_set_ne in B2 by discriminate.
  repeat rewrite get_set_ne in B3 by discriminate.
  repeat rewrite get_set_ne in B4 by discriminate.
  repeat rewrite get_set_ne in B5 by discriminate.
  rewrite get_set_eq in B1, B2, B3, B4, B5, B6.
  (* description *)
  rewrite description_value in A1, B1. injection A1 as <-. injection B1 as <-.
  pose proof (text_plain_trim_string _ Hd) as Hd'.
  rewrite (smap_clean_plain _ Hd') in *.
  destruct (smap_trim_fixed _ Hd') as (F1 & F2 & F3). cbn zeta in F1, F2, F3.
  (* notes *)
  rewrite notes_value in A2, B2. injection A2 as <-. injection B2 as <-.
  pose proof (text_plain_trim_string _ Hn) as Hn'.
  destruct (smap_trim_fixed _ Hn') as (G1 & G2 & G3). cbn zeta in G1, G2, G3.
  (* the other fields *)
  rewrite (tags_fixed _ _ (trim_string_idem _) A3) in B3. injection B3 as <-.
  rewrite (date_fixed _ _ _ (trim_string_idem _) Hdate A4) in B4. injection B4 as <-.
  rewrite (amount_fixed _ _ (trim_string_idem _) A5) in B5. injection B5 as <-.
  rewrite (boolean_fixed _ _ A6) in B6. injection B6 as <-.
  rewrite Hb2. rewrite Hb1 at 2. apply map_eq. intros k. rewrite !lookup_set.
  repeat match goal with
         | |- context [decide (k = ?f)] => destruct (decide (k = f))
         end; try reflexivity.
  - (* notes *)
    f_equal. destruct (trim_string (get (body r) "notes")) eqn:Hv;
      [reflexivity|..];
      rewrite !(smap_clean_plain _ Hn'), G1, (smap_clean_plain _ G2), G3;
      match goal with |- match ?x with _ => _ end = _ => destruct x end;
      reflexivity.
  - (* description *)
    f_equal. rewrite F1, (smap_clean_plain _ F2). exact F3.
  - (* the fields that no chain touches *)
    unfold sanitize_body. rewrite !lookup_fmap, Hb1. rewrite !lookup_set.
    repeat match goal with
           | |- context [decide (k = ?f)] => destruct (decide (k = f)); [congruence|]
           end.
    unfold sanitize_body. rewrite lookup_fmap.
    destruct (body r !! k) as [x|]; cbn; auto. now rewrite trim_string_idem.
Qed.

Lemma C8_sanitizers_idempotent_on_plain_text_witness :
  let b := <["tags" := JArr [JStr " Trabajo "; JStr ""; JStr "NOMINA"]]>
             (<["description" := JStr "  Salario de enero "]>
                (<["amount" := JStr "2500.50"]> Fixtures.draft)) in
  let r := Fixtures.post_income 1 b in
  exists r1 r2,
    fst (run_stack income_sanitizers Fixtures.E0 Fixtures.db0 r) = Next r1
    /\ fst (run_stack income_sanitizers Fixtures.E0 Fixtures.db0 r1) = Next r2
    /\ get (body r1) "description" = JStr "Salario de enero"
    /\ body r2 = body r1.
Proof.
  intros b r.
  destruct (fst (run_stack income_sanitizers Fixtures.E0 Fixtures.db0 r))
    as [r1| |] eqn:H1; [|exfalso; revert H1; vm_compute; discriminate..].
  assert (Hr1 : exists x, r1 = x /\ get (body x) "description" = JStr "Salario de enero"
                /\ exists r2, fst (run_stack income_sanitizers Fixtures.E0 Fixtures.db0 x)
                              = Next r2).
  { vm_compute in H1. injection H1 as <-.
    eexists. split; [reflexivity|]. split; [reflexivity|].
    eexists. vm_compute. reflexivity. }
  destruct Hr1 as (x & <- & Hd & r2 & H2).
  exists r1, r2. split; [reflexivity|]. split; [exact H2|]. split; [exact Hd|].
  apply (C8_sanitizers_idempotent_on_plain_text Fixtures.E0 Fixtures.db0 r r1 r2 H1 H2).
  - vm_compute. reflexivity.
  - vm_compute. reflexivity.
  - vm_compute. split; [reflexivity|]. split; [discriminate|reflexivity].
Defined.

(** C8 fails on the code.  The description [Ahorro & inversion] leaves the
    sanitizers as [Ahorro &amp; inversion]; a second run escapes the
    ampersand of the entity again. *)
Lemma C8_counterexample :
  let b := <["description" := JStr "Ahorro & inversion"]> Fixtures.draft in
  match fst (run_stack income_sanitizers Fixtures.E0 Fixtures.db0
               (Fixtures.post_income 1 b)) with
  | Next r1 =>
      get (body r1) "description" = JStr "Ahorro &amp; inversion"
      /\ match fst (run_stack income_sanitizers Fixtures.E0 Fixtures.db0 r1) with
         | Next r2 =>
             get (body r2) "description" = JStr "Ahorro &amp;amp; inversion"
         | _ => False
         end
  | _ => False
  end.
Proof. vm_compute. repeat split. Qed.

(** A control character in front of a space has the same effect without
    any markup: the first run removes the character and leaves the space,
    the second run trims it. *)
Lemma sanitizers_not_idempotent_on_control_characters :
  let b := <["description" := JStr (String (ascii_of_N 1) " Renta")]> Fixtures.draft in
  match fst (run_stack income_sanitizers Fixtures.E0 Fixtures.db0
               (Fixtures.post_income 1 b)) with
  | Next r1 =>
      get (body r1) "description" = JStr " Renta"
      /\ match fst (run_stack income_sanitizers Fixtures.E0 Fixtures.db0 r1) with
         | Next r2 => get (body r2) "description" = JStr "Renta"
         | _ => False
         end
  | _ => False
  end.
Proof. vm_compute. repeat split. Qed.

(** ** The category checks (C3) *)

Lemma write_back_other (c : Chain) (insts : list (string * JsVal)) (b : object)
    (k : string) :
  k <> ch_field c -> write_back c insts b !! k = b !! k.
Proof.
  intros Hk. unfold write_back.
  destruct (ch_wildcard c); destruct insts as [|[p v] [|]]; auto;
    rewrite lookup_set; destruct (decide (k = ch_field c)); congruence.
Qed.

(** A chain changes no field but its own. *)
Lemma run_items_other (c : Chain) (items : list Item) (k : string) :
  k <> ch_field c ->
  forall b insts b' es,
    run_items c items b insts = Ok (b', es) -> b' !! k = b !! k.
Proof.
  intros Hk. induction items as [|it rest IH]; intros b insts b' es H.
  - cbn in H. now injection H as <- _.
  - cbn [run_items] in H.
    destruct (item_on_instances c it b insts) as [[insts' es0]|e]; [|discriminate].
    cbn [bindE fst snd] in H.
    destruct (run_items c rest (write_back c insts' b) insts') as [[b1 es1]|e] eqn:Hr;
      [|discriminate].
    cbn in H. injection H as <- _. apply IH in Hr. rewrite Hr.
    now apply write_back_other.
Qed.

Lemma chain_mw_other name stage (c : Env -> Chain) E db r r' rd (k : string) :
  k <> ch_field (c E) ->
  mw_run (of_chain name stage c) E db r = (Next r', rd) ->
  get (body r') k = get (body r) k.
Proof.
  intros Hk H. apply of_chain_next in H as (b & es & Hrun & -> & _).
  unfold EV.run in Hrun. apply (run_items_other _ _ k Hk) in Hrun.
  cbn. unfold get. now rewrite Hrun.
Qed.


(** The outcome when the handler that creates finds a request with
    validation errors, or is not reached. *)
Lemma create_rejects (k : Models.Kind) (msg : string) (mws : list Middleware)
    E db r :
  Forall (answers (fun resp => status resp <> 201)) mws ->
  (forall r' t, run_stack mws E db r = (Next r', t) -> errors r' <> []) ->
  let o := run_route mws (create k msg) E db r in
  status (response o) <> 201 /\ db_after o = db.
Proof.
  intros Ha Hn o. subst o. unfold run_route.
  destruct (run_stack mws E db r) as [s t] eqn:Hs. destruct s as [r'|resp|name].
  - specialize (Hn r' t eq_refl). unfold create.
    destruct (errors r'); [congruence|]. cbn. split; [discriminate|reflexivity].
  - cbn. split; auto. exact (run_stack_answers _ _ Ha _ _ _ _ _ Hs).
  - cbn. split; [discriminate|reflexivity].
Qed.

Lemma answers_weaken (Q Q' : Response -> Prop) (mws : list Middleware) :
  (forall resp, Q resp -> Q' resp) ->
  Forall (answers Q) mws -> Forall (answers Q') mws.
Proof.
  intros HQ H. eapply List.Forall_impl; [|exact H].
  intros m Hm E db r resp rd Hr. eapply HQ, Hm; eauto.
Qed.

Lemma auth_answers : answers (fun resp => status resp <> 201) authenticateToken.
Proof.
  intros E db r resp rd. cbn [mw_run authenticateToken].
  destruct (token r); [destruct (findById db z)|]; intros H; try discriminate;
    injection H as <- _; discriminate.
Qed.


Lemma handleValidationErrors_answers :
  answers (fun resp => status resp <> 201) handleValidationErrors.
Proof.
  intros E db r resp rd. cbn [mw_run handleValidationErrors].
  destruct (errors r); intros H; [discriminate|]. injection H as <- _. discriminate.
Qed.





Lemma handleValidationErrors_keeps (P : Request -> Prop) :
  keeps P handleValidationErrors.
Proof.
  intros E db r r' rd HP. cbn [mw_run handleValidationErrors].
  destruct (errors r); intros H; [|discriminate]. now injection H as <- _.
Qed.






Lemma inline_answers (Q : Response -> Prop) k c : Forall (answers Q) (inline_chains k c).
Proof.
  destruct k; cbn [inline_chains Datatypes.app];
    repeat (constructor; [apply of_chain_answers|]); constructor.
Qed.







(** The router of the incomes is mounted at [/api/incomes]: the middleware
    of its create route sees the path [/], which does not contain
    [/incomes]. *)
Lemma income_route_path :
  relative "/api/incomes" "/api/incomes" = Some "/"
  /\ includes "/incomes" "/" = false.
Proof. split; reflexivity. Qed.

(** So the category check of [validateFinancialConsistency] never fires on
    that route. *)
Lemma income_category_rule_never_fires E db r :
  path r = "/" ->
  fst (mw_run validateFinancialConsistency E db r)
  <> Respond (reply 400 "Categoría inválida").
Proof.
  intros Hp. cbn [mw_run validateFinancialConsistency]. rewrite Hp.
  change (includes "/incomes" "/") with false.
  change (includes "/expenses" "/") with false. cbn [andb].
  destruct (user r); cbn [fst]; [|discriminate].
  destruct (leb _ _); cbn [fst]; [discriminate|].
  destruct (date_lt _ _); cbn [fst]; discriminate.
Qed.

(** With the schema check of the category taken out of the income route, a
    draft with a category outside the list passes the five business rules
    and reaches the handler. *)
Lemma income_route_without_schema_category_check :
  let b := <["category" := JStr "alimentacion"]> Fixtures.draft in
  let o := run_route
             (authenticateToken :: without "incomeValidations.category" income_post)
             createIncome Fixtures.E0 Fixtures.db0
             (with_path "/" (Fixtures.post_income 1 b)) in
  entered "validateFinancialConsistency" (trace o) = true
  /\ handled (trace o) = true.
Proof. vm_compute. split; reflexivity. Qed.

(** ** Digits *)

Lemma code_digit_char (d : N) : (d < 10)%N -> code (digit_char d) = (48 + d)%N.
Proof.
  intros H. unfold code, digit_char. apply N_ascii_embedding. lia.
Qed.

Lemma is_digit_digit_char (d : N) : (d < 10)%N -> is_digit (digit_char d) = true.
Proof.
  intros H. unfold is_digit, in_range. rewrite (code_digit_char d H).
  apply andb_true_intro. split; apply N.leb_le; lia.
Qed.

Lemma digit_val_digit_char (d : N) : (d < 10)%N -> digit_val (digit_char d) = Z.of_N d.
Proof. intros H. unfold digit_val. rewrite (code_digit_char d H). lia. Qed.

Lemma is_digit_bounds (c : ascii) : is_digit c = true -> 0 <= digit_val c <= 9.
Proof.
  unfold is_digit, in_range, digit_val. intros [H1 H2]%andb_prop.
  apply N.leb_le in H1, H2. lia.
Qed.

Lemma all_chars_app p (a b : string) :
  all_chars p (a ++ b) = all_chars p a && all_chars p b.
Proof. induction a as [|c a IH]; simpl; auto. now rewrite IH, andb_assoc. Qed.

Lemma string_length_app (a b : string) :
  String.length (a ++ b) = (String.length a + String.length b)%nat.
Proof. induction a as [|c a IH]; simpl; auto. Qed.

Lemma val_acc_app (acc : Z) (a b : string) :
  val_acc acc (a ++ b) = val_acc (val_acc acc a) b.
Proof. revert acc. induction a as [|c a IH]; intros acc; simpl; auto. Qed.

Lemma val_acc_shift (acc : Z) (s : string) :
  val_acc acc s = acc * 10 ^ Z.of_nat (String.length s) + val s.
Proof.
  unfold val. revert acc. induction s as [|c s IH]; intros acc.
  - simpl. lia.
  - cbn [val_acc String.length]. rewrite (IH (10 * acc + digit_val c)).
    rewrite (IH (10 * 0 + digit_val c)).
    rewrite Nat2Z.inj_succ, Z.pow_succ_r by lia. lia.
Qed.

Lemma val_app (a b : string) :
  val (a ++ b) = val a * 10 ^ Z.of_nat (String.length b) + val b.
Proof. unfold val at 1. rewrite val_acc_app, val_acc_shift. reflexivity. Qed.

Lemma val_bounds (s : string) :
  all_chars is_digit s = true -> 0 <= val s < 10 ^ Z.of_nat (String.length s).
Proof.
  induction s as [|c s IH].
  - intros _. cbn. lia.
  - cbn [all_chars]. intros [Hc Hs]%andb_prop. specialize (IH Hs).
    apply is_digit_bounds in Hc.
    unfold val at 1 2. cbn [val_acc String.length]. rewrite val_acc_shift.
    rewrite Nat2Z.inj_succ, Z.pow_succ_r by lia. nia.
Qed.

Lemma show_fuel_S (f : nat) (n : N) :
  show_fuel (S f) n =
  if (n <? 10)%N then String (digit_char n) EmptyString
  else (show_fuel f (n / 10) ++ String (digit_char (n mod 10)) EmptyString)%string.
Proof. reflexivity. Qed.

(** The decimal digits of a number. *)
Lemma show_fuel_spec (f : nat) (n : N) :
  (n < 2 ^ N.of_nat (S f))%N ->
  let s := show_fuel (S f) n in
  all_chars is_digit s = true
  /\ val s = Z.of_N n
  /\ (0 < String.length s)%nat
  /\ ((0 < n)%N -> 10 ^ (Z.of_nat (String.length s) - 1) <= Z.of_N n).
Proof.
  revert n. induction f as [|f IH]; intros n Hn; cbn zeta.
  - rewrite show_fuel_S. assert (Hlt : (n <? 10)%N = true) by (apply N.ltb_lt; cbn in Hn; lia).
    rewrite Hlt. cbn -[is_digit digit_val Z.pow]. rewrite andb_true_r.
    assert (n < 10)%N by (apply N.ltb_lt; auto).
    rewrite is_digit_digit_char, digit_val_digit_char by auto.
    repeat split; try lia.
  - rewrite show_fuel_S. destruct (n <? 10)%N eqn:Hlt.
    + cbn -[is_digit digit_val Z.pow]. rewrite andb_true_r.
      assert (n < 10)%N by (apply N.ltb_lt; auto).
      rewrite is_digit_digit_char, digit_val_digit_char by auto.
      repeat split; try lia.
    + apply N.ltb_ge in Hlt.
      assert (Hq : (n / 10 < 2 ^ N.of_nat (S f))%N).
      { rewrite Nat2N.inj_succ, N.pow_succ_r' in Hn.
        apply N.Div0.div_lt_upper_bound. lia. }
      destruct (IH (n / 10)%N Hq) as (H1 & H2 & H3 & H4). cbn zeta in *.
      set (s := show_fuel (S f) (n / 10)) in *.
      assert (Hd : (n mod 10 < 10)%N) by (apply N.mod_lt; lia).
      rewrite all_chars_app, val_app, string_length_app, H1, H2.
      cbn -[is_digit digit_val Z.pow s]. rewrite andb_true_r.
      rewrite is_digit_digit_char, digit_val_digit_char by auto.
      pose proof (N.div_mod n 10 ltac:(lia)) as Hdm.
      repeat split; try lia.
      intros _. assert (Hpos : (0 < n / 10)%N).
      { apply N.div_str_pos. lia. }
      specialize (H4 Hpos).
      replace (Z.of_nat (String.length s + 1) - 1)
        with (Z.succ (Z.of_nat (String.length s) - 1)) by lia.
      rewrite Z.pow_succ_r by lia.
      remember (10 ^ (Z.of_nat (String.length s) - 1)) as p.
      assert (Z.of_N n = 10 * Z.of_N (n / 10) + Z.of_N (n mod 10)) by lia.
      pose proof (N2Z.is_nonneg (n mod 10)) as H0.
      clear - H H4 H0.
      generalize dependent (Z.of_N (n mod 10)).
      generalize dependent (Z.of_N (n / 10)).
      generalize dependent (Z.of_N n). intros. lia.
Qed.

Lemma show_N_spec (n : N) :
  let s := show_N n in
  all_chars is_digit s = true
  /\ val s = Z.of_N n
  /\ (0 < String.length s)%nat
  /\ ((0 < n)%N -> 10 ^ (Z.of_nat (String.length s) - 1) <= Z.of_N n).
Proof.
  apply show_fuel_spec. destruct n as [|p]; [cbn; lia|].
  rewrite Nat2N.inj_succ, N2Nat.id. apply N.log2_spec. lia.
Qed.

(** ** Reading a decimal literal *)

Lemma append_nil_l (s : string) : ("" ++ s)%string = s.
Proof. reflexivity. Qed.

Lemma append_cons (c : ascii) (a b : string) :
  (String c a ++ b)%string = String c (a ++ b).
Proof. reflexivity. Qed.

Ltac app_step := repeat first [rewrite append_nil_l | rewrite append_cons].
Ltac app_step_in H := repeat first [rewrite append_nil_l in H | rewrite append_cons in H].

Lemma span_digits_app (d t : string) :
  all_chars is_digit d = true -> no_digit_head t = true ->
  span_digits (d ++ t) = (d, t).
Proof.
  intros Hd Ht. induction d as [|c d IH]; app_step.
  - destruct t as [|c r]; [reflexivity|]. cbn [span_digits no_digit_head] in *.
    apply negb_true_iff in Ht. now rewrite Ht.
  - cbn [all_chars] in Hd. apply andb_prop in Hd as [Hc Hd].
    cbn [span_digits]. now rewrite Hc, (IH Hd).
Qed.

Lemma append_nil_r (s : string) : (s ++ "")%string = s.
Proof. induction s as [|c s IH]; app_step; congruence. Qed.

Lemma append_assoc (a b c : string) : ((a ++ b) ++ c)%string = (a ++ (b ++ c))%string.
Proof. induction a as [|x a IH]; app_step; congruence. Qed.

(** What a digit is not. *)
Lemma digit_head (c : ascii) (r : string) :
  is_digit c = true ->
  parseFloat (String c r) = parse_magnitude (String c r)
  /\ JsString.prefix "Infinity" (String c r) = false
  /\ is_e c = false /\ Ascii.eqb c "." = false.
Proof.
  destruct c as [[] [] [] [] [] [] [] []]; intros H; try discriminate H;
    repeat split; reflexivity.
Qed.

Lemma exp_part_head (e : Z) : no_digit_head (exp_part e) = true.
Proof. reflexivity. Qed.

Lemma span_exponent_exp_part (e : Z) : span_exponent (exp_part e) = Some (e, EmptyString).
Proof.
  unfold exp_part, span_exponent. cbn [is_e Ascii.eqb Bool.eqb orb].
  change (is_e "e") with true. cbv iota.
  destruct (show_N_spec (Z.to_N (Z.abs e))) as (H1 & H2 & H3 & _). cbn zeta in *.
  set (d := show_N (Z.to_N (Z.abs e))) in *.
  assert (Hs : span_digits d = (d, EmptyString)).
  { rewrite <- (append_nil_r d) at 1. now apply span_digits_app. }
  destruct (e <? 0) eqn:He; cbv iota; rewrite Hs;
    (destruct d; [cbn in H3; lia|]); f_equal; f_equal; rewrite H2;
    [apply Z.ltb_lt in He|apply Z.ltb_ge in He]; lia.
Qed.

Lemma span_unsigned_literal (ip fp tail : string) (x : Z) :
  all_chars is_digit ip = true -> ip <> EmptyString ->
  all_chars is_digit fp = true ->
  (tail = EmptyString /\ x = 0) \/ tail = exp_part x ->
  span_unsigned (ip ++ frac_part fp ++ tail)
  = Some (val (ip ++ fp), - Z.of_nat (String.length fp) + x, EmptyString).
Proof.
  intros Hip Hne Hfp Htail. unfold span_unsigned.
  assert (Ht : no_digit_head tail = true).
  { destruct Htail as [[-> _]| ->]; reflexivity. }
  rewrite span_digits_app; auto.
  2:{ destruct fp; [exact Ht|reflexivity]. }
  destruct ip as [|c0 ip]; [congruence|].
  destruct fp as [|c fp].
  - cbn [frac_part String.length]. app_step. repeat rewrite append_nil_r.
    destruct Htail as [[-> ->]| ->].
    + repeat rewrite append_nil_r. reflexivity.
    + pose proof (span_exponent_exp_part x) as Hx.
      unfold exp_part in *. cbv beta iota zeta. cbn [Ascii.eqb Bool.eqb].
      cbv beta iota zeta. rewrite Hx. repeat rewrite append_nil_r. reflexivity.
  - cbn [frac_part]. app_step. cbv beta iota zeta. cbn [Ascii.eqb Bool.eqb].
    pose proof (span_digits_app (String c fp) tail Hfp Ht) as Hs.
    app_step_in Hs. rewrite Hs. cbv beta iota zeta.
    destruct Htail as [[-> ->]| ->].
    + cbn [span_exponent]. app_step. now rewrite Z.add_0_r.
    + rewrite span_exponent_exp_part. app_step. reflexivity.
Qed.

(** [m * 10^-k] as [parseFloat] builds it. *)
Lemma scaled_neg (m : Z) (k : nat) : scaled m (- Z.of_nat k) = fin m k.
Proof.
  unfold scaled. destruct k as [|k].
  - cbn. now rewrite Z.mul_1_r.
  - replace (0 <=? - Z.of_nat (S k)) with false by (symmetry; apply Z.leb_gt; lia).
    now rewrite Z.opp_involutive, Nat2Z.id.
Qed.

(** A positional literal reads as its digits over a power of ten. *)
Lemma parseFloat_positional (ip fp : string) :
  all_chars is_digit ip = true -> ip <> EmptyString ->
  all_chars is_digit fp = true ->
  parseFloat (ip ++ frac_part fp) = fin (val (ip ++ fp)) (String.length fp)
  /\ float_pattern (ip ++ frac_part fp) = true.
Proof.
  intros Hip Hne Hfp. split.
  - pose proof (span_unsigned_literal ip fp EmptyString 0 Hip Hne Hfp
                  (or_introl (conj eq_refl eq_refl))) as H.
    rewrite append_nil_r in H.
    destruct ip as [|c ip]; [congruence|]. cbn [all_chars] in Hip.
    apply andb_prop in Hip as [Hc _].
    app_step_in H. app_step.
    destruct (digit_head c (ip ++ frac_part fp) Hc) as (-> & Hi & _).
    unfold parse_magnitude. rewrite Hi, H, Z.add_0_r. apply scaled_neg.
  - unfold float_pattern.
    destruct ip as [|c ip]; [congruence|]. app_step.
    assert (Hc : is_digit c = true) by (cbn in Hip; now apply andb_prop in Hip as [? _]).
    replace (match String c (ip ++ frac_part fp) with
             | String "-" t | String "+" t => t
             | _ => String c (ip ++ frac_part fp)
             end) with (String c (ip ++ frac_part fp))
      by (destruct c as [[] [] [] [] [] [] [] []]; try discriminate Hc; reflexivity).
    change (String c (ip ++ frac_part fp)) with (String c ip ++ frac_part fp)%string.
    rewrite span_digits_app; auto; [|destruct fp; reflexivity].
    destruct fp as [|c' fp]; [reflexivity|]. cbn [frac_part].
    rewrite <- (append_nil_r (String c' fp)), span_digits_app; auto.
Qed.

(** ** Numbers as decimal fractions *)

Lemma pow10_pos (k : nat) : 0 < pow10 k.
Proof. unfold pow10. apply Z.pow_pos_nonneg; lia. Qed.

Lemma pow10_S (k : nat) : pow10 (S k) = 10 * pow10 k.
Proof. unfold pow10. rewrite Nat2Z.inj_succ, Z.pow_succ_r; lia. Qed.

Lemma pow10_add (a b : nat) : pow10 (a + b) = pow10 a * pow10 b.
Proof. unfold pow10. rewrite Nat2Z.inj_add, Z.pow_add_r; lia. Qed.

(** [normalize] keeps the value and leaves no trailing zero in the fraction. *)
Lemma normalize_spec (m : Z) (k : nat) :
  (snd (normalize m k) <= k)%nat
  /\ m = fst (normalize m k) * pow10 (k - snd (normalize m k))
  /\ (snd (normalize m k) <> O -> fst (normalize m k) mod 10 <> 0).
Proof.
  revert m. induction k as [|k IH]; intros m.
  - cbn [normalize fst snd Nat.sub]. change (pow10 0) with 1.
    split; [lia|]. split; [lia|]. intros H. now destruct H.
  - cbn [normalize]. destruct (m mod 10 =? 0) eqn:E.
    + destruct (IH (m / 10)) as (H1 & H2 & H3).
      repeat split; [lia| |exact H3].
      replace (S k - snd (normalize (m / 10) k))%nat
        with (S (k - snd (normalize (m / 10) k))) by lia.
      rewrite pow10_S. apply Z.eqb_eq in E.
      pose proof (Z.div_mod m 10 ltac:(lia)) as Hm. rewrite E in Hm.
      rewrite Hm at 1. rewrite H2 at 1. ring.
    + cbn [fst snd]. rewrite Nat.sub_diag. change (pow10 0) with 1.
      repeat split; [lia|lia|]. intros _. now apply Z.eqb_neq.
Qed.

Lemma normalize_fixed (m : Z) (k : nat) :
  (k <> O -> m mod 10 <> 0) -> normalize m k = (m, k).
Proof.
  destruct k as [|k]; [reflexivity|]. intros H. cbn [normalize].
  destruct (m mod 10 =? 0) eqn:E; [|reflexivity].
  apply Z.eqb_eq in E. now destruct H.
Qed.

Lemma normalize_idem (m : Z) (k : nat) :
  normalize (fst (normalize m k)) (snd (normalize m k)) = normalize m k.
Proof.
  destruct (normalize_spec m k) as (_ & _ & H).
  rewrite (normalize_fixed _ _ H). now destruct (normalize m k).
Qed.

Lemma fin_normalize (m : Z) (k : nat) :
  fin (fst (normalize m k)) (snd (normalize m k)) = fin m k.
Proof. unfold fin. now rewrite normalize_idem. Qed.

Lemma fin_Fin (m : Z) (k : nat) :
  fin m k = Fin (fst (normalize m k)) (snd (normalize m k)).
Proof. unfold fin. now destruct (normalize m k). Qed.

(** The comparisons do not see the representation. *)
Lemma pow10_split (k j : nat) : (j <= k)%nat -> pow10 k = pow10 j * pow10 (k - j).
Proof. intros H. rewrite <- pow10_add. f_equal. lia. Qed.

Lemma ltb_fin_l (m : Z) (k : nat) (a : Z) (b : nat) :
  ltb (fin m k) (Fin a b) = ltb (Fin m k) (Fin a b).
Proof.
  rewrite fin_Fin. destruct (normalize_spec m k) as (H1 & H2 & _).
  set (m' := fst (normalize m k)) in *. set (k' := snd (normalize m k)) in *.
  cbn [ltb]. rewrite (pow10_split k k' H1).
  pose proof (pow10_pos (k - k')) as HP. set (P := pow10 (k - k')) in *.
  clearbody m' k' P. subst m.
  destruct (Z.ltb_spec (m' * pow10 b) (a * pow10 k'));
    destruct (Z.ltb_spec (m' * P * pow10 b) (a * (pow10 k' * P))); auto; nia.
Qed.

Lemma ltb_fin_r (m : Z) (k : nat) (a : Z) (b : nat) :
  ltb (Fin a b) (fin m k) = ltb (Fin a b) (Fin m k).
Proof.
  rewrite fin_Fin. destruct (normalize_spec m k) as (H1 & H2 & _).
  set (m' := fst (normalize m k)) in *. set (k' := snd (normalize m k)) in *.
  cbn [ltb]. rewrite (pow10_split k k' H1).
  pose proof (pow10_pos (k - k')) as HP. set (P := pow10 (k - k')) in *.
  clearbody m' k' P. subst m.
  destruct (Z.ltb_spec (a * pow10 k') (m' * pow10 b));
    destruct (Z.ltb_spec (a * (pow10 k' * P)) (m' * P * pow10 b)); auto; nia.
Qed.

Lemma eqb_fin_l (m : Z) (k : nat) (a : Z) (b : nat) :
  eqb (fin m k) (Fin a b) = eqb (Fin m k) (Fin a b).
Proof.
  rewrite fin_Fin. destruct (normalize_spec m k) as (H1 & H2 & _).
  set (m' := fst (normalize m k)) in *. set (k' := snd (normalize m k)) in *.
  cbn [eqb]. rewrite (pow10_split k k' H1).
  pose proof (pow10_pos (k - k')) as HP. set (P := pow10 (k - k')) in *.
  clearbody m' k' P. subst m.
  destruct (Z.eqb_spec (m' * pow10 b) (a * pow10 k'));
    destruct (Z.eqb_spec (m' * P * pow10 b) (a * (pow10 k' * P))); auto; nia.
Qed.

Lemma eqb_fin_r (m : Z) (k : nat) (a : Z) (b : nat) :
  eqb (Fin a b) (fin m k) = eqb (Fin a b) (Fin m k).
Proof.
  rewrite fin_Fin. destruct (normalize_spec m k) as (H1 & H2 & _).
  set (m' := fst (normalize m k)) in *. set (k' := snd (normalize m k)) in *.
  cbn [eqb]. rewrite (pow10_split k k' H1).
  pose proof (pow10_pos (k - k')) as HP. set (P := pow10 (k - k')) in *.
  clearbody m' k' P. subst m.
  destruct (Z.eqb_spec (a * pow10 k') (m' * pow10 b));
    destruct (Z.eqb_spec (a * (pow10 k' * P)) (m' * P * pow10 b)); auto; nia.
Qed.

(** ** The string of a number *)

Lemma string_take_drop (n : nat) (s : string) : (take n s ++ drop n s)%string = s.
Proof.
  revert s. induction n as [|n IH]; intros [|c s]; cbn [take drop]; app_step;
    try reflexivity. now rewrite IH.
Qed.

Lemma string_length_take (n : nat) (s : string) :
  (n <= String.length s)%nat -> String.length (take n s) = n.
Proof.
  revert s. induction n as [|n IH]; intros [|c s]; cbn [take String.length];
    intros H; try lia. rewrite IH; lia.
Qed.

Lemma string_length_drop (n : nat) (s : string) :
  String.length (drop n s) = (String.length s - n)%nat.
Proof.
  revert s. induction n as [|n IH]; intros [|c s]; cbn [drop String.length];
    try lia. apply IH.
Qed.

Lemma all_chars_take_drop p (n : nat) (s : string) :
  all_chars p s = true ->
  all_chars p (take n s) = true /\ all_chars p (drop n s) = true.
Proof.
  intros H. rewrite <- (string_take_drop n s), all_chars_app in H.
  now apply andb_prop in H.
Qed.

Lemma repeat0_spec (n : nat) :
  all_chars is_digit (repeat0 n) = true
  /\ String.length (repeat0 n) = n
  /\ forall s, val (repeat0 n ++ s) = val s.
Proof.
  induction n as [|n (H1 & H2 & H3)]; cbn [repeat0].
  - repeat split.
  - repeat split.
    + cbn [all_chars]. now rewrite H1.
    + cbn [String.length]. now rewrite H2.
    + intros s. app_step. unfold val at 1. cbn [val_acc].
      change (10 * 0 + digit_val "0") with 0. apply H3.
Qed.

Lemma strip_zeros_pos (fuel : nat) (m : N) :
  (0 < m)%N -> (0 < strip_zeros fuel m)%N.
Proof.
  revert m. induction fuel as [|f IH]; intros m H; cbn [strip_zeros]; [exact H|].
  destruct ((m mod 10 =? 0)%N && negb (m =? 0)%N) eqn:E; [|exact H].
  apply andb_prop in E as [E _]. apply N.eqb_eq in E. apply IH.
  pose proof (N.div_mod m 10 ltac:(lia)) as Hm. rewrite E in Hm. lia.
Qed.

(** The positional forms: digits, or digits, a point and [k] digits. *)
Lemma show_pos_positional (m : N) (k : nat) :
  -6 < point m k <= 21 ->
  exists ip fp,
    show_pos m k = (ip ++ frac_part fp)%string
    /\ all_chars is_digit ip = true /\ ip <> EmptyString
    /\ all_chars is_digit fp = true /\ String.length fp = k
    /\ val (ip ++ fp) = Z.of_N m.
Proof.
  unfold point, show_pos.
  destruct (show_N_spec m) as (HD & Hv & HL & _). cbn zeta in *.
  set (D := show_N m) in *. set (n := Z.of_nat (String.length D) - Z.of_nat k).
  intros Hn. destruct (Nat.eqb_spec k 0) as [->|Hk].
  - replace (n <=? 21) with true by (symmetry; apply Z.leb_le; lia).
    exists D, EmptyString. cbn [frac_part andb String.length].
    rewrite append_nil_r.
    split; [reflexivity|split; [exact HD|split; [|split; [reflexivity|split; [reflexivity|]]]]].
    + intros E. rewrite E in HL. cbn in HL. lia.
    + exact Hv.
  - cbn [andb]. destruct (Z.ltb_spec 0 n) as [H0|H0].
    + replace (n <=? 21) with true by (symmetry; apply Z.leb_le; lia).
      cbn [andb].
      destruct (all_chars_take_drop is_digit (Z.to_nat n) D HD) as [Ht Hd].
      assert (Hlen : String.length (drop (Z.to_nat n) D) = k).
      { rewrite string_length_drop. lia. }
      exists (take (Z.to_nat n) D), (drop (Z.to_nat n) D).
      split; [|split; [exact Ht|split; [|split; [exact Hd|split; [exact Hlen|]]]]].
      * destruct (drop (Z.to_nat n) D); [cbn in Hlen; lia|reflexivity].
      * intros E. pose proof (string_length_take (Z.to_nat n) D ltac:(lia)) as Hl.
        rewrite E in Hl. cbn in Hl. lia.
      * now rewrite string_take_drop.
    + cbn [andb].
      replace ((-6 <? n) && (n <=? 0)) with true
        by (symmetry; apply andb_true_intro; split;
            [apply Z.ltb_lt|apply Z.leb_le]; lia).
      destruct (repeat0_spec (Z.to_nat (- n))) as (Hz1 & Hz2 & Hz3).
      exists "0"%string, (repeat0 (Z.to_nat (- n)) ++ D)%string.
      assert (Hlen : String.length (repeat0 (Z.to_nat (- n)) ++ D) = k).
      { rewrite string_length_app, Hz2. lia. }
      split; [|split; [reflexivity|split; [discriminate|split; [|split; [exact Hlen|]]]]].
      * destruct (repeat0 (Z.to_nat (- n)) ++ D)%string; [|reflexivity].
        cbn in Hlen. lia.
      * rewrite all_chars_app, Hz1, HD. reflexivity.
      * app_step. unfold val at 1. cbn [val_acc].
        change (10 * 0 + digit_val "0") with 0.
        fold (val (repeat0 (Z.to_nat (- n)) ++ D)). now rewrite Hz3.
Qed.

(** The exponent form: one digit, a fraction, and the exponent. *)
Lemma show_pos_exponent (m : N) (k : nat) :
  (0 < m)%N -> (point m k <= -6 \/ 21 < point m k) ->
  exists c r,
    show_pos m k = String c (frac_part r ++ exp_part (point m k - 1))
    /\ all_chars is_digit (String c r) = true
    /\ 10 ^ Z.of_nat (String.length r) <= val (String c r)
       < 10 ^ Z.of_nat (S (String.length r)).
Proof.
  unfold point, show_pos. intros Hm.
  set (D := show_N m) in *. set (n := Z.of_nat (String.length D) - Z.of_nat k).
  intros Hn.
  pose proof (strip_zeros_pos (String.length D) m Hm) as Hz.
  destruct (show_N_spec (strip_zeros (String.length D) m)) as (Hs & Hv & HL & Hlo).
  cbn zeta in *. set (s := show_N (strip_zeros (String.length D) m)) in *.
  specialize (Hlo Hz). pose proof (val_bounds s Hs) as Hhi.
  replace ((k =? 0)%nat && (n <=? 21)) with false; cycle 1.
  { symmetry. apply andb_false_iff. destruct (Nat.eqb_spec k 0) as [->|Hk]; auto.
    right. apply Z.leb_gt. destruct (show_N_spec m) as (_ & _ & HL' & _).
    fold D in HL'. lia. }
  replace ((0 <? n) && (n <=? 21)) with false; cycle 1.
  { symmetry. apply andb_false_iff. destruct Hn; [left; apply Z.ltb_ge|right; apply Z.leb_gt]; lia. }
  replace ((-6 <? n) && (n <=? 0)) with false; cycle 1.
  { symmetry. apply andb_false_iff. destruct Hn; [left; apply Z.ltb_ge|right; apply Z.leb_gt]; lia. }
  destruct s as [|c r]; [cbn in HL; lia|]. exists c, r.
  cbn [String.length] in *. replace (Z.of_nat (S (String.length r)) - 1)
    with (Z.of_nat (String.length r)) in Hlo by lia.
  split; [|split; [exact Hs|lia]].
  destruct r; [reflexivity|]. cbn [frac_part]. app_step. reflexivity.
Qed.

(** ** Reading the string of a number *)

Lemma split_digits (d : string) :
  all_chars is_digit d = true -> split "." d = [d].
Proof.
  induction d as [|c d IH]; [reflexivity|]. cbn [all_chars split].
  intros [Hc Hd]%andb_prop. destruct (digit_head c d Hc) as (_ & _ & _ & ->).
  now rewrite (IH Hd).
Qed.

Lemma split_digits_point (d t : string) :
  all_chars is_digit d = true ->
  split "." (d ++ String "." t) = d :: split "." t.
Proof.
  induction d as [|c d IH]; app_step; [reflexivity|]. cbn [all_chars split].
  intros [Hc Hd]%andb_prop. destruct (digit_head c d Hc) as (_ & _ & _ & ->).
  now rewrite (IH Hd).
Qed.

Lemma split_positional (ip fp : string) :
  all_chars is_digit ip = true -> all_chars is_digit fp = true ->
  split "." (ip ++ frac_part fp) =
  match fp with EmptyString => [ip] | _ => [ip; fp] end.
Proof.
  intros Hip Hfp. destruct fp as [|c fp]; cbn [frac_part].
  - rewrite append_nil_r. now apply split_digits.
  - rewrite split_digits_point, split_digits; auto.
Qed.

Lemma span_digits_digits (s : string) :
  all_chars is_digit (fst (span_digits s)) = true.
Proof.
  induction s as [|c s IH]; [reflexivity|]. cbn [span_digits].
  destruct (is_digit c) eqn:E; [|reflexivity].
  destruct (span_digits s) as [d t]. cbn [fst all_chars] in *. now rewrite E.
Qed.

Lemma span_unsigned_nonneg (s : string) (m e : Z) (t : string) :
  span_unsigned s = Some (m, e, t) -> 0 <= m.
Proof.
  unfold span_unsigned. pose proof (span_digits_digits s) as Hip.
  destruct (span_digits s) as [ip r1]. cbn [fst] in Hip.
  assert (Hgen : forall fp r2,
             all_chars is_digit fp = true ->
             match ip, fp with
             | EmptyString, EmptyString => None
             | _, _ =>
                 match span_exponent r2 with
                 | Some (x, r3) =>
                     Some (val (ip ++ fp), - Z.of_nat (String.length fp) + x, r3)
                 | None => Some (val (ip ++ fp), - Z.of_nat (String.length fp), r2)
                 end
             end = Some (m, e, t) -> 0 <= m).
  { intros fp r2 Hfp H.
    assert (Hv : 0 <= val (ip ++ fp)).
    { apply val_bounds. now rewrite all_chars_app, Hip, Hfp. }
    destruct ip, fp; try discriminate H;
      destruct (span_exponent r2) as [[x r3]|]; injection H as <- _ _; exact Hv. }
  destruct r1 as [|c r];
    [intros H; exact (Hgen EmptyString EmptyString eq_refl H)|].
  pose proof (span_digits_digits r) as Hf.
  destruct (span_digits r) as [f t']. cbn [fst] in Hf.
  destruct (Ascii.eqb_spec c ".") as [->|Hc].
  - intros H. destruct ip; [destruct f|].
    + discriminate H.
    + exact (Hgen _ _ Hf H).
    + exact (Hgen _ _ Hf H).
  - intros H. apply (Hgen EmptyString (String c r) eq_refl).
    destruct c as [[] [] [] [] [] [] [] []]; try exact H. now destruct Hc.
Qed.

Lemma parse_magnitude_nonneg (s : string) : nonneg (parse_magnitude s).
Proof.
  unfold parse_magnitude. destruct (JsString.prefix "Infinity" s); [reflexivity|].
  destruct (span_unsigned s) as [[[m e] t]|] eqn:E; [|exact I].
  apply span_unsigned_nonneg in E. unfold scaled.
  destruct (0 <=? e) eqn:He.
  - cbn. apply Z.leb_le in He. apply Z.mul_nonneg_nonneg; [exact E|].
    now apply Z.pow_nonneg.
  - rewrite fin_Fin. cbn.
    destruct (normalize_spec m (Z.to_nat (- e))) as (_ & H & _).
    pose proof (pow10_pos (Z.to_nat (- e) - snd (normalize m (Z.to_nat (- e))))).
    nia.
Qed.

(** No literal with a minus sign reaches the least amount. *)
Lemma isFloat_negative (s : string) :
  isFloat min_amount max_amount (String "-" s) = false.
Proof.
  unfold isFloat. destruct (mem _ _); [reflexivity|].
  assert (H : geb (parseFloat (String "-" s)) min_amount = false).
  { change (parseFloat (String "-" s)) with (apply_sign true (parse_magnitude s)).
    pose proof (parse_magnitude_nonneg s) as Hn.
    destruct (parse_magnitude s) as [|b|m k]; cbn in Hn |- *; [reflexivity|now subst|].
    unfold geb, leb, min_amount. cbn [ltb eqb].
    pose proof (pow10_pos k).
    apply orb_false_intro; [apply Z.ltb_ge|apply Z.eqb_neq];
      change (pow10 2) with 100; lia. }
  rewrite H. now rewrite andb_false_r.
Qed.

Lemma mem_digit_head (c : ascii) (r : string) :
  is_digit c = true -> mem (String c r) [""; "."; ","; "-"; "+"]%string = false.
Proof.
  destruct c as [[] [] [] [] [] [] [] []]; intros H; try discriminate H; reflexivity.
Qed.

(** On a positional literal [isFloat] compares the number read. *)
Lemma isFloat_positional (lo hi : number) (ip fp : string) :
  all_chars is_digit ip = true -> ip <> EmptyString ->
  all_chars is_digit fp = true ->
  isFloat lo hi (ip ++ frac_part fp) =
  geb (fin (val (ip ++ fp)) (String.length fp)) lo
  && leb (fin (val (ip ++ fp)) (String.length fp)) hi.
Proof.
  intros Hip Hne Hfp. unfold isFloat.
  destruct (parseFloat_positional ip fp Hip Hne Hfp) as [-> ->].
  destruct ip as [|c ip]; [congruence|]. app_step.
  rewrite mem_digit_head; [reflexivity|].
  cbn [all_chars] in Hip. now apply andb_prop in Hip as [? _].
Qed.

Lemma parseFloat_exponent (c : ascii) (r : string) (x : Z) :
  all_chars is_digit (String c r) = true ->
  parseFloat (String c (frac_part r ++ exp_part x))
  = scaled (val (String c r)) (- Z.of_nat (String.length r) + x).
Proof.
  intros H. cbn [all_chars] in H. apply andb_prop in H as [Hc Hr].
  destruct (digit_head c (frac_part r ++ exp_part x) Hc) as (-> & Hi & _).
  unfold parse_magnitude. rewrite Hi.
  pose proof (span_unsigned_literal (String c EmptyString) r (exp_part x) x) as H.
  app_step_in H. rewrite H; auto.
  cbn [all_chars]. now rewrite Hc.
Qed.

Lemma pow10_le (a b : nat) : (a <= b)%nat -> pow10 a <= pow10 b.
Proof. intros H. unfold pow10. apply Z.pow_le_mono_r; lia. Qed.

(** A number printed with an exponent is below a millionth or at least
    [10^21]: out of the range of amounts. *)
Lemma isFloat_exponent (c : ascii) (r : string) (n : Z) :
  all_chars is_digit (String c r) = true ->
  10 ^ Z.of_nat (String.length r) <= val (String c r)
    < 10 ^ Z.of_nat (S (String.length r)) ->
  n <= -6 \/ 21 < n ->
  isFloat min_amount max_amount (String c (frac_part r ++ exp_part (n - 1))) = false.
Proof.
  intros Hd Hz Hn. unfold isFloat. destruct (mem _ _); [reflexivity|].
  rewrite (parseFloat_exponent c r (n - 1) Hd).
  set (z := val (String c r)) in *. set (L := String.length r) in *.
  fold (pow10 L) in Hz. fold (pow10 (S L)) in Hz. rewrite pow10_S in Hz.
  unfold scaled. destruct (Z.leb_spec 0 (- Z.of_nat L + (n - 1))) as [He|He].
  - assert (Hhi : leb (Fin (z * 10 ^ (- Z.of_nat L + (n - 1))) 0) max_amount = false).
    { destruct Hn as [Hn|Hn]; [lia|].
      assert (Hbig : 10 ^ 21 <= z * 10 ^ (- Z.of_nat L + (n - 1))).
      { replace 21 with (Z.of_nat L + (21 - Z.of_nat L)) at 1 by lia.
        destruct (Z.le_gt_cases (Z.of_nat L) 21) as [HL|HL].
        - rewrite Z.pow_add_r by lia. fold (pow10 L).
          assert (10 ^ (21 - Z.of_nat L) <= 10 ^ (- Z.of_nat L + (n - 1)))
            by (apply Z.pow_le_mono_r; lia).
          pose proof (pow10_pos L).
          assert (0 < 10 ^ (21 - Z.of_nat L)) by (apply Z.pow_pos_nonneg; lia).
          nia.
        - replace (Z.of_nat L + (21 - Z.of_nat L)) with 21 by lia.
          assert (10 ^ 21 <= pow10 L) by (apply Z.pow_le_mono_r; lia).
          assert (1 <= 10 ^ (- Z.of_nat L + (n - 1)))
            by (apply (Z.pow_le_mono_r 10 0); lia).
          nia. }
      unfold leb, max_amount. cbn [ltb eqb]. change (pow10 0) with 1.
      change (pow10 2) with 100. change (10 ^ 21) with 1000000000000000000000 in Hbig.
      apply orb_false_intro; [apply Z.ltb_ge|apply Z.eqb_neq]; lia. }
    rewrite Hhi. now rewrite andb_false_r.
  - set (j := Z.to_nat (- (- Z.of_nat L + (n - 1)))).
    destruct Hn as [Hn|Hn].
    + assert (Hlo : geb (fin z j) min_amount = false).
      { unfold geb, leb, min_amount. rewrite ltb_fin_r, eqb_fin_r. cbn [ltb eqb].
        change (pow10 2) with 100.
        assert (pow10 (L + 3) <= pow10 j) by (apply pow10_le; lia).
        rewrite pow10_add in H. change (pow10 3) with 1000 in H.
        apply orb_false_intro; [apply Z.ltb_ge|apply Z.eqb_neq]; lia. }
      rewrite Hlo. now rewrite andb_false_r.
    + assert (Hhi : leb (fin z j) max_amount = false).
      { unfold leb, max_amount. rewrite ltb_fin_l, eqb_fin_l. cbn [ltb eqb].
        change (pow10 2) with 100.
        assert (HL : pow10 L = pow10 j * pow10 (L - j)) by (apply pow10_split; lia).
        assert (pow10 21 <= pow10 (L - j)) by (apply pow10_le; lia).
        change (pow10 21) with 1000000000000000000000 in H.
        pose proof (pow10_pos j).
        apply orb_false_intro; [apply Z.ltb_ge|apply Z.eqb_neq]; nia. }
      rewrite Hhi. now rewrite andb_false_r.
Qed.

(** ** The amount of a transaction (C7) *)

Lemma cents_normalize (m : Z) (k : nat) :
  cents (Fin m k) <-> cents_normal (fst (normalize m k)) (snd (normalize m k)).
Proof.
  destruct (normalize_spec m k) as (H1 & H2 & H3).
  set (m' := fst (normalize m k)) in *. set (k' := snd (normalize m k)) in *.
  pose proof (pow10_split k k' H1) as Hk.
  pose proof (pow10_pos (k - k')) as HP. pose proof (pow10_pos k') as HQ.
  set (P := pow10 (k - k')) in *. clearbody m' k' P.
  unfold cents, cents_normal. cbn [eqb]. change (pow10 2) with 100. split.
  - intros (c & Hc & E). apply Z.eqb_eq in E. rewrite H2, Hk in E.
    assert (E' : m' * 100 = c * pow10 k') by nia.
    assert (Hk2 : (k' <= 2)%nat).
    { destruct (Nat.le_gt_cases k' 2) as [|Hgt]; [assumption|exfalso].
      apply H3; [lia|].
      assert (Hq : pow10 k' = pow10 3 * pow10 (k' - 3)) by (apply pow10_split; lia).
      change (pow10 3) with 1000 in Hq.
      assert (Hm : m' = (c * pow10 (k' - 3)) * 10) by nia.
      rewrite Hm. apply Z.mod_mul. lia. }
    repeat split; [nia|exact Hk2|nia].
  - intros (Hm & Hk2 & Hhi).
    assert (Hq : 100 = pow10 k' * pow10 (2 - k')) by (apply (pow10_split 2); lia).
    pose proof (pow10_pos (2 - k')) as HR. set (R := pow10 (2 - k')) in *.
    exists (m' * R). split; [nia|]. apply Z.eqb_eq. rewrite H2, Hk. nia.
Qed.

Lemma amount_accepts_Fin (m : Z) (k : nat) :
  amount_accepts (JNum (Fin m k)) =
  isFloat min_amount max_amount (JsNumber.toString (Fin m k))
  && decimals_ok (JsNumber.toString (Fin m k)).
Proof.
  unfold amount_accepts, amount_decimals, decimals_ok.
  cbn [EV.toString js_String method_toString]. f_equal.
  destruct (split "." (JsNumber.toString (Fin m k))) as [|a [|f l]]; try reflexivity.
  now destruct (negb (String.eqb f "") && Nat.ltb 2 (String.length f)).
Qed.

Lemma decimals_ok_positional (ip fp : string) :
  all_chars is_digit ip = true -> all_chars is_digit fp = true ->
  decimals_ok (ip ++ frac_part fp) = Nat.leb (String.length fp) 2.
Proof.
  intros Hip Hfp. unfold decimals_ok. rewrite split_positional by assumption.
  destruct fp as [|c fp]; [reflexivity|].
  change (String.eqb (String c fp) "") with false. cbn [negb andb].
  destruct (Nat.leb_spec (String.length (String c fp)) 2);
    destruct (Nat.ltb_spec 2 (String.length (String c fp))); auto; lia.
Qed.

(** The amounts the chain accepts among the numbers. *)
Lemma amount_accepts_number (n : number) :
  amount_accepts (JNum n) = true <-> cents n.
Proof.
  destruct n as [|b|m k].
  - split; [discriminate|]. intros (c & _ & H). discriminate H.
  - split; [destruct b; discriminate|]. intros (c & _ & H). discriminate H.
  - rewrite cents_normalize, amount_accepts_Fin. unfold JsNumber.toString.
    destruct (normalize_spec m k) as (_ & _ & Hnz).
    destruct (normalize m k) as [m' k']. cbn [fst snd] in *.
    unfold cents_normal. destruct (Z.eqb_spec m' 0) as [->|H0].
    { split; [discriminate|lia]. }
    destruct (Z.ltb_spec m' 0) as [Hneg|Hpos].
    { rewrite isFloat_negative. split; [discriminate|lia]. }
    assert (Hm : (0 < Z.to_N m')%N) by lia.
    assert (Hz : Z.of_N (Z.to_N m') = m') by lia.
    set (mN := Z.to_N m') in *.
    destruct (Z_lt_le_dec (-6) (point mN k')) as [Hlo|Hlo];
      [destruct (Z_le_gt_dec (point mN k') 21) as [Hhi|Hhi]|].
    + destruct (show_pos_positional mN k' (conj Hlo Hhi))
        as (ip & fp & -> & Hip & Hne & Hfp & Hlen & Hv).
      rewrite isFloat_positional, decimals_ok_positional by assumption.
      rewrite Hv, Hlen, Hz. unfold geb, leb, min_amount, max_amount.
      rewrite ltb_fin_r, eqb_fin_r, ltb_fin_l, eqb_fin_l. cbn [ltb eqb].
      change (pow10 2) with 100.
      rewrite !andb_true_iff, !orb_true_iff, !Z.ltb_lt, !Z.eqb_eq, Nat.leb_le.
      pose proof (pow10_pos k') as HQ.
      split; [intros [[_ H1] H2]; lia|]. intros (H1 & H2 & H3).
      assert (pow10 k' <= pow10 2) by now apply pow10_le.
      change (pow10 2) with 100 in *. lia.
    + apply Z.gt_lt in Hhi.
      destruct (show_pos_exponent mN k' Hm (or_intror Hhi))
        as (c & r & -> & Hd & Hb).
      rewrite (isFloat_exponent c r _ Hd Hb (or_intror Hhi)).
      split; [discriminate|]. intros (_ & Hk & Hle). exfalso.
      unfold point in Hhi.
      destruct (show_N_spec mN) as (_ & _ & HL & Hge). cbn zeta in *.
      specialize (Hge Hm). rewrite Hz in Hge.
      assert (10 ^ 21 <= 10 ^ (Z.of_nat (String.length (show_N mN)) - 1))
        by (apply Z.pow_le_mono_r; lia).
      change (10 ^ 21) with 1000000000000000000000 in *.
      assert (pow10 k' <= pow10 2) by now apply pow10_le.
      change (pow10 2) with 100 in *. lia.
    + destruct (show_pos_exponent mN k' Hm (or_introl Hlo))
        as (c & r & -> & Hd & Hb).
      rewrite (isFloat_exponent c r _ Hd Hb (or_introl Hlo)).
      split; [discriminate|]. intros (_ & Hk & _). exfalso.
      unfold point in Hlo. lia.
Qed.

Lemma values_scalar (v : JsVal) : is_array v = false -> values v = [v].
Proof. now destruct v. Qed.

(** The chain of [amount] on a body whose amount is not an array: the body is
    left as it is and the errors are those of the two steps. *)
Lemma run_amount (b : object) :
  is_array (get b "amount") = false ->
  exists errs,
    EV.run transactionValidations.amount b = Ok (set "amount" (get b "amount") b, errs)
    /\ (errs = [] <-> amount_accepts (get b "amount") = true).
Proof.
  intros Hv. unfold EV.run, transactionValidations.amount, chain, select.
  cbn [ch_items ch_wildcard ch_field run_items item_on_instances skipped
       ch_optional andb run_item bindE fst snd write_back].
  rewrite (values_scalar _ Hv). cbn [List.filter List.map].
  rewrite set_set. eexists. split; [reflexivity|].
  unfold amount_accepts.
  replace (amount_decimals (get b "amount") (set "amount" (get b "amount") b))
    with (amount_decimals (get b "amount") ∅) by reflexivity.
  destruct (isFloat min_amount max_amount (EV.toString (get b "amount")));
    destruct (amount_decimals (get b "amount") ∅); cbn; split; congruence.
Qed.

(** C7, as the code has it.  On the income route the amount reaches its
    schema rule through [sanitizeNumericFields], which replaces a string by
    the double that [parseFloat] reads from it.  For every amount that is
    not an array, the rule records no error exactly when the value it
    receives is a number between 0.01 and 999999999.99 with at most two
    digits after the point, that is a whole number of cents in that range;
    every number whose decimal string has more than two digits after the
    point is rejected, whatever its magnitude.  The digits are those of the
    number the rule receives, not those of the input. *)
Theorem C7_amount_in_range_with_two_decimals (b : object) :
  is_array (get b "amount") = false ->
  exists (v : JsVal) (b1 b2 : object) (errs : list ValidationError),
    List.map (fun c => EV.run c b) (sanitizeNumericFields ["amount"])
    = [Ok (b1, [])]
    /\ to_number (get b "amount") = Ok v
    /\ get b1 "amount" = v
    /\ EV.run transactionValidations.amount b1 = Ok (b2, errs)
    /\ (errs = [] <-> exists n, v = JNum n /\ cents n)
    /\ (forall m k, v = JNum (Fin m k) ->
          (2 < snd (normalize m k))%nat -> errs <> []).
Proof.
  intros Ha.
  assert (Hs : exists v, to_number (get b "amount") = Ok v /\ is_array v = false
                         /\ (forall s, v <> JStr s)).
  { destruct (get b "amount") as [| |x|n|s|l]; try discriminate Ha;
      eexists; (split; [reflexivity|split; [reflexivity|discriminate]]). }
  destruct Hs as (v & Hv & Hav & Hstr).
  exists v, (set "amount" v b).
  destruct (run_amount (set "amount" v b)) as (errs & Hrun & Herrs);
    [now rewrite get_set_eq|].
  rewrite get_set_eq in Hrun, Herrs. rewrite set_set in Hrun.
  exists (set "amount" v b), errs.
  assert (Hiff : errs = [] <-> exists n, v = JNum n /\ cents n).
  { rewrite Herrs. destruct v as [| |x|n|s|l].
    - split; [discriminate|]. intros (n & H & _). discriminate H.
    - split; [discriminate|]. intros (n & H & _). discriminate H.
    - split; [destruct x; discriminate|]. intros (n & H & _). discriminate H.
    - rewrite amount_accepts_number. split; [eauto|].
      now intros (n' & [= <-] & H).
    - now destruct (Hstr s).
    - discriminate Hav. }
  split; [|split; [exact Hv|split; [apply get_set_eq|split; [exact Hrun|split; [exact Hiff|]]]]].
  - cbn [sanitizeNumericFields List.map]. unfold EV.run, chain, select.
    cbn [ch_items ch_wildcard ch_field run_items item_on_instances skipped
         ch_optional andb run_item]. rewrite Hv. reflexivity.
  - intros m k -> Hk Hnil. apply Hiff in Hnil as (n & [= <-] & Hc).
    apply cents_normalize in Hc as (_ & Hc & _). lia.
Qed.

Lemma C7_amount_in_range_with_two_decimals_witness :
  exists (v : JsVal) (b1 b2 : object) (errs : list ValidationError),
    List.map (fun c => EV.run c (set "amount" (JStr "10.123") ∅))
      (sanitizeNumericFields ["amount"])
    = [Ok (b1, [])]
    /\ to_number (get (set "amount" (JStr "10.123") ∅) "amount") = Ok v
    /\ get b1 "amount" = v
    /\ EV.run transactionValidations.amount b1 = Ok (b2, errs)
    /\ (errs = [] <-> exists n, v = JNum n /\ cents n)
    /\ (forall m k, v = JNum (Fin m k) ->
          (2 < snd (normalize m k))%nat -> errs <> []).
Proof.
  apply (C7_amount_in_range_with_two_decimals (set "amount" (JStr "10.123") ∅)).
  reflexivity.
Defined.

(** C7 fails on the code: the digits are not counted on the input.  The
    string [10.120] has three digits after the point and the string
    [10.0000000000000000001] has nineteen; [parseFloat] reads the one as
    10.12 and the other as 10 before the rule sees them, the rule records
    nothing and the incomes are stored. *)
Lemma C7_counterexample :
  let post s :=
    run_route (authenticateToken :: income_post) createIncome Fixtures.E0
      Fixtures.db0
      (with_path "/" (Fixtures.post_income 1 (<["amount" := JStr s]> Fixtures.draft))) in
  let o := post "10.120" in
  let o' := post "10.0000000000000000001" in
  List.map String.length (List.skipn 1 (split "." "10.120")) = [3%nat]
  /\ to_number (JStr "10.120") = Ok (JNum (Fin 1012 2))
  /\ amount_accepts (JNum (Fin 1012 2)) = true
  /\ status (response o) = 201
  /\ validationErrors (response o) = []
  /\ List.map t_amount (incomes (db_after o)) = [Fin 1012 2]
  /\ List.map String.length (List.skipn 1 (split "." "10.0000000000000000001"))
     = [19%nat]
  /\ to_number (JStr "10.0000000000000000001") = Ok (JNum (Fin 10 0))
  /\ amount_accepts (JNum (Fin 10 0)) = true
  /\ status (response o') = 201
  /\ validationErrors (response o') = []
  /\ List.map t_amount (incomes (db_after o')) = [Fin 10 0].
Proof. vm_compute. repeat split. Qed.

(** The example of the specification, and its neighbours: [10.123] is
    rejected as a string and as a number; [10.12] is accepted; the string
    [10.100] is read as the number 10.1 before the rule sees it. *)
Lemma amount_examples :
  amount_accepts (JNum (parseFloat "10.123")) = false
  /\ amount_accepts (JNum (Fin 10123 3)) = false
  /\ amount_accepts (JNum (parseFloat "10.12")) = true
  /\ amount_accepts (JNum (parseFloat "10.100")) = true
  /\ amount_accepts (JNum (Fin 1 3)) = false
  /\ amount_accepts (JNum (Fin 100000000000 2)) = false
  /\ amount_accepts (JNum (Fin 1 2)) = true
  /\ amount_accepts (JNum (Fin 99999999999 2)) = true.
Proof. vm_compute. repeat split. Qed.

(** The doubles of some literals, as [toString] prints them: digits beyond
    the seventeenth are lost, ties go to the even double, the largest double
    and the smallest one are kept and what lies beyond them is an infinity
    or zero. *)
Lemma binary64_examples :
  List.map (fun s => JsNumber.toString (binary64 (parseFloat s)))
    ["0.1"; "10.120"; "999999999.99"; "-0.01";
     "10.0000000000000000001"; "0.3000000000000000444";
     "9007199254740993"; "9007199254740995"; "123456789012345678";
     "1.7976931348623157e308"; "1.7976931348623159e308"; "-1e400";
     "5e-324"; "2e-324"; "1e23"]
  = ["0.1"; "10.12"; "999999999.99"; "-0.01";
     "10"; "0.30000000000000004";
     "9007199254740992"; "9007199254740996"; "123456789012345680";
     "1.7976931348623157e+308"; "Infinity"; "-Infinity";
     "5e-324"; "0"; "1e+23"]%string.
Proof. vm_compute. reflexivity. Qed.

(** ** Posting a draft twice (C6) *)

(** *** What the front of the stack reads of the store *)




(** *** The amount that reaches the business rules *)

Lemma front_split_at_amount :
  authenticateToken :: income_front =
  (authenticateToken :: income_guards ++ List.firstn 5 income_sanitizers)
  ++ [sanitizer "sanitizeNumericFields"
        (fun _ => chain "amount" [CustomSanitizer to_number])]
  ++ (List.skipn 6 income_sanitizers ++ income_schema).
Proof. reflexivity. Qed.

(** No step of a chain of validators changes the value of its field. *)
Lemma chain_value_validators (c : Chain) (items : list Item) (v : JsVal) :
  forallb validator items = true -> chain_value c items v = Ok v.
Proof.
  induction items as [|it rest IH]; [reflexivity|]. cbn [forallb chain_value].
  intros [Hi Hr]%andb_prop. destruct (skipped c v); cbn [bindE]; [now apply IH|].
  destruct it; try discriminate Hi; cbn [item_value bindE]; now apply IH.
Qed.

Lemma validators_keep_field name stage (c : Env -> Chain) (k : string) E db r r' rd :
  ch_wildcard (c E) = false -> forallb validator (ch_items (c E)) = true ->
  mw_run (of_chain name stage c) E db r = (Next r', rd) ->
  get (body r') k = get (body r) k.
Proof.
  intros Hw Hv H. destruct (ch_items (c E)) as [|it rest] eqn:Hi.
  - apply of_chain_next in H as (b & es & Hrun & -> & _).
    unfold EV.run in Hrun. rewrite Hi in Hrun. cbn in Hrun.
    now injection Hrun as <- _.
  - apply chain_mw_effect in H as (v' & Hval & Hb & _); [|exact Hw|congruence].
    rewrite Hi, <- Hi, (chain_value_validators _ _ _) in Hval by (now rewrite Hi).
    injection Hval as <-. rewrite Hb.
    destruct (String.eqb_spec k (ch_field (c E))) as [->|Hk].
    + apply get_set_eq.
    + now apply get_set_ne.
Qed.

Lemma front_amount_not_a_string E db r r1 t1 :
  run_stack (authenticateToken :: income_front) E db r = (Next r1, t1) ->
  not_a_string (get (body r1) "amount").
Proof.
  intros H. rewrite front_split_at_amount, run_stack_app in H.
  match type of H with
  | context [run_stack ?l E db r] => destruct (run_stack l E db r) as [s0 t0]
  end.
  destruct s0 as [r0| |]; try discriminate.
  rewrite run_stack_app in H.
  match type of H with
  | context [run_stack [?m] E db r0] =>
      destruct (run_stack [m] E db r0) as [s2 t2] eqn:H2
  end.
  destruct s2 as [r2| |]; try discriminate.
  rewrite run_stack_cons in H2. cbn zeta in H2.
  match type of H2 with
  | context [mw_run ?m E db r0] => destruct (mw_run m E db r0) as [s rd2] eqn:Hnum
  end.
  destruct s as [x| |]; cbn [fst snd run_stack] in H2; try discriminate.
  injection H2 as -> _.
  apply chain_mw_effect in Hnum as (v' & Hval & Hb & _);
    [|reflexivity|discriminate].
  assert (H2 : not_a_string (get (body r2) "amount")).
  { rewrite Hb. cbn [ch_field chain]. rewrite get_set_eq.
    cbn [chain_value ch_items ch_field chain skipped ch_optional andb item_value
         bindE] in Hval.
    destruct (get (body r0) "amount"); cbn [to_number bindE] in Hval;
      injection Hval as <-; intros s'; discriminate. }
  match type of H with
  | context [run_stack ?l E db r2] =>
      destruct (run_stack l E db r2) as [s3 t3] eqn:H3
  end.
  destruct s3 as [r3| |]; try discriminate. injection H as <- _.
  eapply (run_stack_keeps (fun x => not_a_string (get (body x) "amount")));
    [|exact H2|exact H3].
  cbn [List.skipn income_sanitizers income_schema List.map Datatypes.app
       sanitizeNumericFields sanitizeBooleanFields].
  repeat (constructor;
          [intros E' db' x x' rd' Hx Hrun;
           first [ apply chain_mw_other with (k := "amount") in Hrun;
                   [now rewrite Hrun|cbn; discriminate]
                 | apply validators_keep_field with (k := "amount") in Hrun;
                   [now rewrite Hrun|reflexivity|reflexivity] ]|]).
  constructor.
Qed.

(** *** An amount read back from its string *)



(** *** The document of a created income *)


(** *** The business rules on the store after the first request *)



(** When the rules hand the request on, each of them did, to the same
    request. *)
Lemma run_stack_all_next (mws : list Middleware) E db r r' t :
  (forall m x x' rd, In m mws -> mw_run m E db x = (Next x', rd) -> x' = x) ->
  run_stack mws E db r = (Next r', t) ->
  r' = r /\ Forall (fun m => fst (mw_run m E db r) = Next r) mws.
Proof.
  revert t. induction mws as [|m mws IH]; intros t Hk H.
  - cbn in H. injection H as <- _. split; [reflexivity|constructor].
  - cbn [run_stack] in H. destruct (mw_run m E db r) as [s rd] eqn:Hm.
    destruct s as [x| |]; try discriminate.
    assert (x = r) as -> by (eapply Hk; [left; reflexivity|exact Hm]).
    destruct (run_stack mws E db r) as [s t'] eqn:Hrest. injection H as -> _.
    destruct (IH t') as [-> HF]; [|reflexivity|].
    + intros m' y y' rd' Hin. apply Hk. now right.
    + split; [reflexivity|]. constructor; [now rewrite Hm|exact HF].
Qed.

Lemma countDocuments_snoc (f : Transaction -> bool) (l : list Transaction)
    (x : Transaction) :
  countDocuments f l <= countDocuments f (l ++ [x]) <= countDocuments f l + 1.
Proof.
  unfold countDocuments. rewrite List.filter_app, List.length_app.
  cbn [List.filter].
  destruct (f x); cbn [List.length]; lia.
Qed.










(** The draft of the scenario has no payment method, which the route
    requires: it is answered 400 each time and never stored. *)
Lemma draft_without_payment_method_is_rejected :
  let r := with_path "/" (Fixtures.post_income 1 Fixtures.bare_draft) in
  let o := run_route (authenticateToken :: income_post) createIncome
             Fixtures.E0 Fixtures.db0 r in
  status (response o) = 400
  /\ List.map ve_path (validationErrors (response o)) = ["paymentMethod"]
  /\ db_after o = Fixtures.db0.
Proof. vm_compute. repeat split. Qed.

(** A draft stored as inactive is not a duplicate of itself. *)
Lemma inactive_document_is_posted_twice :
  let b := <["isActive" := JBool false]> Fixtures.draft in
  let r := with_path "/" (Fixtures.post_income 1 b) in
  let post := run_route (authenticateToken :: income_post) createIncome Fixtures.E0 in
  let first := post Fixtures.db0 r in
  status (response first) = 201
  /\ status (response (post (db_after first) r)) = 201.
Proof. vm_compute. split; reflexivity. Qed.

(** * More of the pipeline *)

(** ** What the route that creates an income answers and stores *)

(** The outcome of a request that creates an income: nothing stored and no
    201, or the front and the five rules passed without a validation error
    and the model accepted the body. *)
Lemma post_income_cases E db r :
  let o := run_route (authenticateToken :: income_post) createIncome E db r in
  (status (response o) <> 201 /\ db_after o = db)
  \/ exists r1 t0 id doc,
       run_stack (authenticateToken :: income_front) E db r = (Next r1, t0)
       /\ token r = Some id /\ user r1 = Some id /\ errors r1 = []
       /\ Forall (fun m => fst (mw_run m E db r1) = Next r1) income_rules
       /\ Models.create Models.Income E id (body r1) = Ok doc
       /\ response o = reply 201 "Ingreso creado exitosamente"
       /\ db_after o = Models.insert Models.Income doc db.
Proof.
  intros o. subst o. unfold run_route.
  rewrite income_post_split, run_stack_app.
  destruct (run_stack (authenticateToken :: income_front) E db r) as [s0 t0] eqn:Hfront.
  destruct s0 as [r1|resp|name].
  - destruct (front_passed E db r r1 t0 Hfront) as (id & u & Ht & Hu & _).
    rewrite run_stack_app.
    destruct (run_stack income_rules E db r1) as [s2 t2] eqn:Hrules.
    destruct s2 as [r2|resp|name].
    + destruct (run_stack_all_next income_rules E db r1 r2 t2) as [-> HF];
        [intros m x x' rd Hin Hm; eapply rule_next; eauto|exact Hrules|].
      cbn [run_stack mw_run handleValidationErrors].
      destruct (errors r1) as [|e es] eqn:Herr.
      * cbn [response db_after]. unfold createIncome, create. rewrite Herr, Hu.
        destruct (Models.create Models.Income E id (body r1)) as [doc|x] eqn:Hdoc.
        -- right. exists r1, t0, id, doc. cbn [response db_after]. auto 10.
        -- left. cbn. split; [discriminate|reflexivity].
      * left. cbn. split; [discriminate|reflexivity].
    + left. cbn [response db_after]. split; [|reflexivity].
      apply (run_stack_answers _ _ rules_answers) in Hrules as [_ H].
      cbn in H. intros E201. rewrite E201 in H. intuition discriminate.
    + exfalso. eapply (run_stack_never_raises _ rules_never_raise); eauto.
  - left. cbn [response db_after]. split; [|reflexivity].
    assert (Ha : Forall (answers (fun resp => status resp <> 201))
                   (authenticateToken :: income_front)).
    { constructor; [apply auth_answers|].
      eapply answers_weaken; [|apply front_answers].
      intros x [_ H] E201. cbn in H. rewrite E201 in H. intuition discriminate. }
    exact (run_stack_answers _ _ Ha _ _ _ _ _ Hfront).
  - left. cbn. split; [discriminate|reflexivity].
Qed.

(** The document the model stores, read off the body it was given. *)
Lemma create_document (k : Models.Kind) (E : Env) (id : Z) (b : object)
    (doc : Transaction) :
  Models.create k E id b = Ok doc ->
  t_user doc = id
  /\ (exists d0, Models.castString (get b "description") = Ok (Some d0)
                 /\ t_description doc = trim d0
                 /\ Models.within 3 200 (trim d0) = true)
  /\ Models.castNumber (get b "amount") = Ok (Some (t_amount doc))
  /\ geb (t_amount doc) min_amount = true /\ leb (t_amount doc) max_amount = true
  /\ Models.castString (get b "category") = Ok (Some (t_category doc))
  /\ mem (t_category doc) (Models.categories k) = true
  /\ (exists pm, match get b "paymentMethod" with
                 | JUndefined => Ok (Some "efectivo"%string)
                 | v => Models.castString v
                 end = Ok pm
                 /\ t_paymentMethod doc = default "efectivo"%string pm
                 /\ match pm with
                    | Some m => mem m Models.model_payment_methods
                    | None => true
                    end = true)
  /\ Models.castString (get b "recurringFrequency") = Ok (t_recurringFrequency doc)
  /\ match t_recurringFrequency doc with
     | Some f => mem f Models.model_frequencies = true
     | None => t_isRecurring doc = false
     end
  /\ match get b "tags" with
     | JUndefined | JNull => Ok []
     | JArr l => Models.castTags l
     | v => Models.castTags [v]
     end = Ok (t_tags doc)
  /\ forallb (fun t => Nat.leb (String.length t) 20) (t_tags doc) = true.
Proof.
  unfold Models.create. intros H.
  repeat match type of H with
         | context [bindE ?x _] =>
             let e := fresh "e" in
             destruct x as [?|?] eqn:e; cbn [bindE] in H; [|discriminate H]
         end.
  repeat match type of H with
         | context [match ?x with Some _ => _ | None => _ end] =>
             is_var x; destruct x; [|discriminate H]
         end.
  match type of H with
  | (if ?v then _ else _) = _ => destruct v eqn:Hvalid; [|discriminate H]
  end.
  injection H as <-.
  cbn [t_user t_amount t_category t_description t_paymentMethod
       t_recurringFrequency t_isRecurring t_tags].
  repeat (apply andb_prop in Hvalid as [Hvalid ?]).
  split; [reflexivity|].
  split; [eexists; split; [reflexivity|split; [reflexivity|]];
          first [assumption
                | unfold Models.within; apply andb_true_intro; split; assumption]|].
  split; [reflexivity|]. split; [assumption|]. split; [assumption|].
  split; [reflexivity|]. split; [assumption|].
  split; [eexists; split; [reflexivity|split; [reflexivity|assumption]]|].
  split; [reflexivity|]. split.
  - match goal with
    | H : match ?f with Some _ => _ | None => _ end = true
      |- match ?f with Some _ => _ | None => _ end =>
        destruct f; [exact H|];
        match type of H with
        | negb (bool_decide (?x = Some true)) = true =>
            destruct x as [[]|]; [discriminate H|reflexivity|reflexivity]
        end
    end.
  - split; [reflexivity|assumption].
Qed.

Lemma inline_keeps (P : Request -> Prop) k c :
  (forall r b es, P r -> P (add_errors es (with_body b r))) ->
  Forall (keeps P) (inline_chains k c).
Proof.
  intros HP. destruct k; cbn [inline_chains Datatypes.app];
    repeat (constructor; [now apply of_chain_keeps|]); constructor.
Qed.

(** The same for the route that creates an expense. *)
Lemma post_expense_cases E db r :
  let o := run_route (authenticateToken :: expense_post) createExpense E db r in
  (status (response o) <> 201 /\ db_after o = db)
  \/ exists r1 t0 id doc,
       run_stack (authenticateToken :: expense_post) E db r = (Next r1, t0)
       /\ token r = Some id /\ user r1 = Some id /\ errors r1 = []
       /\ Models.create Models.Expense E id (body r1) = Ok doc
       /\ response o = reply 201 "Gasto creado exitosamente"
       /\ db_after o = Models.insert Models.Expense doc db.
Proof.
  intros o. subst o. unfold run_route.
  destruct (run_stack (authenticateToken :: expense_post) E db r) as [s0 t0] eqn:Hrun.
  destruct s0 as [r1|resp|name].
  - assert (Hid : exists id, token r = Some id /\ user r1 = Some id).
    { rewrite run_stack_cons in Hrun. cbn zeta in Hrun.
      cbn [mw_run authenticateToken] in Hrun.
      destruct (token r) as [id|]; [|discriminate Hrun]. exists id.
      split; [reflexivity|].
      destruct (findById db id) as [u|] eqn:Hu; [|discriminate Hrun].
      cbn [fst snd] in Hrun.
      destruct (run_stack expense_post E db (with_user (u_id u) r)) as [s t] eqn:Hs.
      cbn [fst snd] in Hrun. injection Hrun as -> _.
      eapply (run_stack_keeps (fun x => user x = Some id)); [|..|exact Hs].
      - apply inline_keeps. auto.
      - cbn. f_equal. eapply findById_id; eauto. }
    destruct Hid as (id & Ht & Hu).
    unfold createExpense, create.
    destruct (errors r1) as [|e es] eqn:Herr.
    + rewrite Hu.
      destruct (Models.create Models.Expense E id (body r1)) as [doc|x] eqn:Hdoc.
      * right. exists r1, t0, id, doc. cbn [response db_after]. auto 10.
      * left. cbn. split; [discriminate|reflexivity].
    + left. cbn. split; [discriminate|reflexivity].
  - left. cbn [response db_after]. split; [|reflexivity].
    assert (Ha : Forall (answers (fun resp => status resp <> 201))
                   (authenticateToken :: expense_post)).
    { constructor; [apply auth_answers|apply inline_answers]. }
    exact (run_stack_answers _ _ Ha _ _ _ _ _ Hrun).
  - left. cbn. split; [discriminate|reflexivity].
Qed.

(** X1.  A POST to the application that is not answered 201 leaves the
    store as it was.  One that is answered 201 stored exactly one document,
    an income or an expense, under the principal of the token, whatever the
    body says. *)
Theorem post_stores_one_document_of_the_principal
    (updateIncome updateExpense : Handler) (E : Env) (db : Db) (r : Request)
    (o : Outcome) :
  method r = POST ->
  app updateIncome updateExpense E db r = Some o ->
  (status (response o) <> 201 /\ db_after o = db)
  \/ exists k doc,
       status (response o) = 201
       /\ token r = Some (t_user doc)
       /\ db_after o = Models.insert k doc db.
Proof.
  intros Hm Ho. unfold app in Ho.
  destruct (relative "/api/incomes" (path r)) as [p|].
  - unfold router in Ho. cbn [method with_path] in Ho. rewrite Hm in Ho.
    destruct (is_root (path (with_path p r))); [|discriminate Ho].
    injection Ho as <-.
    destruct (post_income_cases E db (with_path p r))
      as [H|(r1 & t0 & id & doc & _ & Ht & _ & _ & _ & Hdoc & H201 & Hdb)];
      [now left|right].
    exists Models.Income, doc.
    destruct (create_document _ _ _ _ _ Hdoc) as (-> & _).
    rewrite H201. repeat split; auto.
  - destruct (relative "/api/expenses" (path r)) as [p|]; [|discriminate Ho].
    unfold router in Ho. cbn [method with_path] in Ho. rewrite Hm in Ho.
    destruct (is_root (path (with_path p r))); [|discriminate Ho].
    injection Ho as <-.
    destruct (post_expense_cases E db (with_path p r))
      as [H|(r1 & t0 & id & doc & _ & Ht & _ & _ & Hdoc & H201 & Hdb)];
      [now left|right].
    exists Models.Expense, doc.
    destruct (create_document _ _ _ _ _ Hdoc) as (-> & _).
    rewrite H201. repeat split; auto.
Qed.

Lemma post_stores_one_document_of_the_principal_witness :
  exists o, Fixtures.serve Fixtures.E0 Fixtures.db0
              (Fixtures.post_income 1 Fixtures.draft) = Some o
            /\ ((status (response o) <> 201 /\ db_after o = Fixtures.db0)
                \/ exists k doc,
                     status (response o) = 201
                     /\ Some 1 = Some (t_user doc)
                     /\ db_after o = Models.insert k doc Fixtures.db0).
Proof.
  eexists. split; [reflexivity|].
  apply (post_stores_one_document_of_the_principal
           Fixtures.no_update Fixtures.no_update Fixtures.E0 Fixtures.db0
           (Fixtures.post_income 1 Fixtures.draft)); reflexivity.
Defined.

(** ** The limits of the plan on the store *)

Lemma countDocuments_snoc_out (f : Transaction -> bool) (l : list Transaction)
    (x : Transaction) :
  f x = false -> countDocuments f (l ++ [x]) = countDocuments f l.
Proof.
  intros H. unfold countDocuments. rewrite List.filter_app. cbn [List.filter].
  now rewrite H, app_nil_r.
Qed.

(** What the plan rule checked when it handed the request on. *)
Lemma plan_rule_passed E db r id :
  user r = Some id ->
  fst (mw_run validateUserPlanLimits E db r) = Next r ->
  transactionCount db id < 100
  /\ (truthy (get (body r) "tags") = true ->
      forall n, js_length (get (body r) "tags") = Some n -> n <= 5).
Proof.
  intros Hu H. cbn [mw_run validateUserPlanLimits] in H. rewrite Hu in H.
  destruct (findById db id) as [u|]; [|discriminate H].
  rewrite userPlan_free in H.
  change (planLimits (js_String (JStr "free")))
    with (Some {| maxTransactions := 100; maxCategories := 10; maxTags := 5 |}) in H.
  cbn [maxTransactions maxTags] in H.
  change (0 <? 100) with true in H. change (0 <? 5) with true in H.
  cbn [andb] in H.
  destruct (Z.leb_spec 100 (transactionCount db id)); [discriminate H|].
  split; [assumption|]. intros Ht n Hn. rewrite Ht, Hn in H. cbn [andb] in H.
  destruct (Z.ltb_spec 5 n); [discriminate H|assumption].
Qed.

(** X2.  The route that creates an income never takes a principal past
    the 100 transactions of the free plan: a principal with at most 100
    active incomes and expenses has at most 100 after any request. *)
Theorem income_post_keeps_plan_limit (E : Env) (db : Db) (r : Request) (id : Z) :
  transactionCount db id <= 100 ->
  transactionCount
    (db_after (run_route (authenticateToken :: income_post) createIncome E db r)) id
  <= 100.
Proof.
  intros Hc.
  destruct (post_income_cases E db r)
    as [[_ ->]|(r1 & t0 & id0 & doc & _ & _ & Hu & _ & HF & Hdoc & _ & ->)];
    [exact Hc|].
  destruct (create_document _ _ _ _ _ Hdoc) as (Hid & _).
  unfold income_rules in HF.
  inversion_clear HF as [|? ? _ HF1]. inversion_clear HF1 as [|? ? _ HF2].
  inversion_clear HF2 as [|? ? _ HF3]. inversion_clear HF3 as [|? ? P4 _].
  destruct (plan_rule_passed E db r1 id0 Hu P4) as [Hlt _].
  unfold transactionCount in *. cbn [Models.insert incomes expenses].
  destruct (Z.eqb_spec (t_user doc) id) as [Heq|Hne].
  - pose proof (countDocuments_snoc (active_of id) (incomes db) doc).
    rewrite <- Hid, Heq in Hlt. lia.
  - rewrite countDocuments_snoc_out; [exact Hc|].
    unfold active_of. apply Z.eqb_neq in Hne. now rewrite Hne.
Qed.

Lemma income_post_keeps_plan_limit_witness :
  transactionCount
    (db_after (run_route (authenticateToken :: income_post) createIncome Fixtures.E0
                 (Fixtures.db_with 1 3)
                 (with_path "/" (Fixtures.post_income 1 Fixtures.draft)))) 1
  <= 100.
Proof.
  apply (income_post_keeps_plan_limit Fixtures.E0 (Fixtures.db_with 1 3)).
  vm_compute. discriminate.
Defined.

(** The route of the expenses checks no limit: with 100 incomes stored, an
    expense is still created. *)
Lemma expense_post_ignores_plan_limit :
  let db := Fixtures.db_with 1 100 in
  let o := run_route (authenticateToken :: expense_post) createExpense Fixtures.E0 db
             (with_path "/" (Fixtures.post_expense 1 Fixtures.expense_draft)) in
  transactionCount db 1 = 100
  /\ status (response o) = 201 /\ transactionCount (db_after o) 1 = 101.
Proof. vm_compute. repeat split. Qed.

(** ** The incomes that are stored *)

(** A document was stored only by a request that passed the front and the
    rules without a validation error and that the model accepted. *)
Lemma stored_income E db r doc :
  db_after (run_route (authenticateToken :: income_post) createIncome E db r)
  = Models.insert Models.Income doc db ->
  exists r1 t0 id,
    run_stack (authenticateToken :: income_front) E db r = (Next r1, t0)
    /\ user r1 = Some id /\ errors r1 = []
    /\ Forall (fun m => fst (mw_run m E db r1) = Next r1) income_rules
    /\ Models.create Models.Income E id (body r1) = Ok doc.
Proof.
  intros Hdb.
  destruct (post_income_cases E db r)
    as [[_ H]|(r1 & t0 & id & doc' & Hf & _ & Hu & He & HF & Hdoc & _ & H)];
    rewrite H in Hdb.
  - exfalso. apply (f_equal (fun d => List.length (incomes d))) in Hdb.
    cbn [Models.insert incomes] in Hdb. rewrite List.length_app in Hdb.
    cbn in Hdb. lia.
  - assert (doc' = doc) as ->.
    { unfold Models.insert in Hdb. injection Hdb as Hdb.
      apply app_inv_head in Hdb. now injection Hdb. }
    eauto 10.
Qed.

Lemma castTags_length (l : list JsVal) (tags : list string) :
  Models.castTags l = Ok tags -> (List.length tags <= List.length l)%nat.
Proof.
  revert tags. induction l as [|x l IH]; intros tags H; cbn [Models.castTags] in H.
  - injection H as <-. reflexivity.
  - destruct (Models.castString x) as [s|]; [|discriminate H]. cbn [bindE] in H.
    destruct (Models.castTags l) as [rest|]; [|discriminate H]. cbn [bindE] in H.
    specialize (IH rest eq_refl). injection H as <-.
    destruct s; cbn [List.length]; lia.
Qed.

(** X3.  An income that is stored carries at most five tags, the limit of
    the free plan and not the ten of the schema, and no tag of more than 20
    characters. *)
Theorem stored_income_has_at_most_five_tags
    (E : Env) (db : Db) (r : Request) (doc : Transaction) :
  db_after (run_route (authenticateToken :: income_post) createIncome E db r)
  = Models.insert Models.Income doc db ->
  (List.length (t_tags doc) <= 5)%nat
  /\ forallb (fun t => Nat.leb (String.length t) 20) (t_tags doc) = true.
Proof.
  intros Hdb.
  destruct (stored_income E db r doc Hdb) as (r1 & t0 & id & _ & Hu & _ & HF & Hdoc).
  destruct (create_document _ _ _ _ _ Hdoc)
    as (_ & _ & _ & _ & _ & _ & _ & _ & _ & _ & Htags & Hlen).
  split; [|exact Hlen].
  unfold income_rules in HF.
  inversion_clear HF as [|? ? _ HF1]. inversion_clear HF1 as [|? ? _ HF2].
  inversion_clear HF2 as [|? ? _ HF3]. inversion_clear HF3 as [|? ? P4 _].
  destruct (plan_rule_passed E db r1 id Hu P4) as [_ Hmax].
  destruct (get (body r1) "tags") as [| |x|n|s|l] eqn:Hv.
  - injection Htags as <-. cbn. lia.
  - injection Htags as <-. cbn. lia.
  - apply castTags_length in Htags. cbn in Htags. lia.
  - apply castTags_length in Htags. cbn in Htags. lia.
  - apply castTags_length in Htags. cbn in Htags. lia.
  - apply castTags_length in Htags.
    specialize (Hmax eq_refl _ eq_refl). lia.
Qed.

Lemma stored_income_has_at_most_five_tags_witness :
  exists doc,
    t_tags doc = ["nomina"; "enero"]%string
    /\ (List.length (t_tags doc) <= 5)%nat
    /\ forallb (fun t => Nat.leb (String.length t) 20) (t_tags doc) = true.
Proof.
  pose (b := <["tags" := JArr [JStr " Nomina "; JStr ""; JStr "ENERO"]]> Fixtures.draft).
  pose (o := run_route (authenticateToken :: income_post) createIncome Fixtures.E0
               Fixtures.db0 (with_path "/" (Fixtures.post_income 1 b))).
  exists (List.last (incomes (db_after o)) (Fixtures.salary 1 0)).
  split; [vm_compute; reflexivity|].
  apply (stored_income_has_at_most_five_tags Fixtures.E0 Fixtures.db0
           (with_path "/" (Fixtures.post_income 1 b))).
  vm_compute. reflexivity.
Defined.

(** *** What the schema accepted *)

Lemma run_stack_split (pre : list Middleware) (m : Middleware)
    (post : list Middleware) E db r r1 t :
  run_stack (pre ++ m :: post) E db r = (Next r1, t) ->
  exists ra rm ta rd tp,
    run_stack pre E db r = (Next ra, ta)
    /\ mw_run m E db ra = (Next rm, rd)
    /\ run_stack post E db rm = (Next r1, tp).
Proof.
  intros H. rewrite run_stack_app in H.
  destruct (run_stack pre E db r) as [[ra| |] ta] eqn:H1; try discriminate H.
  cbn [run_stack] in H.
  destruct (mw_run m E db ra) as [[rm| |] rd] eqn:H2; try discriminate H.
  destruct (run_stack post E db rm) as [[x| |] tp] eqn:H3; cbn in H;
    try discriminate H.
  injection H as <- _. exists ra, rm, ta, rd, tp. auto.
Qed.

(** A chain on another field keeps the value of [f], and a request without
    errors after it had none before. *)
Lemma of_chain_keeps_accepted name stage (c : Env -> Chain) (f : string)
    (v : JsVal) (G : Prop) :
  (forall E, f <> ch_field (c E)) ->
  keeps (fun x => get (body x) f = v /\ (errors x = [] -> G))
    (of_chain name stage c).
Proof.
  intros Hf E db x x' rd [Hv Hg] Hrun. split.
  - rewrite (chain_mw_other name stage c E db x x' rd f (Hf E) Hrun). exact Hv.
  - apply of_chain_next in Hrun as (b & es & _ & -> & _). cbn. intros Hnil.
    apply app_eq_nil in Hnil as [H1 _]. auto.
Qed.

(** The chain of validators [c] on the field [f], in a stack whose later
    chains are on other fields: when the request ends without validation
    errors, the chain recorded none on the value the request ends with. *)
Lemma schema_accepted (pre post : list Middleware) name (c : Env -> Chain)
    (f : string) E db r r1 t :
  ch_field (c E) = f -> ch_wildcard (c E) = false ->
  forallb validator (ch_items (c E)) = true ->
  (forall v G,
      Forall (keeps (fun x => get (body x) f = v /\ (errors x = [] -> G))) post) ->
  run_stack (pre ++ schema name c :: post) E db r = (Next r1, t) ->
  errors r1 = [] ->
  exists b b', EV.run (c E) b = Ok (b', []) /\ get b f = get (body r1) f.
Proof.
  intros Hf Hw Hval Hpost Hrun Hnil.
  apply run_stack_split in Hrun as (ra & rm & ta & rd & tp & _ & Hm & Hp).
  pose proof (validators_keep_field name Schema c f E db ra rm rd Hw Hval Hm) as Hkeep.
  apply of_chain_next in Hm as (b & es & Hc & -> & _).
  pose proof (run_stack_keeps _ _ (Hpost (get (body ra) f) (es = [])) E db
                (add_errors es (with_body b ra)) r1 tp) as Hk.
  destruct Hk as [Hv Hes]; [|exact Hp|].
  - split; [exact Hkeep|]. cbn. intros H. now apply app_eq_nil in H as [_ H].
  - rewrite (Hes Hnil) in Hc. exists (body ra), b. split; [exact Hc|]. now rewrite Hv.
Qed.

(** A chain that begins with a validator and recorded nothing: the
    validator holds of the string of a value that is not an array. *)
Lemma first_validator_accepts (c : Chain) p msg rest (b b' : object) :
  ch_wildcard c = false -> ch_items c = Validate p msg :: rest ->
  skipped c (get b (ch_field c)) = false ->
  is_array (get b (ch_field c)) = false ->
  EV.run c b = Ok (b', []) -> p (EV.toString (get b (ch_field c))) = true.
Proof.
  intros Hw Hi Hs Ha H. unfold EV.run, select in H. rewrite Hw, Hi in H.
  cbn [run_items item_on_instances] in H. rewrite Hs in H.
  cbn [run_item bindE fst snd] in H. rewrite (values_scalar _ Ha) in H.
  cbn [List.filter] in H.
  destruct (p (EV.toString (get b (ch_field c)))); [reflexivity|].
  destruct (run_items c rest _ _) as [[b1 es1]|]; cbn in H; discriminate H.
Qed.

Ltac chains_on_other_fields :=
  intros ? ?; cbn [List.skipn income_schema];
  repeat (constructor; [apply of_chain_keeps_accepted; intros; cbn; discriminate|]);
  constructor.

(** The amount of a request that ends the front of the stack without a
    validation error was accepted by its chain. *)
Lemma front_amount_accepted E db r r1 t :
  run_stack (authenticateToken :: income_front) E db r = (Next r1, t) ->
  errors r1 = [] -> is_array (get (body r1) "amount") = false ->
  amount_accepts (get (body r1) "amount") = true.
Proof.
  intros Hrun Hnil Ha.
  change (authenticateToken :: income_front)
    with ((authenticateToken :: income_guards ++ income_sanitizers
             ++ List.firstn 1 income_schema)
          ++ schema "transactionValidations.amount"
               (fun _ => transactionValidations.amount)
          :: List.skipn 2 income_schema) in Hrun.
  apply (schema_accepted _ _ _ _ "amount") in Hrun as (b & b' & Hc & Hv);
    [|reflexivity|reflexivity|reflexivity|chains_on_other_fields|exact Hnil].
  rewrite <- Hv in Ha |- *.
  destruct (run_amount b Ha) as (errs & Hr & Hiff).
  rewrite Hr in Hc. injection Hc as _ ->. now apply Hiff.
Qed.

Lemma not_above (n : number) (M : Z) :
  cents n -> gtb n (of_Z M) = false -> leb n (of_Z M) = true.
Proof.
  intros (c & _ & Hc). destruct n as [| |m k]; try discriminate Hc.
  unfold gtb, leb, of_Z. cbn [ltb eqb]. change (pow10 0) with 1.
  intros H. apply Z.ltb_ge in H. apply orb_true_iff.
  rewrite Z.ltb_lt, Z.eqb_eq. lia.
Qed.

(** X4.  The amount of an income that is stored is a whole number of cents
    between 0.01 and 1000000: the limit of [validateTransactionLimits], not
    the 999999999.99 of the schema and of the model. *)
Theorem stored_income_amount_is_bounded
    (E : Env) (db : Db) (r : Request) (doc : Transaction) :
  db_after (run_route (authenticateToken :: income_post) createIncome E db r)
  = Models.insert Models.Income doc db ->
  cents (t_amount doc) /\ leb (t_amount doc) (of_Z 1000000) = true.
Proof.
  intros Hdb.
  destruct (stored_income E db r doc Hdb) as (r1 & t0 & id & Hf & Hu & He & HF & Hdoc).
  destruct (create_document _ _ _ _ _ Hdoc) as (_ & _ & Ha & _).
  pose proof (front_amount_not_a_string E db r r1 t0 Hf) as Hstr.
  assert (Harr : is_array (get (body r1) "amount") = false)
    by (destruct (get (body r1) "amount"); try reflexivity; discriminate Ha).
  pose proof (front_amount_accepted E db r r1 t0 Hf He Harr) as Hacc.
  unfold income_rules in HF.
  inversion_clear HF as [|? ? _ HF1]. inversion_clear HF1 as [|? ? P2 _].
  cbn [mw_run validateTransactionLimits] in P2. rewrite Hu in P2.
  destruct (new_Date (dates E) (get (body r1) "date")) as [d|]; [|discriminate P2].
  cbn zeta in P2.
  match type of P2 with
  | context [if ?c then _ else _] => destruct c; [discriminate P2|]
  end.
  destruct (gtb (toNumber (get (body r1) "amount")) (of_Z 1000000)) eqn:Hgt;
    [discriminate P2|].
  destruct (get (body r1) "amount") as [| |x|n|s|l];
    try discriminate Hacc; try discriminate Harr.
  - destruct x; discriminate Hacc.
  - apply amount_accepts_number in Hacc.
    assert (n = t_amount doc) as <-
        by (destruct n; cbn in Ha; [discriminate Ha|..]; congruence).
    split; [exact Hacc|]. now apply not_above.
  - now destruct (Hstr s).
Qed.

Lemma stored_income_amount_is_bounded_witness :
  exists doc,
    t_amount doc = Fin 100 0
    /\ cents (t_amount doc) /\ leb (t_amount doc) (of_Z 1000000) = true.
Proof.
  pose (o := run_route (authenticateToken :: income_post) createIncome Fixtures.E0
               Fixtures.db0 (with_path "/" (Fixtures.post_income 1 Fixtures.draft))).
  exists (List.last (incomes (db_after o)) (Fixtures.salary 1 0)).
  split; [vm_compute; reflexivity|].
  apply (stored_income_amount_is_bounded Fixtures.E0 Fixtures.db0
           (with_path "/" (Fixtures.post_income 1 Fixtures.draft))).
  vm_compute. reflexivity.
Defined.

(** An amount above the limit of the rule and within the range of the
    schema is answered 400 by the rule. *)
Lemma amount_above_the_business_limit :
  let b := <["amount" := JNum (Fin 100000001 2)]> Fixtures.draft in
  let o := run_route (authenticateToken :: income_post) createIncome Fixtures.E0
             Fixtures.db0 (with_path "/" (Fixtures.post_income 1 b)) in
  amount_accepts (JNum (Fin 100000001 2)) = true
  /\ response o = reply 400 "Monto excesivo".
Proof. vm_compute. split; reflexivity. Qed.

(** A string in two lists is in the list of their common members. *)
Lemma mem_both (s : string) (l1 l2 : list string) :
  mem s l1 = true -> mem s l2 = true ->
  mem s (List.filter (fun x => mem x l2) l1) = true.
Proof.
  unfold mem. intros H1 H2.
  apply existsb_exists in H1 as (x & Hin & Hx). apply String.eqb_eq in Hx. subst x.
  apply existsb_exists. exists s. split; [|apply String.eqb_refl].
  apply filter_In. split; [exact Hin|exact H2].
Qed.

(** X5.  The payment method of an income that is stored is one of
    efectivo, transferencia, cheque, crypto and otros: the methods that the
    list of the schema and the list of the model have in common. *)
Theorem stored_income_payment_method
    (E : Env) (db : Db) (r : Request) (doc : Transaction) :
  db_after (run_route (authenticateToken :: income_post) createIncome E db r)
  = Models.insert Models.Income doc db ->
  mem (t_paymentMethod doc) ["efectivo"; "transferencia"; "cheque"; "crypto"; "otros"]
  = true.
Proof.
  intros Hdb.
  destruct (stored_income E db r doc Hdb) as (r1 & t0 & id & Hf & Hu & He & HF & Hdoc).
  destruct (create_document _ _ _ _ _ Hdoc)
    as (_ & _ & _ & _ & _ & _ & _ & (pm & Hpm & -> & Hmodel) & _).
  change (authenticateToken :: income_front)
    with ((authenticateToken :: income_guards ++ income_sanitizers
             ++ List.firstn 3 income_schema)
          ++ schema "transactionValidations.paymentMethod"
               (fun _ => transactionValidations.paymentMethod)
          :: List.skipn 4 income_schema) in Hf.
  apply (schema_accepted _ _ _ _ "paymentMethod") in Hf as (b & b' & Hc & Hv);
    [|reflexivity|reflexivity|reflexivity|chains_on_other_fields|exact He].
  assert (Harr : is_array (get (body r1) "paymentMethod") = false)
    by (destruct (get (body r1) "paymentMethod"); try reflexivity; discriminate Hpm).
  apply first_validator_accepts with (p := isIn payment_methods)
      (msg := "Método de pago no válido"%string) (rest := []) in Hc;
    [|reflexivity|reflexivity|reflexivity
     |cbn [ch_field transactionValidations.paymentMethod chain]; now rewrite Hv].
  cbn [ch_field transactionValidations.paymentMethod chain] in Hc. rewrite Hv in Hc.
  unfold isIn in Hc.
  destruct (get (body r1) "paymentMethod") as [| |x|n|s|l];
    try discriminate Hc; try discriminate Harr.
  - destruct x; discriminate Hc.
  - injection Hpm as <-. cbn [default] in *.
    destruct n; [discriminate Hc|..]; exact (mem_both _ _ _ Hc Hmodel).
  - injection Hpm as <-. exact (mem_both _ _ _ Hc Hmodel).
Qed.

Lemma stored_income_payment_method_witness :
  exists doc,
    t_paymentMethod doc = "transferencia"%string
    /\ mem (t_paymentMethod doc)
         ["efectivo"; "transferencia"; "cheque"; "crypto"; "otros"] = true.
Proof.
  pose (b := <["paymentMethod" := JStr "transferencia"]> Fixtures.draft).
  pose (o := run_route (authenticateToken :: income_post) createIncome Fixtures.E0
               Fixtures.db0 (with_path "/" (Fixtures.post_income 1 b))).
  exists (List.last (incomes (db_after o)) (Fixtures.salary 1 0)).
  split; [vm_compute; reflexivity|].
  apply (stored_income_payment_method Fixtures.E0 Fixtures.db0
           (with_path "/" (Fixtures.post_income 1 b))).
  vm_compute. reflexivity.
Defined.

(** The two lists at work: [tarjeta_debito] passes the schema and fails in
    the model, which the handler answers with 500; [tarjeta], which the
    model knows, is a validation error. *)
Lemma payment_methods_of_one_list_only :
  let post m :=
    run_route (authenticateToken :: income_post) createIncome Fixtures.E0
      Fixtures.db0
      (with_path "/" (Fixtures.post_income 1
                        (<["paymentMethod" := JStr m]> Fixtures.draft))) in
  status (response (post "tarjeta_debito"%string)) = 500
  /\ validationErrors (response (post "tarjeta_debito"%string)) = []
  /\ status (response (post "tarjeta"%string)) = 400
  /\ List.map ve_path (validationErrors (response (post "tarjeta"%string)))
     = ["paymentMethod"%string].
Proof. vm_compute. repeat split. Qed.

(** X6.  An income that is stored with a frequency has one of semanal,
    mensual, trimestral and anual, the frequencies that the schema and the
    model have in common; one that is stored without a frequency is not
    recurring. *)
Theorem stored_income_frequency
    (E : Env) (db : Db) (r : Request) (doc : Transaction) :
  db_after (run_route (authenticateToken :: income_post) createIncome E db r)
  = Models.insert Models.Income doc db ->
  match t_recurringFrequency doc with
  | Some f => mem f ["semanal"; "mensual"; "trimestral"; "anual"] = true
  | None => t_isRecurring doc = false
  end.
Proof.
  intros Hdb.
  destruct (stored_income E db r doc Hdb) as (r1 & t0 & id & Hf & Hu & He & HF & Hdoc).
  destruct (create_document _ _ _ _ _ Hdoc)
    as (_ & _ & _ & _ & _ & _ & _ & _ & Hcast & Hmodel & _).
  destruct (t_recurringFrequency doc) as [f|]; [|exact Hmodel].
  change (authenticateToken :: income_front)
    with ((authenticateToken :: income_guards ++ income_sanitizers
             ++ List.firstn 9 income_schema)
          ++ schema "incomeValidations.recurringFrequency"
               (fun _ => incomeValidations.recurringFrequency)
          :: List.skipn 10 income_schema) in Hf.
  apply (schema_accepted _ _ _ _ "recurringFrequency") in Hf as (b & b' & Hc & Hv);
    [|reflexivity|reflexivity|reflexivity|chains_on_other_fields|exact He].
  assert (Harr : is_array (get (body r1) "recurringFrequency") = false)
    by (destruct (get (body r1) "recurringFrequency"); try reflexivity;
        discriminate Hcast).
  assert (Hdef : get (body r1) "recurringFrequency" <> JUndefined)
    by (intros Hx; rewrite Hx in Hcast; discriminate Hcast).
  apply first_validator_accepts with (p := isIn frequencies)
      (msg := "Frecuencia de recurrencia no válida"%string)
      (rest := [Custom frequency_required]) in Hc;
    [|reflexivity|reflexivity| |].
  - cbn [ch_field incomeValidations.recurringFrequency recurringFrequency_chain
         optional chain] in Hc. rewrite Hv in Hc. unfold isIn in Hc.
    destruct (get (body r1) "recurringFrequency") as [| |x|n|s|l];
      try discriminate Hc; try discriminate Harr.
    + destruct x; discriminate Hc.
    + injection Hcast as <-.
      destruct n; [discriminate Hc|..]; exact (mem_both _ _ _ Hc Hmodel).
    + injection Hcast as <-. exact (mem_both _ _ _ Hc Hmodel).
  - cbn [ch_field incomeValidations.recurringFrequency recurringFrequency_chain
         optional chain]. rewrite Hv. unfold skipped.
    destruct (get (body r1) "recurringFrequency"); try reflexivity.
    now destruct Hdef.
  - cbn [ch_field incomeValidations.recurringFrequency recurringFrequency_chain
         optional chain]. now rewrite Hv.
Qed.

Lemma stored_income_frequency_witness :
  exists doc,
    t_recurringFrequency doc = Some "mensual"%string
    /\ match t_recurringFrequency doc with
       | Some f => mem f ["semanal"; "mensual"; "trimestral"; "anual"] = true
       | None => t_isRecurring doc = false
       end.
Proof.
  pose (b := <["recurringFrequency" := JStr "mensual"]>
               (<["isRecurring" := JBool true]> Fixtures.draft)).
  pose (o := run_route (authenticateToken :: income_post) createIncome Fixtures.E0
               Fixtures.db0 (with_path "/" (Fixtures.post_income 1 b))).
  exists (List.last (incomes (db_after o)) (Fixtures.salary 1 0)).
  split; [vm_compute; reflexivity|].
  apply (stored_income_frequency Fixtures.E0 Fixtures.db0
           (with_path "/" (Fixtures.post_income 1 b))).
  vm_compute. reflexivity.
Defined.

(** ** The sanitizers, one by one *)

(** X7.  [sanitizeInput] trims every string of the body and keeps its other
    values.  On the query it throws exactly when a parameter that is a
    string has no string field of its name in the body; otherwise each
    such parameter is replaced by the trimmed field of the body, and the
    other parameters are kept. *)
Theorem sanitizeInput_reads_the_body_for_the_query (E : Env) (db : Db) (r : Request) :
  (fst (mw_run sanitizeInput E db r) = Raise "TypeError"
   <-> exists k s, query r !! k = Some (JStr s)
                   /\ is_string (get (body r) k) = false)
  /\ (forall r', fst (mw_run sanitizeInput E db r) = Next r' ->
        (forall k, get (body r') k = trim_string (get (body r) k))
        /\ (forall k s, query r !! k = Some (JStr s) ->
              get (query r') k = trim_string (get (body r) k))
        /\ (forall k, is_string (get (query r) k) = false ->
              get (query r') k = get (query r) k))
  /\ (forall resp, fst (mw_run sanitizeInput E db r) <> Respond resp).
Proof.
  cbn [mw_run sanitizeInput fst]. unfold sanitize_query.
  assert (Hok : forall k v, query_ok (sanitize_body (body r)) k v
                <-> ~ (is_string v = true /\ is_string (get (body r) k) = false)).
  { intros k v. unfold query_ok, query_value. rewrite lookup_sanitize_body.
    destruct v; cbn; try (split; [intros _ [H _]; discriminate H|auto]).
    destruct (get (body r) k); cbn; split; auto; try (intros []);
      try (intros [_ H]; discriminate H).
    all: intros H; apply H; auto. }
  destruct (decide (map_Forall (query_ok (sanitize_body (body r))) (query r)))
    as [Hall|Hnot].
  - split; [|split; [|intros resp H; discriminate H]].
    + split; [discriminate|]. intros (k & s & Hq & Hb). exfalso.
      apply (Hok k (JStr s)); [exact (Hall k _ Hq)|auto].
    + intros r' [= <-]. cbn [body query with_query with_body].
      split; [intros k; apply lookup_sanitize_body|]. split.
      * intros k s Hq. unfold get at 1. rewrite map_lookup_imap, Hq.
        cbn [mbind option_bind]. unfold query_value.
        rewrite lookup_sanitize_body.
        pose proof (proj1 (Hok k (JStr s)) (Hall k _ Hq)) as Hs.
        destruct (get (body r) k); cbn; try (exfalso; apply Hs; auto; fail).
        now rewrite trim_idem.
      * intros k Hs. unfold get. rewrite map_lookup_imap.
        destruct (query r !! k) as [v|] eqn:Hq; [|reflexivity].
        cbn [mbind option_bind]. unfold get in Hs. rewrite Hq in Hs.
        destruct v; try discriminate Hs; reflexivity.
  - split; [|split; [intros r' H; discriminate H|intros resp H; discriminate H]].
    split; [intros _|reflexivity].
    apply map_not_Forall in Hnot as (k & v & Hq & Hn); [|apply _].
    assert (Hv : is_string v = true /\ is_string (get (body r) k) = false).
    { destruct (is_string v) eqn:E1; destruct (is_string (get (body r) k)) eqn:E2;
        auto; exfalso; apply Hn, Hok; intros [H1 H2]; congruence. }
    destruct Hv as [Hv Hb]. destruct v; try discriminate Hv. eauto.
Qed.

(** A chain of sanitizers on one field records no error and leaves the
    value of the chain in the field, or throws what a custom sanitizer
    throws. *)
Lemma run_items_sanitizers (c : Chain) (items : list Item) :
  ch_wildcard c = false -> forallb sanitizer_item items = true ->
  forall (body : object) (path : string) (v : JsVal),
    run_items c items body [(path, v)]
    = match chain_value c items v with
      | Ok v' => Ok (match items with
                     | [] => body
                     | _ => set (ch_field c) v' body
                     end, [])
      | Throw e => Throw e
      end.
Proof.
  intros Hw. induction items as [|it rest IH]; intros Hs body path v; [reflexivity|].
  cbn [forallb] in Hs. apply andb_prop in Hs as [Hit Hrest].
  cbn [run_items item_on_instances chain_value].
  assert (Hstep : (if skipped c v then Ok (v, []) else run_item it body path v)
                  = match (if skipped c v then Ok v else item_value it v) with
                    | Ok v1 => Ok (v1, [])
                    | Throw e => Throw e
                    end).
  { destruct (skipped c v); [reflexivity|].
    destruct it; try discriminate Hit; cbn [run_item item_value]; [reflexivity|].
    destruct (f v); reflexivity. }
  rewrite Hstep.
  destruct (if skipped c v then Ok v else item_value it v) as [v1|e];
    [|reflexivity].
  cbn [bindE fst snd]. unfold write_back. rewrite Hw. rewrite (IH Hrest).
  destruct rest as [|it' rest']; [reflexivity|].
  destruct (chain_value c (it' :: rest') v1) as [v'|e]; [|reflexivity].
  cbn [bindE fst snd Datatypes.app]. now rewrite set_set.
Qed.

Lemma run_sanitizers (c : Chain) (b : object) :
  ch_wildcard c = false -> ch_items c <> [] ->
  forallb sanitizer_item (ch_items c) = true ->
  EV.run c b
  = match chain_value c (ch_items c) (get b (ch_field c)) with
    | Ok v' => Ok (set (ch_field c) v' b, [])
    | Throw e => Throw e
    end.
Proof.
  intros Hw Hi Hs. unfold EV.run, select. rewrite Hw.
  rewrite (run_items_sanitizers c _ Hw Hs).
  destruct (chain_value _ _ _); [|reflexivity]. now destruct (ch_items c).
Qed.

(** *** Text without markup *)

Lemma replace_char_clean (c : ascii) :
  all_chars (fun x => negb (markup x)) (replace_char c) = true.
Proof. destruct c as [[] [] [] [] [] [] [] []]; reflexivity. Qed.

Lemma escape_clean (s : string) :
  all_chars (fun x => negb (markup x)) (escape s) = true.
Proof.
  induction s as [|c s IH]; [reflexivity|]. cbn [escape].
  now rewrite all_chars_app, replace_char_clean, IH.
Qed.

Lemma stripLow_clean (s : string) :
  all_chars (fun x => negb (markup x)) s = true ->
  all_chars clean_char (stripLow true s) = true.
Proof.
  induction s as [|c s IH]; [reflexivity|]. cbn [all_chars stripLow].
  intros [Hc Hs]%andb_prop. destruct (is_low true c) eqn:El; [now apply IH|].
  cbn [all_chars]. unfold clean_char at 1. now rewrite Hc, El, IH.
Qed.

Lemma clean_text_clean (s : string) : all_chars clean_char (clean_text s) = true.
Proof. unfold clean_text. apply stripLow_clean, escape_clean. Qed.

Lemma smap_clean (v : JsVal) : text_clean (smap clean_text v) = true.
Proof.
  unfold text_clean. destruct v as [| |x|n|s|l]; cbn [smap EV.values forallb];
    try (now rewrite clean_text_clean).
  induction l as [|x l IH]; [reflexivity|]. cbn [List.map forallb].
  now rewrite clean_text_clean, IH.
Qed.

(** X8.  [sanitizeDescription] and [sanitizeNotes] record no error and
    leave text without markup and without control characters: no quote,
    slash, angle bracket, backslash or backtick, and nothing that
    [stripLow] removes.  An absent description becomes the empty string;
    absent notes stay absent. *)
Theorem sanitized_text_has_no_markup (b : object) :
  exists b1 b2,
    EV.run sanitizeDescription b = Ok (b1, [])
    /\ EV.run sanitizeNotes b = Ok (b2, [])
    /\ text_clean (get b1 "description") = true
    /\ (get b "description" = JUndefined -> get b1 "description" = JStr "")
    /\ (get b "notes" <> JUndefined -> text_clean (get b2 "notes") = true)
    /\ (get b "notes" = JUndefined -> get b2 "notes" = JUndefined).
Proof.
  exists (set "description" (smap clean_text (get b "description")) b).
  exists (set "notes" (match get b "notes" with
                       | JUndefined => JUndefined
                       | _ => smap clean_text (get b "notes")
                       end) b).
  split; [|split].
  - rewrite run_sanitizers by (reflexivity || discriminate).
    now rewrite description_value.
  - rewrite run_sanitizers by (reflexivity || discriminate).
    rewrite notes_value. reflexivity.
  - rewrite !get_set_eq. split; [apply smap_clean|]. split; [now intros ->|].
    split.
    + intros Hn. destruct (get b "notes") eqn:E; try apply smap_clean.
      now destruct Hn.
    + now intros ->.
Qed.

(** *** Tags *)

Lemma clean_tag_string (s : string) :
  let t := toLowerCase (trim s) in trim t = t /\ toLowerCase t = t.
Proof.
  cbn zeta. split.
  - now rewrite trim_lower, trim_idem.
  - apply toLowerCase_idem.
Qed.

Lemma keep_nonempty_spec (l : list JsVal) :
  match keep_nonempty (List.map clean_tag l) with
  | Ok l' => (forall x, In x l -> x <> JNull /\ x <> JUndefined)
             /\ (List.length l' <= List.length l)%nat
             /\ Forall tag_clean l'
  | Throw e => e = "TypeError"%string
               /\ exists x, In x l /\ (x = JNull \/ x = JUndefined)
  end.
Proof.
  induction l as [|x l IH]; cbn [List.map keep_nonempty].
  - split; [intros x []|split; [cbn; lia|constructor]].
  - destruct x as [| |y|n|s|a]; cbn [clean_tag length_positive bindE].
    + split; [reflexivity|]. exists JUndefined. split; [now left|now right].
    + split; [reflexivity|]. exists JNull. split; [now left|now left].
    + destruct (keep_nonempty (List.map clean_tag l)) as [l'|e]; cbn [bindE].
      * destruct IH as (H1 & H2 & H3).
        split; [intros x [<-|Hin]; [split; discriminate|now apply H1]|].
        split; [cbn [List.length]; lia|exact H3].
      * destruct IH as (-> & x & Hin & Hx). split; [reflexivity|].
        exists x. split; [now right|exact Hx].
    + destruct (keep_nonempty (List.map clean_tag l)) as [l'|e]; cbn [bindE].
      * destruct IH as (H1 & H2 & H3).
        split; [intros x [<-|Hin]; [split; discriminate|now apply H1]|].
        split; [cbn [List.length]; lia|exact H3].
      * destruct IH as (-> & x & Hin & Hx). split; [reflexivity|].
        exists x. split; [now right|exact Hx].
    + destruct (keep_nonempty (List.map clean_tag l)) as [l'|e]; cbn [bindE].
      * destruct IH as (H1 & H2 & H3).
        split; [intros x [<-|Hin]; [split; discriminate|now apply H1]|].
        destruct (String.eqb_spec (toLowerCase (trim s)) "") as [E|E];
          cbn [negb List.length]; (split; [lia|]); [exact H3|].
        constructor; [|exact H3]. unfold tag_clean.
        split; [intros s' [= <-]; split; [exact E|apply clean_tag_string]|].
        repeat split; discriminate.
      * destruct IH as (-> & x & Hin & Hx). split; [reflexivity|].
        exists x. split; [now right|exact Hx].
    + destruct (keep_nonempty (List.map clean_tag l)) as [l'|e]; cbn [bindE].
      * destruct IH as (H1 & H2 & H3).
        split; [intros x [<-|Hin]; [split; discriminate|now apply H1]|].
        destruct a as [|a0 a]; cbn [List.length Nat.eqb negb]; (split; [lia|]);
          [exact H3|].
        constructor; [|exact H3]. unfold tag_clean.
        split; [discriminate|]. split; [intros a' [= <-]; discriminate|].
        repeat split; discriminate.
      * destruct IH as (-> & x & Hin & Hx). split; [reflexivity|].
        exists x. split; [now right|exact Hx].
Qed.

(** X9.  On an array of tags [sanitizeTags] throws a TypeError exactly when
    an element is [null] or [undefined].  Otherwise it records no error
    and leaves an array that is not longer, in which every string is
    trimmed, in lower case and not empty, every array is not empty, and no
    number or boolean is left.  (The tags are those of the embedding:
    strings, numbers, booleans, [null] and arrays; the statement says
    nothing of a tag that is a JSON object.) *)
Theorem sanitizeTags_leaves_clean_tags (b : object) (l : list JsVal) :
  get b "tags" = JArr l ->
  (EV.run sanitizeTags b = Throw "TypeError"
   <-> exists x, In x l /\ (x = JNull \/ x = JUndefined))
  /\ (forall b' es, EV.run sanitizeTags b = Ok (b', es) ->
        es = []
        /\ exists l', get b' "tags" = JArr l'
                      /\ (List.length l' <= List.length l)%nat
                      /\ Forall tag_clean l').
Proof.
  intros Hv. rewrite run_sanitizers by (reflexivity || discriminate).
  rewrite tags_value.
  cbn [ch_field sanitizeTags optional chain]. rewrite Hv. cbn [clean_tags].
  pose proof (keep_nonempty_spec l) as Hs.
  destruct (keep_nonempty (List.map clean_tag l)) as [l'|e]; cbn [bindE].
  - destruct Hs as (H1 & H2 & H3). split.
    + split; [discriminate|]. intros (x & Hin & Hx).
      destruct (H1 x Hin) as [Hn Hu]. now destruct Hx.
    + intros b' es [= <- <-]. split; [reflexivity|]. exists l'.
      split; [exact (get_set_eq "tags" (JArr l') b)|auto].
  - destruct Hs as (-> & Hx). split; [tauto|]. intros b' es H. discriminate H.
Qed.

Lemma sanitizeTags_leaves_clean_tags_witness :
  let l := [JStr " Casa "; JNum (Fin 7 0); JStr "  "; JBool true; JStr "AUTO"] in
  let b : object := set "tags" (JArr l) ∅ in
  (EV.run sanitizeTags b = Throw "TypeError"
   <-> exists x, In x l /\ (x = JNull \/ x = JUndefined))
  /\ (forall b' es, EV.run sanitizeTags b = Ok (b', es) ->
        es = []
        /\ exists l', get b' "tags" = JArr l'
                      /\ (List.length l' <= List.length l)%nat
                      /\ Forall tag_clean l').
Proof.
  intros l b. apply (sanitizeTags_leaves_clean_tags b l). reflexivity.
Defined.

(** The tags of the example, sanitized. *)
Lemma sanitizeTags_example :
  clean_tags (JArr [JStr " Casa "; JNum (Fin 7 0); JStr "  "; JBool true; JStr "AUTO"])
  = Ok (JArr [JStr "casa"; JStr "auto"]).
Proof. reflexivity. Qed.

(** *** Booleans *)

(** X10.  [sanitizeBooleanFields] turns every value of [isRecurring] into
    a boolean: a string is true when it reads [true] in any case, another
    value by its truth; an absent field becomes [false].  No other field
    changes, and the check of [isRecurring] that follows on the income
    route then never records an error. *)
Theorem isRecurring_is_made_boolean (b : object) :
  exists (x : bool) (b1 : object),
    List.map (fun c => EV.run c b) (sanitizeBooleanFields ["isRecurring"])
    = [Ok (b1, [])]
    /\ get b1 "isRecurring" = JBool x
    /\ x = match get b "isRecurring" with
           | JStr s => String.eqb (toLowerCase s) "true"
           | v => truthy v
           end
    /\ (forall k, k <> "isRecurring"%string -> get b1 k = get b k)
    /\ EV.run incomeValidations.isRecurring b1 = Ok (b1, []).
Proof.
  set (x := match get b "isRecurring" with
            | JStr s => String.eqb (toLowerCase s) "true"
            | v => truthy v
            end).
  exists x, (set "isRecurring" (JBool x) b).
  assert (Hv : to_boolean (get b "isRecurring") = Ok (JBool x))
    by (subst x; now destruct (get b "isRecurring")).
  split; [|split; [apply get_set_eq|split; [reflexivity|split]]].
  - cbn [sanitizeBooleanFields List.map].
    rewrite run_sanitizers by (reflexivity || discriminate).
    cbn [chain_value ch_items ch_field chain skipped ch_optional andb item_value].
    rewrite Hv. reflexivity.
  - intros k Hk. now apply get_set_ne.
  - unfold EV.run, incomeValidations.isRecurring, isRecurring_chain, select.
    cbn [ch_wildcard ch_field ch_items optional chain].
    rewrite get_set_eq.
    cbn [run_items item_on_instances skipped ch_optional optional chain andb
         run_item bindE fst snd EV.values List.filter].
    replace (negb (isBoolean (EV.toString (JBool x)))) with false
      by now destruct x.
    cbn [List.map Datatypes.app write_back ch_wildcard ch_field optional chain].
    now rewrite set_set.
Qed.

(** ** The query of a list request *)

(** A chain of validators changes no value of the object it runs on. *)
Lemma run_validators_keep (c : Chain) (b b' : object) (es : list ValidationError)
    (k : string) :
  ch_wildcard c = false -> forallb validator (ch_items c) = true ->
  EV.run c b = Ok (b', es) -> get b' k = get b k.
Proof.
  intros Hw Hv H. unfold EV.run, select in H. rewrite Hw in H.
  apply (run_items_single _ _ Hw) in H as (v' & Hval & ->).
  rewrite (chain_value_validators _ _ _ Hv) in Hval. injection Hval as <-.
  destruct (ch_items c); [reflexivity|].
  destruct (String.eqb_spec k (ch_field c)) as [->|Hk];
    [apply get_set_eq|now apply get_set_ne].
Qed.

Lemma of_query_chain_next name stage c E db r r' rd :
  mw_run (of_query_chain name stage c) E db r = (Next r', rd) ->
  exists q es, EV.run (c E) (query r) = Ok (q, es)
               /\ r' = add_errors (List.map in_query es) (with_query q r).
Proof.
  cbn [mw_run of_query_chain]. destruct (EV.run (c E) (query r)) as [[q es]|e];
    intros H; [|discriminate H]. injection H as <- _. eauto.
Qed.

(** A chain of validators on the query keeps what holds of the values of
    the query. *)
Lemma query_validators_keep (P : object -> Prop) name stage (c : Env -> Chain) :
  (forall q q', (forall k, get q' k = get q k) -> P q -> P q') ->
  (forall E, ch_wildcard (c E) = false) ->
  (forall E, forallb validator (ch_items (c E)) = true) ->
  keeps (fun x => P (query x)) (of_query_chain name stage c).
Proof.
  intros HP Hw Hv E db x x' rd Hx H.
  apply of_query_chain_next in H as (q & es & Hrun & ->). cbn.
  apply (HP (query x)); [|exact Hx].
  intros k. exact (run_validators_keep _ _ _ _ k (Hw E) (Hv E) Hrun).
Qed.

(** A custom sanitizer that never throws, on the query: its field holds
    the new value and the other fields keep theirs. *)
Lemma query_sanitizer_next name stage (f : string) (g : JsVal -> Exc JsVal)
    E db r r' rd :
  mw_run (of_query_chain name stage (fun _ => chain f [CustomSanitizer g])) E db r
  = (Next r', rd) ->
  g (get (query r) f) = Ok (get (query r') f)
  /\ (forall k, k <> f -> get (query r') k = get (query r) k)
  /\ errors r' = errors r.
Proof.
  intros H. apply of_query_chain_next in H as (q & es & Hrun & ->).
  rewrite run_sanitizers in Hrun by (reflexivity || discriminate).
  cbn [chain_value ch_items ch_field chain skipped ch_optional andb item_value]
    in Hrun.
  destruct (g (get (query r) f)) as [w|e] eqn:Hg; cbn [bindE] in Hrun;
    [|discriminate Hrun].
  injection Hrun as <- <-. cbn [query errors add_errors with_query List.map].
  split; [now rewrite get_set_eq|]. split; [|apply app_nil_r].
  intros k Hk. now apply get_set_ne.
Qed.

(** The numbers [parseInt] gives are whole. *)
Lemma parseInt_whole (s : string) :
  parseInt s = NaN \/ exists z, parseInt s = Fin z 0.
Proof.
  unfold parseInt.
  destruct (match ltrim s with
            | String "-" r => (true, r)
            | String "+" r => (false, r)
            | _ => (false, ltrim s)
            end) as [neg u].
  assert (Hd : forall m, m = match fst (span_digits u) with
                             | EmptyString => NaN
                             | d => Fin (val d) 0
                             end ->
                         apply_sign neg m = NaN \/ exists z, apply_sign neg m = Fin z 0).
  { intros m ->. destruct (fst (span_digits u)); cbn; eauto. }
  destruct u as [|c0 u']; [apply Hd; reflexivity|].
  destruct (Ascii.eqb c0 "0") eqn:E0.
  - apply Ascii.eqb_eq in E0. subst c0.
    destruct u' as [|x r]; [apply Hd; reflexivity|].
    destruct (Ascii.eqb x "x" || Ascii.eqb x "X"); [|apply Hd; reflexivity].
    destruct (hex_acc 0 false r); cbn; eauto.
  - assert (Hne : c0 <> "0"%char) by (intros ->; discriminate E0).
    destruct c0 as [[] [] [] [] [] [] [] []]; try (apply Hd; reflexivity).
    now destruct Hne.
Qed.

Lemma to_page_ok (v w : JsVal) : to_page v = Ok w -> page_ok w.
Proof.
  unfold to_page. intros [= <-].
  destruct (is_nan (js_parseInt v) || ltb (js_parseInt v) (of_Z 1)) eqn:Hc;
    [exists (of_Z 1); split; reflexivity|].
  exists (js_parseInt v). split; [reflexivity|].
  apply orb_false_elim in Hc as [Hn Hlt]. unfold geb, leb, of_Z in *.
  destruct (js_parseInt v) as [|[]|m k]; try discriminate; try reflexivity.
  cbn [ltb eqb] in *. apply Z.ltb_ge in Hlt.
  destruct (Z.ltb_spec (1 * pow10 k) (m * pow10 0)); [reflexivity|].
  cbn [orb]. apply Z.eqb_eq. lia.
Qed.

Lemma to_limit_ok (v w : JsVal) : to_limit v = Ok w -> limit_ok w.
Proof.
  unfold to_limit, js_parseInt. intros [= <-].
  destruct (parseInt_whole (js_String v)) as [->|(z & ->)];
    [exists 10; split; [reflexivity|lia]|].
  cbn [is_nan orb]. unfold of_Z. cbn [ltb]. change (pow10 0) with 1.
  destruct (Z.ltb_spec (z * 1) (1 * 1)); [exists 10; split; [reflexivity|lia]|].
  cbn [min_number ltb]. change (pow10 0) with 1.
  destruct (Z.ltb_spec (100 * 1) (z * 1)); [exists 100|exists z]; split;
    reflexivity || lia.
Qed.

Lemma to_sort_field_ok (v w : JsVal) : to_sort_field v = Ok w -> sort_ok w.
Proof.
  unfold to_sort_field. intros [= <-].
  destruct v as [| |x|n|s|l]; try (exists "date"%string; split; reflexivity).
  destruct (mem s sort_fields) eqn:E; [exists s|exists "date"%string];
    (split; [|assumption || reflexivity]).
  - change ((if mem s sort_fields then JStr s else JStr "date") = JStr s).
    now rewrite E.
  - change ((if mem s sort_fields then JStr s else JStr "date") = JStr "date").
    now rewrite E.
Qed.

Lemma to_sort_order_ok (v w : JsVal) : to_sort_order v = Ok w -> order_ok w.
Proof.
  unfold to_sort_order. intros [= <-].
  destruct v as [| |x|n|s|l]; try (now right).
  destruct (String.eqb_spec s "asc") as [->|Hne]; [now left|right].
  destruct s as [|c0 s]; [reflexivity|].
  destruct c0 as [[] [] [] [] [] [] [] []]; try reflexivity.
  destruct s as [|c1 s]; [reflexivity|].
  destruct c1 as [[] [] [] [] [] [] [] []]; try reflexivity.
  destruct s as [|c2 s]; [reflexivity|].
  destruct c2 as [[] [] [] [] [] [] [] []]; try reflexivity.
  destruct s; [now destruct Hne|reflexivity].
Qed.

Lemma run_stack_head (m : Middleware) (rest : list Middleware) E db r r' t :
  run_stack (m :: rest) E db r = (Next r', t) ->
  exists r1 rd t1,
    mw_run m E db r = (Next r1, rd) /\ run_stack rest E db r1 = (Next r', t1).
Proof.
  intros H. apply (run_stack_split [] m rest) in H
    as (ra & rm & ta & rd & tp & H0 & Hm & Hrest).
  cbn in H0. injection H0 as <- _. eauto.
Qed.

Lemma query_bounded_ext (q q' : object) :
  (forall k, get q' k = get q k) -> query_bounded q -> query_bounded q'.
Proof. intros H. unfold query_bounded. now rewrite !H. Qed.

(** The four sanitizers of the query never stop a request: they bound its
    query and record nothing. *)
Lemma query_sanitizers_bound E db r r4 t :
  run_stack (List.map (fun c => of_query_chain "sanitizeQueryParams" Sanitizer
                                  (fun _ => c)) sanitizeQueryParams) E db r
  = (Next r4, t) ->
  query_bounded (query r4) /\ errors r4 = errors r.
Proof.
  unfold sanitizeQueryParams. cbn [List.map]. intros H.
  apply run_stack_head in H as (r1 & rd1 & t1 & H1 & H).
  apply run_stack_head in H as (r2 & rd2 & t2 & H2 & H).
  apply run_stack_head in H as (r3 & rd3 & t3 & H3 & H).
  apply run_stack_head in H as (r4' & rd4 & t4 & H4 & H).
  cbn in H. injection H as <- _.
  apply query_sanitizer_next in H1 as (P1 & _ & E1).
  apply query_sanitizer_next in H2 as (P2 & K2 & E2).
  apply query_sanitizer_next in H3 as (P3 & K3 & E3).
  apply query_sanitizer_next in H4 as (P4 & K4 & E4).
  split; [|congruence]. unfold query_bounded.
  rewrite (K4 "page"), (K3 "page"), (K2 "page") by discriminate.
  rewrite (K4 "limit"), (K3 "limit") by discriminate.
  rewrite (K4 "sortBy") by discriminate.
  split; [exact (to_page_ok _ _ P1)|].
  split; [exact (to_limit_ok _ _ P2)|].
  split; [exact (to_sort_field_ok _ _ P3)|exact (to_sort_order_ok _ _ P4)].
Qed.

Lemma income_list_tail_keeps :
  Forall (keeps (fun x => query_bounded (query x)))
    [ of_query_chain "queryValidations.page" Schema (fun _ => queryValidations.page);
      of_query_chain "queryValidations.limit" Schema (fun _ => queryValidations.limit);
      of_query_chain "queryValidations.startDate" Schema
        (fun E => queryValidations.startDate (dates E));
      of_query_chain "queryValidations.endDate" Schema
        (fun E => queryValidations.endDate (dates E));
      of_query_chain "queryValidations.sortBy" Schema (fun _ => queryValidations.sortBy);
      of_query_chain "queryValidations.sortOrder" Schema
        (fun _ => queryValidations.sortOrder);
      schema "category"
        (fun _ => optional (chain "category"
           [Validate (isIn income_categories) "Categoría no válida"]));
      validateActiveUser;
      handleValidationErrors ].
Proof.
  assert (Hq : forall name c,
             (forall E, ch_wildcard (c E) = false) ->
             (forall E, forallb validator (ch_items (c E)) = true) ->
             keeps (fun x => query_bounded (query x)) (of_query_chain name Schema c)).
  { intros name c. apply query_validators_keep. exact query_bounded_ext. }
  do 6 (apply List.Forall_cons; [apply Hq; reflexivity|]).
  apply List.Forall_cons; [apply of_chain_keeps; intros r b es H; exact H|].
  apply List.Forall_cons.
  { intros E db r r' rd HP H. apply rule_next in H as ->; [exact HP|now left]. }
  apply List.Forall_cons; [apply handleValidationErrors_keeps|apply List.Forall_nil].
Qed.

(** X11.  The query that the list route of the incomes hands to its
    handler: a page that is a number of at least 1, a whole limit between 1
    and 100, a sort field of the list and one of the two orders, whatever
    the client sent; and no validation error is recorded. *)
Theorem income_list_hands_on_a_bounded_query (E : Env) (db : Db) (r r' : Request)
    (t : list Event) :
  run_stack (authenticateToken :: income_list) E db r = (Next r', t) ->
  query_bounded (query r') /\ errors r' = [].
Proof.
  intros H. split.
  - apply run_stack_head in H as (r0 & rd0 & t0 & _ & H).
    unfold income_list in H. rewrite run_stack_app in H.
    destruct (run_stack _ E db r0) as [[r4| |] t4] eqn:Hs; try discriminate H.
    apply query_sanitizers_bound in Hs as [Hb _].
    destruct (run_stack _ E db r4) as [s1 t1] eqn:Ht in H.
    injection H as -> _.
    exact (run_stack_keeps _ _ income_list_tail_keeps E db r4 r' t1 Hb Ht).
  - change (authenticateToken :: income_list)
      with ((authenticateToken
             :: List.map (fun c => of_query_chain "sanitizeQueryParams" Sanitizer
                                      (fun _ => c)) sanitizeQueryParams
             ++ [ of_query_chain "queryValidations.page" Schema
                    (fun _ => queryValidations.page);
                  of_query_chain "queryValidations.limit" Schema
                    (fun _ => queryValidations.limit);
                  of_query_chain "queryValidations.startDate" Schema
                    (fun E => queryValidations.startDate (dates E));
                  of_query_chain "queryValidations.endDate" Schema
                    (fun E => queryValidations.endDate (dates E));
                  of_query_chain "queryValidations.sortBy" Schema
                    (fun _ => queryValidations.sortBy);
                  of_query_chain "queryValidations.sortOrder" Schema
                    (fun _ => queryValidations.sortOrder);
                  schema "category"
                    (fun _ => optional (chain "category"
                       [Validate (isIn income_categories) "Categoría no válida"]));
                  validateActiveUser ])
            ++ handleValidationErrors :: []) in H.
    apply run_stack_split in H as (ra & rm & ta & rd & tp & _ & Hm & Hend).
    cbn in Hend. injection Hend as <- _.
    cbn [mw_run handleValidationErrors] in Hm.
    destruct (errors ra) eqn:He; [|discriminate Hm]. now injection Hm as <- _.
Qed.

Lemma income_list_hands_on_a_bounded_query_witness :
  exists r' t,
    run_stack (authenticateToken :: income_list) Fixtures.E0 Fixtures.db0
      list_incomes = (Next r', t)
    /\ get (query r') "limit" = JNum (Fin 100 0)
    /\ get (query r') "page" = JNum (of_Z 1)
    /\ get (query r') "sortBy" = JStr "date"
    /\ get (query r') "sortOrder" = JStr "desc"
    /\ query_bounded (query r') /\ errors r' = [].
Proof.
  assert (Hv : match fst (run_stack (authenticateToken :: income_list) Fixtures.E0
                            Fixtures.db0 list_incomes) with
               | Next x => get (query x) "limit" = JNum (Fin 100 0)
                           /\ get (query x) "page" = JNum (Fin 1 0)
                           /\ get (query x) "sortBy" = JStr "date"
                           /\ get (query x) "sortOrder" = JStr "desc"
               | _ => False
               end).
  { vm_compute. repeat split; reflexivity. }
  destruct (run_stack (authenticateToken :: income_list) Fixtures.E0 Fixtures.db0
              list_incomes) as [[x| |] t] eqn:Hs; cbn [fst] in Hv;
    try contradiction.
  exists x, t. destruct Hv as (Hl & Hp & Hb & Ho).
  split; [reflexivity|]. split; [exact Hl|]. split; [exact Hp|].
  split; [exact Hb|]. split; [exact Ho|].
  exact (income_list_hands_on_a_bounded_query _ _ _ _ _ Hs).
Defined.

(** *** What a list request can be rejected for *)

Lemma run_item_paths (it : Item) (b : object) (path : string) (v v' : JsVal)
    (es : list ValidationError) :
  run_item it b path v = Ok (v', es) -> List.Forall (fun e => ve_path e = path) es.
Proof.
  destruct it; cbn [run_item]; intros H.
  - injection H as _ <-. constructor.
  - destruct (f v); cbn in H; [|discriminate H]. injection H as _ <-. constructor.
  - injection H as _ <-. apply List.Forall_forall. intros e He.
    apply List.in_map_iff in He as (x & <- & _). reflexivity.
  - injection H as _ <-. destruct (p v); repeat constructor.
  - injection H as _ <-. destruct (p v b); repeat constructor.
Qed.

Lemma item_on_instances_paths (c : Chain) (it : Item) (b : object)
    (insts insts' : list (string * JsVal)) (es : list ValidationError) :
  item_on_instances c it b insts = Ok (insts', es) ->
  List.map fst insts' = List.map fst insts
  /\ List.Forall (fun e => In (ve_path e) (List.map fst insts)) es.
Proof.
  revert insts' es. induction insts as [|[path v] rest IH]; intros insts' es H.
  - cbn in H. injection H as <- <-. split; [reflexivity|constructor].
  - cbn [item_on_instances] in H.
    destruct (if skipped c v then Ok (v, []) else run_item it b path v)
      as [[v1 es1]|e] eqn:H1; cbn [bindE] in H; [|discriminate H].
    destruct (item_on_instances c it b rest) as [[rs es2]|e] eqn:H2;
      cbn [bindE fst snd] in H; [|discriminate H].
    injection H as <- <-. destruct (IH _ _ eq_refl) as [Hm Hf].
    split; [cbn; now rewrite Hm|].
    apply List.Forall_app. split.
    + assert (Hp : List.Forall (fun e => ve_path e = path) es1).
      { destruct (skipped c v); [injection H1 as _ <-; constructor|].
        exact (run_item_paths _ _ _ _ _ _ H1). }
      eapply List.Forall_impl; [|exact Hp]. intros e ->. now left.
    + eapply List.Forall_impl; [|exact Hf]. intros e He. now right.
Qed.

Lemma run_items_paths (c : Chain) (items : list Item) (b b' : object)
    (insts : list (string * JsVal)) (es : list ValidationError) :
  run_items c items b insts = Ok (b', es) ->
  List.Forall (fun e => In (ve_path e) (List.map fst insts)) es.
Proof.
  revert b b' insts es. induction items as [|it rest IH]; intros b b' insts es H.
  - cbn in H. injection H as _ <-. constructor.
  - cbn [run_items] in H.
    destruct (item_on_instances c it b insts) as [[i1 es1]|e] eqn:H1;
      cbn [bindE fst snd] in H; [|discriminate H].
    destruct (run_items c rest (write_back c i1 b) i1) as [[b2 es2]|e] eqn:H2;
      cbn [bindE fst snd] in H; [|discriminate H].
    injection H as _ <-.
    apply item_on_instances_paths in H1 as [Hm Hf]. apply IH in H2.
    rewrite Hm in H2. apply List.Forall_app. now split.
Qed.

(** The errors of a chain on one field name that field. *)
Lemma run_paths (c : Chain) (b b' : object) (es : list ValidationError) :
  ch_wildcard c = false -> EV.run c b = Ok (b', es) ->
  List.Forall (fun e => ve_path e = ch_field c) es.
Proof.
  intros Hw H. unfold EV.run, select in H. rewrite Hw in H.
  apply run_items_paths in H. eapply List.Forall_impl; [|exact H].
  cbn. intros e [He|[]]. now symmetry.
Qed.

(** A chain of one standard validator that holds of the value records
    nothing. *)
Lemma validate_accepts (c : Chain) p msg (b : object) :
  ch_wildcard c = false -> ch_items c = [Validate p msg] ->
  forallb (fun x => p (EV.toString x)) (values (get b (ch_field c))) = true ->
  exists b', EV.run c b = Ok (b', []).
Proof.
  intros Hw Hi Hp. unfold EV.run, select. rewrite Hw, Hi.
  cbn [run_items item_on_instances].
  destruct (skipped c (get b (ch_field c))); cbn [bindE fst snd run_item app];
    [eauto|].
  replace (List.filter _ _) with (@nil JsVal); [cbn; eauto|].
  symmetry. induction (values (get b (ch_field c))) as [|x l IH]; [reflexivity|].
  cbn [forallb] in Hp. apply andb_prop in Hp as [Hx Hl].
  cbn [List.filter]. rewrite Hx. cbn. now apply IH.
Qed.

(** A chain of validators throws nothing. *)
Lemma validators_never_throw (c : Chain) (b : object) (name : string) :
  forallb validator (ch_items c) = true -> EV.run c b <> Throw name.
Proof.
  unfold EV.run. generalize (select c b). generalize b.
  induction (ch_items c) as [|it rest IH]; intros b0 insts Hv H; [discriminate H|].
  cbn [forallb] in Hv. apply andb_prop in Hv as [Hi Hr].
  cbn [run_items] in H.
  assert (Hit : exists r, item_on_instances c it b0 insts = Ok r).
  { clear H. induction insts as [|[path v] l IHl]; [cbn; eauto|].
    cbn [item_on_instances]. destruct IHl as [rs ->].
    destruct (skipped c v); [cbn; eauto|].
    destruct it; try discriminate Hi; cbn; eauto. }
  destruct Hit as [r Hit]. rewrite Hit in H. cbn [bindE] in H.
  destruct (run_items c rest (write_back c r.1 b0) r.1) as [k|e] eqn:Hk;
    [discriminate H|]. cbn in H. injection H as ->. exact (IH _ _ Hr Hk).
Qed.

(** The strings of the limits are integers between 1 and 100. *)
Lemma limit_strings :
  forallb (fun n => isInt (Some (of_Z 1)) (Some (of_Z 100))
                      (EV.toString (JNum (Fin (Z.of_nat n) 0))))
          (seq 1 100) = true.
Proof. vm_compute. reflexivity. Qed.

Lemma limit_ok_accepted (v : JsVal) :
  limit_ok v ->
  forallb (fun x => isInt (Some (of_Z 1)) (Some (of_Z 100)) (EV.toString x))
          (values v) = true.
Proof.
  intros (z & -> & Hz). cbn [values forallb]. rewrite andb_true_r.
  pose proof limit_strings as H. rewrite forallb_forall in H.
  specialize (H (Z.to_nat z)). rewrite Z2Nat.id in H by lia.
  apply H. apply in_seq. lia.
Qed.

Lemma income_list_split :
  income_list
  = List.map (fun c => of_query_chain "sanitizeQueryParams" Sanitizer (fun _ => c))
      sanitizeQueryParams
    ++ income_list_checks ++ [handleValidationErrors].
Proof. reflexivity. Qed.

Lemma of_query_chain_answers Q name stage c : answers Q (of_query_chain name stage c).
Proof.
  intros E db r resp rd. cbn [mw_run of_query_chain].
  destruct (EV.run (c E) (query r)) as [[b es]|e]; discriminate.
Qed.

Lemma about_in_query (fields : list string) (f : string) (es : list ValidationError) :
  In f fields -> List.Forall (fun e => ve_path e = f) es ->
  about fields (List.map in_query es).
Proof.
  intros Hf H. apply List.Forall_forall. intros e He.
  apply List.in_map_iff in He as (e0 & <- & He0).
  rewrite List.Forall_forall in H. cbn. now rewrite (H _ He0).
Qed.

(** A chain of validators on a field of [list_fields]. *)
Lemma query_chain_keeps_state name (c : Env -> Chain) :
  (forall E, ch_wildcard (c E) = false) ->
  (forall E, forallb validator (ch_items (c E)) = true) ->
  (forall E, In (ch_field (c E)) list_fields) ->
  keeps list_state (of_query_chain name Schema c).
Proof.
  intros Hw Hv Hf E db x x' rd [Hq He] H.
  apply of_query_chain_next in H as (q & es & Hrun & ->). split; cbn.
  - apply (query_bounded_ext (query x)); [|exact Hq].
    intros k. exact (run_validators_keep _ _ _ _ k (Hw E) (Hv E) Hrun).
  - apply List.Forall_app. split; [exact He|].
    apply (about_in_query _ (ch_field (c E))); [apply Hf|].
    exact (run_paths _ _ _ _ (Hw E) Hrun).
Qed.

(** A validator that holds of every bounded query. *)
Lemma query_chain_accepts name (c : Chain) p msg :
  ch_wildcard c = false -> ch_items c = [Validate p msg] ->
  (forall q, query_bounded q ->
             forallb (fun x => p (EV.toString x)) (values (get q (ch_field c))) = true) ->
  keeps list_state (of_query_chain name Schema (fun _ => c)).
Proof.
  intros Hw Hi Hp E db x x' rd [Hq He] H.
  apply of_query_chain_next in H as (q & es & Hrun & ->).
  destruct (validate_accepts c p msg (query x) Hw Hi (Hp _ Hq)) as [b' Hb].
  rewrite Hb in Hrun. injection Hrun as -> <-. split; cbn.
  - apply (query_bounded_ext (query x)); [|exact Hq].
    intros k. apply (run_validators_keep c _ _ [] k Hw); [now rewrite Hi|exact Hb].
  - now rewrite app_nil_r.
Qed.

Lemma income_list_checks_keep : Forall (keeps list_state) income_list_checks.
Proof.
  unfold income_list_checks.
  apply List.Forall_cons.
  { apply query_chain_keeps_state; intros; cbn; auto. }
  apply List.Forall_cons.
  { eapply query_chain_accepts; [reflexivity|reflexivity|].
    intros q (_ & Hl & _). exact (limit_ok_accepted _ Hl). }
  apply List.Forall_cons.
  { apply query_chain_keeps_state; intros; cbn; auto. }
  apply List.Forall_cons.
  { apply query_chain_keeps_state; intros; cbn; auto. }
  apply List.Forall_cons.
  { eapply query_chain_accepts; [reflexivity|reflexivity|].
    intros q (_ & _ & (s & Hs & Hm) & _). cbn [ch_field queryValidations.sortBy optional chain].
    rewrite Hs. cbn [values forallb EV.toString js_String]. now rewrite andb_true_r. }
  apply List.Forall_cons.
  { eapply query_chain_accepts; [reflexivity|reflexivity|].
    intros q (_ & _ & _ & Ho).
    cbn [ch_field queryValidations.sortOrder optional chain].
    destruct Ho as [-> | ->]; reflexivity. }
  apply List.Forall_cons.
  { intros E db x x' rd [Hq He] H.
    apply of_chain_next in H as (b & es & Hrun & -> & _). split; [exact Hq|]. cbn.
    apply List.Forall_app. split; [exact He|].
    apply run_paths in Hrun; [|reflexivity].
    eapply List.Forall_impl; [|exact Hrun]. cbn. intros e ->. auto. }
  apply List.Forall_cons; [|apply List.Forall_nil].
  intros E db x x' rd HP H. apply rule_next in H as ->; [exact HP|now left].
Qed.

Lemma income_list_checks_answer :
  Forall (answers (fun resp => validationErrors resp = [])) income_list_checks.
Proof.
  unfold income_list_checks.
  do 6 (apply List.Forall_cons; [apply of_query_chain_answers|]).
  apply List.Forall_cons; [apply of_chain_answers|].
  apply List.Forall_cons; [|apply List.Forall_nil].
  intros E db r resp rd H. apply rule_answers in H as [H _]; [exact H|now left].
Qed.

Lemma query_sanitizers_answer Q (l : list Chain) :
  Forall (answers Q)
    (List.map (fun c => of_query_chain "sanitizeQueryParams" Sanitizer (fun _ => c)) l).
Proof.
  induction l; cbn [List.map]; constructor; auto using of_query_chain_answers.
Qed.

Lemma run_stack_app_respond (l1 l2 : list Middleware) E db r resp t :
  run_stack (l1 ++ l2) E db r = (Respond resp, t) ->
  (exists t1, run_stack l1 E db r = (Respond resp, t1))
  \/ exists r1 t1 t2, run_stack l1 E db r = (Next r1, t1)
                      /\ run_stack l2 E db r1 = (Respond resp, t2).
Proof.
  rewrite run_stack_app.
  destruct (run_stack l1 E db r) as [[r1|resp1|n1] t1]; intros H.
  - destruct (run_stack l2 E db r1) as [s2 t2] eqn:H2.
    assert (Hs : s2 = Respond resp) by congruence. subst s2. right. eauto.
  - assert (Hs : resp1 = resp) by congruence. subst resp1. left. eauto.
  - discriminate H.
Qed.

(** X12.  A list request of the incomes is rejected for its page, its
    dates or its category only: when the stack of the route answers, the
    validation errors of the answer name no other field.  A limit, a sort
    field or a sort order out of range is replaced, never reported. *)
Theorem income_list_rejects_for_four_fields_only (E : Env) (db : Db) (r : Request)
    (resp : Response) (t : list Event) :
  errors r = [] ->
  run_stack (authenticateToken :: income_list) E db r = (Respond resp, t) ->
  about list_fields (validationErrors resp).
Proof.
  intros Hnil H.
  apply (run_stack_app_respond [authenticateToken] income_list) in H
    as [(t1 & H)|(r0 & t1 & t2 & Ha & H)].
  { apply (run_stack_answers (fun resp => validationErrors resp = [])) in H;
      [rewrite H; constructor|].
    constructor; [|constructor]. intros E' db' r' resp' rd'.
    cbn [mw_run authenticateToken].
    destruct (token r'); [destruct (findById db' z)|]; intros Ha; try discriminate Ha;
      now injection Ha as <- _. }
  assert (H0 : errors r0 = []).
  { apply (run_stack_keeps (fun x => errors x = [])) in Ha; [exact Ha| |exact Hnil].
    constructor; [|constructor]. intros E' db' x x' rd' Hx.
    cbn [mw_run authenticateToken].
    destruct (token x); [destruct (findById db' z)|]; intros Hm; try discriminate Hm.
    now injection Hm as <- _. }
  rewrite income_list_split in H.
  apply run_stack_app_respond in H as [(t3 & H)|(r4 & t3 & t4 & Hs & H)].
  { exfalso. exact (run_stack_answers (fun _ => False) _
                      (query_sanitizers_answer _ _) _ _ _ _ _ H). }
  apply query_sanitizers_bound in Hs as [Hb He]. rewrite H0 in He.
  assert (H4 : list_state r4) by (split; [exact Hb|rewrite He; constructor]).
  apply run_stack_app_respond in H as [(t5 & H)|(ra & t5 & t6 & Hc & H)].
  { apply (run_stack_answers _ _ income_list_checks_answer) in H.
    rewrite H. constructor. }
  apply (run_stack_keeps _ _ income_list_checks_keep) in Hc as [_ Hea]; [|exact H4].
  cbn [run_stack mw_run handleValidationErrors] in H.
  destruct (errors ra) eqn:Hra; [discriminate H|].
  assert (Hr : resp = {| status := 400; message := "Datos de entrada inválidos";
                         validationErrors := v :: l |}) by congruence.
  rewrite Hr. exact Hea.
Qed.

Lemma income_list_rejects_for_four_fields_only_witness :
  exists resp t,
    run_stack (authenticateToken :: income_list) Fixtures.E0 Fixtures.db0
      list_incomes_since_yesterday = (Respond resp, t)
    /\ status resp = 400
    /\ List.map ve_path (validationErrors resp) = ["startDate"]%string
    /\ about list_fields (validationErrors resp).
Proof.
  assert (Hv : match fst (run_stack (authenticateToken :: income_list) Fixtures.E0
                            Fixtures.db0 list_incomes_since_yesterday) with
               | Respond x => status x = 400
                              /\ List.map ve_path (validationErrors x)
                                 = ["startDate"]%string
               | _ => False
               end).
  { vm_compute. split; reflexivity. }
  destruct (run_stack (authenticateToken :: income_list) Fixtures.E0 Fixtures.db0
              list_incomes_since_yesterday) as [[x|x|] t] eqn:Hs; cbn [fst] in Hv;
    try contradiction.
  exists x, t. destruct Hv as [H400 Hp].
  split; [reflexivity|]. split; [exact H400|]. split; [exact Hp|].
  exact (income_list_rejects_for_four_fields_only Fixtures.E0 Fixtures.db0
           list_incomes_since_yesterday x t eq_refl Hs).
Defined.

(** *** The list route throws nothing *)

Lemma query_sanitizer_never_raises (f : string) (g : JsVal -> Exc JsVal) :
  (forall v, exists w, g v = Ok w) ->
  never_raises (of_query_chain "sanitizeQueryParams" Sanitizer
                  (fun _ => chain f [CustomSanitizer g])).
Proof.
  intros Hg E db r name rd. cbn [mw_run of_query_chain].
  rewrite run_sanitizers by (reflexivity || discriminate).
  cbn [chain_value ch_items ch_field chain skipped ch_optional andb item_value].
  destruct (Hg (get (query r) f)) as [w ->]. discriminate.
Qed.

Lemma query_validators_never_raise name stage (c : Env -> Chain) :
  (forall E, forallb validator (ch_items (c E)) = true) ->
  never_raises (of_query_chain name stage c).
Proof.
  intros Hv E db r n rd. cbn [mw_run of_query_chain].
  destruct (EV.run (c E) (query r)) as [[q es]|e] eqn:Hrun; [discriminate|].
  intros _. exact (validators_never_throw _ _ _ (Hv E) Hrun).
Qed.

Lemma validators_never_raise name stage (c : Env -> Chain) :
  (forall E, forallb validator (ch_items (c E)) = true) ->
  never_raises (of_chain name stage c).
Proof.
  intros Hv E db r n rd. cbn [mw_run of_chain].
  destruct (EV.run (c E) (body r)) as [[q es]|e] eqn:Hrun; [discriminate|].
  intros _. exact (validators_never_throw _ _ _ (Hv E) Hrun).
Qed.

(** X13.  The stack of the list route of the incomes throws nothing on a
    request whose body and query hold strings, numbers, booleans, [null]
    and arrays of these, the values of the embedding: its sanitizers read
    the query only and replace what they cannot read by a default.  (A
    value that is a JSON object is outside the statement: its conversion
    to a string can throw.) *)
Theorem income_list_never_throws (E : Env) (db : Db) (r : Request) (name : string)
    (t : list Event) :
  run_stack (authenticateToken :: income_list) E db r <> (Raise name, t).
Proof.
  apply run_stack_never_raises. apply List.Forall_cons.
  { intros E' db' r' n rd. cbn [mw_run authenticateToken].
    destruct (token r'); [destruct (findById db' z)|]; discriminate. }
  rewrite income_list_split. apply List.Forall_app. split.
  - unfold sanitizeQueryParams. cbn [List.map].
    repeat apply List.Forall_cons; try apply List.Forall_nil;
      apply query_sanitizer_never_raises; intros v; eexists; reflexivity.
  - apply List.Forall_app. split.
    + unfold income_list_checks.
      do 6 (apply List.Forall_cons;
            [apply query_validators_never_raise; reflexivity|]).
      apply List.Forall_cons; [apply validators_never_raise; reflexivity|].
      apply List.Forall_cons; [|apply List.Forall_nil].
      pose proof rules_never_raise as Hr. unfold income_rules in Hr.
      now apply List.Forall_cons_iff in Hr as [Hr _].
    + apply List.Forall_cons; [|apply List.Forall_nil].
      intros E' db' r' n rd. cbn [mw_run handleValidationErrors].
      destruct (errors r'); discriminate.
Qed.

(** *** The limit and the page of a decimal string *)

Lemma span_digits_all (s : string) :
  all_chars is_digit s = true -> span_digits s = (s, EmptyString).
Proof.
  induction s as [|c s IH]; [reflexivity|]. cbn [all_chars span_digits].
  intros [Hc Hs]%andb_prop. rewrite Hc, (IH Hs). reflexivity.
Qed.

Lemma parseInt_digits (d : string) :
  d <> EmptyString -> all_chars is_digit d = true -> parseInt d = Fin (val d) 0.
Proof.
  destruct d as [|c d']; [contradiction|]. intros _ Hd.
  pose proof (span_digits_all _ Hd) as Hsp.
  cbn [all_chars] in Hd. apply andb_prop in Hd as [Hc Hd'].
  destruct c as [[] [] [] [] [] [] [] []]; try discriminate Hc;
    unfold parseInt; rewrite ltrim_fixed by reflexivity; cbv beta iota zeta;
    try (rewrite Hsp; reflexivity).
  destruct d' as [|x r]; [reflexivity|].
  destruct (Ascii.eqb x "x" || Ascii.eqb x "X") eqn:Ex; [|rewrite Hsp; reflexivity].
  cbn [all_chars] in Hd'. apply andb_prop in Hd' as [Hx _].
  apply orb_true_iff in Ex as [Ex|Ex]; apply Ascii.eqb_eq in Ex; subst x;
    discriminate Hx.
Qed.

(** X14.  What the sanitizers of the query make of a decimal string of up
    to 15 digits, which a number holds exactly: the limit is the number
    read, at most 100, and 10 for a zero; the page is the number read, and
    1 for a zero. *)
Theorem limit_and_page_of_a_decimal_string (d : string) :
  d <> EmptyString -> all_chars is_digit d = true -> (String.length d <= 15)%nat ->
  to_limit (JStr d) = Ok (JNum (of_Z (if val d =? 0 then 10 else Z.min (val d) 100)))
  /\ to_page (JStr d) = Ok (JNum (of_Z (Z.max (val d) 1))).
Proof.
  intros Hne Hd _. unfold to_limit, to_page, js_parseInt. cbn [js_String].
  rewrite (parseInt_digits d Hne Hd). cbn [is_nan orb]. unfold of_Z.
  cbn [ltb min_number]. change (pow10 0) with 1.
  pose proof (val_bounds d Hd) as [Hlo _].
  split.
  - destruct (Z.ltb_spec (val d * 1) (1 * 1)).
    + replace (val d =? 0) with true by (symmetry; apply Z.eqb_eq; lia). reflexivity.
    + replace (val d =? 0) with false by (symmetry; apply Z.eqb_neq; lia).
      destruct (Z.ltb_spec (100 * 1) (val d * 1)); do 3 f_equal; lia.
  - destruct (Z.ltb_spec (val d * 1) (1 * 1)); do 3 f_equal; lia.
Qed.

Lemma limit_and_page_of_a_decimal_string_witness :
  to_limit (JStr "250") = Ok (JNum (of_Z 100))
  /\ to_page (JStr "250") = Ok (JNum (of_Z 250)).
Proof.
  apply (limit_and_page_of_a_decimal_string "250");
    [discriminate|reflexivity|cbn; lia].
Defined.

(** ** The optional authentication *)

(** X15.  [optionalAuth] stops no request: it hands on what
    [authenticateToken] hands on when that accepts the request, reading the
    same collection, and the request as it came when that answers 401. *)
Theorem optionalAuth_never_stops (E : Env) (db : Db) (r : Request) :
  exists r' rd,
    mw_run optionalAuth E db r = (Next r', rd)
    /\ match mw_run authenticateToken E db r with
       | (Next r1, rd1) => r' = r1 /\ rd = rd1
       | (Respond resp, rd1) => r' = r /\ rd = rd1 /\ status resp = 401
       | (Raise _, _) => False
       end.
Proof.
  cbn [mw_run optionalAuth authenticateToken].
  destruct (token r) as [id|]; [destruct (findById db id) as [u|]|];
    eexists; eexists; (split; [reflexivity|]); auto.
Qed.

(** ** The list of the expenses *)

Lemma query_validators_pass name stage (c : Env -> Chain) E db r :
  ch_wildcard (c E) = false -> forallb validator (ch_items (c E)) = true ->
  exists r', mw_run (of_query_chain name stage c) E db r = (Next r', [])
             /\ same_query r r'.
Proof.
  intros Hw Hv. cbn [mw_run of_query_chain].
  destruct (EV.run (c E) (query r)) as [[q es]|e] eqn:Hrun.
  - eexists. split; [reflexivity|]. split; [|split; reflexivity].
    intros k. exact (run_validators_keep _ _ _ _ k Hw Hv Hrun).
  - now apply validators_never_throw in Hrun.
Qed.

Lemma run_stack_passes (mws : list Middleware) E db :
  List.Forall (fun m => forall r, exists r' rd, mw_run m E db r = (Next r', rd)
                                           /\ same_query r r') mws ->
  forall r, exists r' t, run_stack mws E db r = (Next r', t) /\ same_query r r'.
Proof.
  induction 1 as [|m mws Hm _ IH]; intros r.
  - exists r, []. split; [reflexivity|]. repeat split.
  - destruct (Hm r) as (r1 & rd & H1 & Hq1 & Hb1 & Hu1).
    destruct (IH r1) as (r' & t & H2 & Hq2 & Hb2 & Hu2).
    cbn [run_stack]. rewrite H1, H2. eexists; eexists. split; [reflexivity|].
    split; [|split; congruence]. intros k. now rewrite Hq2, Hq1.
Qed.

(** X16.  The list route of the expenses rejects nothing: a request of a
    stored user reaches the handler with the query as it was sent,
    whatever its limit, page or sort field. *)
Theorem expense_list_rejects_nothing (E : Env) (db : Db) (r : Request) (id : Z)
    (u : User) :
  token r = Some id -> findById db id = Some u ->
  exists r' t,
    run_stack (authenticateToken :: expense_list) E db r = (Next r', t)
    /\ (forall k, get (query r') k = get (query r) k)
    /\ body r' = body r /\ user r' = Some id.
Proof.
  intros Ht Hu.
  destruct (run_stack_passes expense_list E db) with (r := with_user (u_id u) r)
    as (r' & t & H & Hq & Hb & Hus).
  { assert (Hp : forall name c,
               ch_wildcard (c E) = false ->
               forallb validator (ch_items (c E)) = true ->
               forall x, exists x' rd,
                 mw_run (of_query_chain name Schema c) E db x = (Next x', rd)
                 /\ same_query x x').
    { intros name c Hw Hv x.
      destruct (query_validators_pass name Schema c E db x Hw Hv) as (x' & Hx & Hs).
      eauto. }
    unfold expense_list.
    do 8 (apply List.Forall_cons; [apply Hp; reflexivity|]).
    apply List.Forall_nil. }
  cbn [run_stack mw_run authenticateToken]. rewrite Ht, Hu, H.
  eexists; eexists. split; [reflexivity|]. split; [exact Hq|]. split; [exact Hb|].
  rewrite Hus. cbn. f_equal. exact (findById_id _ _ _ Hu).
Qed.

Lemma expense_list_rejects_nothing_witness :
  exists r' t,
    run_stack (authenticateToken :: expense_list) Fixtures.E0 Fixtures.db0
      list_incomes = (Next r', t)
    /\ (forall k, get (query r') k = get (query list_incomes) k)
    /\ body r' = body list_incomes /\ user r' = Some 1.
Proof.
  apply (expense_list_rejects_nothing Fixtures.E0 Fixtures.db0 list_incomes 1
           Fixtures.alice); reflexivity.
Defined.

(** ** The text of a stored income *)

(** The chain [c] on the field [f], in a stack whose later chains are on
    other fields: when the request ends without validation errors, the
    chain recorded none and left the value the request ends with. *)
Lemma schema_result (pre post : list Middleware) name (c : Env -> Chain)
    (f : string) E db r r1 t :
  ch_field (c E) = f ->
  (forall v G,
      Forall (keeps (fun x => get (body x) f = v /\ (errors x = [] -> G))) post) ->
  run_stack (pre ++ schema name c :: post) E db r = (Next r1, t) ->
  errors r1 = [] ->
  exists b b', EV.run (c E) b = Ok (b', []) /\ get b' f = get (body r1) f.
Proof.
  intros Hf Hpost Hrun Hnil.
  apply run_stack_split in Hrun as (ra & rm & ta & rd & tp & _ & Hm & Hp).
  apply of_chain_next in Hm as (b & es & Hc & -> & _).
  pose proof (run_stack_keeps _ _ (Hpost (get b f) (es = [])) E db
                (add_errors es (with_body b ra)) r1 tp) as Hk.
  destruct Hk as [Hv Hes]; [|exact Hp|].
  - split; [reflexivity|]. cbn. intros H. now apply app_eq_nil in H as [_ H].
  - rewrite (Hes Hnil) in Hc. exists (body ra), b. split; [exact Hc|]. now rewrite Hv.
Qed.

Lemma filter_negb_nil {A} (p : A -> bool) (l : list A) :
  List.filter (fun x => negb (p x)) l = [] -> forallb p l = true.
Proof.
  induction l as [|x l IH]; [reflexivity|]. cbn [List.filter forallb].
  destruct (p x); cbn [negb]; [exact IH|discriminate].
Qed.

Lemma description_accepted (b b' : object) :
  EV.run transactionValidations.description b = Ok (b', []) ->
  get b' "description" = smap trim (get b "description")
  /\ forallb (fun x => matches_plus description_char (EV.toString x))
       (values (smap trim (get b "description"))) = true.
Proof.
  intros H. unfold EV.run, select in H.
  cbn [transactionValidations.description chain ch_wildcard ch_field ch_items
       run_items item_on_instances skipped ch_optional andb run_item bindE fst snd
       write_back app] in H.
  fold (smap trim (get b "description")) in H.
  injection H as Hb Hes. split.
  - rewrite <- Hb, set_set. apply get_set_eq.
  - rewrite !app_nil_r in Hes. apply app_eq_nil in Hes as [_ Hes].
    apply map_eq_nil in Hes. exact (filter_negb_nil _ _ Hes).
Qed.

(** X17.  The description of an income that is stored is made of the
    characters of the pattern of the schema only (letters, digits, white
    space and [-.,()]) and has between 3 and 200 of them: a description
    with markup is not stored escaped, it is rejected. *)
Theorem stored_income_description
    (E : Env) (db : Db) (r : Request) (doc : Transaction) :
  db_after (run_route (authenticateToken :: income_post) createIncome E db r)
  = Models.insert Models.Income doc db ->
  all_chars description_char (t_description doc) = true
  /\ (3 <= String.length (t_description doc) <= 200)%nat.
Proof.
  intros Hdb.
  destruct (stored_income E db r doc Hdb) as (r1 & t0 & id & Hf & Hu & He & HF & Hdoc).
  destruct (create_document _ _ _ _ _ Hdoc) as (_ & (d0 & Hcast & -> & Hlen) & _).
  split.
  2:{ unfold Models.within in Hlen. apply andb_prop in Hlen as [H3 H200].
      apply Nat.leb_le in H3, H200. lia. }
  change (authenticateToken :: income_front)
    with ((authenticateToken :: income_guards ++ income_sanitizers
             ++ List.firstn 0 income_schema)
          ++ schema "transactionValidations.description"
               (fun _ => transactionValidations.description)
          :: List.skipn 1 income_schema) in Hf.
  apply (schema_result _ _ _ _ "description") in Hf as (b & b' & Hc & Hv);
    [|reflexivity|chains_on_other_fields|exact He].
  apply description_accepted in Hc as [Hval Hok]. rewrite Hv in Hval.
  rewrite <- Hval in Hok. apply all_chars_trim.
  destruct (get (body r1) "description") as [| |x|n|s|l] eqn:Hd;
    try discriminate Hcast; unfold smap in Hval;
    destruct (get b "description"); try discriminate Hval.
  all: cbn [values forallb] in Hok; rewrite andb_true_r in Hok;
    unfold matches_plus in Hok; apply andb_prop in Hok as [_ Hok];
    cbn [EV.toString js_String] in Hok; cbn in Hcast; injection Hcast as <-;
    exact Hok.
Qed.

Lemma stored_income_description_witness :
  exists doc,
    t_description doc = "Test"%string
    /\ all_chars description_char (t_description doc) = true
    /\ (3 <= String.length (t_description doc) <= 200)%nat.
Proof.
  pose (o := run_route (authenticateToken :: income_post) createIncome Fixtures.E0
               Fixtures.db0 (with_path "/" (Fixtures.post_income 1 Fixtures.draft))).
  exists (List.last (incomes (db_after o)) (Fixtures.salary 1 0)).
  split; [vm_compute; reflexivity|].
  apply (stored_income_description Fixtures.E0 Fixtures.db0
           (with_path "/" (Fixtures.post_income 1 Fixtures.draft))).
  vm_compute. reflexivity.
Defined.

Lemma create_notes (k : Models.Kind) (E : Env) (id : Z) (b : object)
    (doc : Transaction) :
  Models.create k E id b = Ok doc ->
  exists n, Models.castString (get b "notes") = Ok n
            /\ t_notes doc = option_map trim n
            /\ match n with
               | Some x => (String.length (trim x) <= 500)%nat
               | None => True
               end.
Proof.
  unfold Models.create. intros H.
  repeat match type of H with
         | context [bindE ?x _] =>
             let e := fresh "e" in
             destruct x as [?|?] eqn:e; cbn [bindE] in H; [|discriminate H]
         end.
  repeat match type of H with
         | context [match ?x with Some _ => _ | None => _ end] =>
             is_var x; destruct x; [|discriminate H]
         end.
  match type of H with
  | (if ?v then _ else _) = _ => destruct v eqn:Hvalid; [|discriminate H]
  end.
  injection H as <-. cbn [t_notes].
  repeat (apply andb_prop in Hvalid as [Hvalid ?]).
  eexists. split; [reflexivity|]. split; [reflexivity|].
  match goal with
  | H : match ?n with Some _ => _ | None => _ end = true |- match ?n with _ => _ end =>
      destruct n; [now apply Nat.leb_le in H|exact I]
  end.
Qed.

(** A chain keeps what holds of the value of a field when it is on another
    field, or when its steps keep it. *)
Lemma of_chain_keeps_value (P : JsVal -> Prop) (f : string) name stage
    (c : Env -> Chain) :
  (forall E, ch_field (c E) = f ->
             ch_wildcard (c E) = false
             /\ forall v v', P v -> chain_value (c E) (ch_items (c E)) v = Ok v' -> P v') ->
  keeps (fun x => P (get (body x) f)) (of_chain name stage c).
Proof.
  intros Hc E db x x' rd HP H.
  destruct (String.eqb_spec f (ch_field (c E))) as [Hf|Hf].
  - destruct (Hc E (eq_sym Hf)) as [Hw Hval].
    destruct (ch_items (c E)) as [|it rest] eqn:Hi.
    + apply of_chain_next in H as (b & es & Hrun & -> & _).
      unfold EV.run in Hrun. rewrite Hi in Hrun. cbn in Hrun.
      injection Hrun as <- _. exact HP.
    + apply chain_mw_effect in H as (v' & Hv & Hb & _); [|exact Hw|congruence].
      rewrite Hb, Hf, get_set_eq. rewrite Hi in Hv. rewrite <- Hf in Hv.
      exact (Hval _ _ HP Hv).
  - now rewrite (chain_mw_other name stage c E db x x' rd f Hf H).
Qed.

Lemma text_clean_trim (v : JsVal) : text_clean v = true -> text_clean (smap trim v) = true.
Proof.
  unfold text_clean.
  assert (Hs : forall x, match x with JStr s => all_chars clean_char s | _ => false end
                         = true ->
                         all_chars clean_char (trim (EV.toString x)) = true).
  { intros [| |?|?|s|?] Hx; try discriminate Hx. now apply all_chars_trim. }
  destruct v as [| |x|n|s|l]; cbn [smap EV.values forallb]; try discriminate.
  - intros H. rewrite andb_true_r in *. now apply (Hs (JStr s)).
  - induction l as [|x l IH]; [reflexivity|]. cbn [List.map forallb].
    intros [Hx Hl]%andb_prop. now rewrite (Hs x Hx), IH.
Qed.

Lemma income_schema_keeps_notes :
  Forall (keeps (fun x => notes_clean (get (body x) "notes"))) income_schema.
Proof.
  unfold income_schema.
  repeat (apply List.Forall_cons;
          [apply of_chain_keeps_value; intros E HfE;
           first [discriminate HfE | split; [reflexivity|]]|]);
    try apply List.Forall_nil.
  intros v v' [->|Hv]; cbn; [intros [= <-]; now left|].
  destruct v; try discriminate Hv; cbn; intros [= <-]; right;
    first [exact (text_clean_trim (JStr s) Hv) | exact (text_clean_trim (JArr l) Hv)].
Qed.

Lemma run_stack_app_next (l1 l2 : list Middleware) E db r r' t :
  run_stack (l1 ++ l2) E db r = (Next r', t) ->
  exists r1 t1 t2, run_stack l1 E db r = (Next r1, t1)
                   /\ run_stack l2 E db r1 = (Next r', t2).
Proof.
  rewrite run_stack_app.
  destruct (run_stack l1 E db r) as [[r1| |] t1]; intros H; try discriminate H.
  destruct (run_stack l2 E db r1) as [s2 t2] eqn:H2.
  assert (Hs : s2 = Next r') by congruence. subst s2. eauto.
Qed.

(** X18.  The notes of an income that is stored hold no markup and no
    control character (no quote, slash, angle bracket, backslash or
    backtick: the route escaped them) and have at most 500 characters. *)
Theorem stored_income_notes
    (E : Env) (db : Db) (r : Request) (doc : Transaction) :
  db_after (run_route (authenticateToken :: income_post) createIncome E db r)
  = Models.insert Models.Income doc db ->
  match t_notes doc with
  | Some n => all_chars clean_char n = true /\ (String.length n <= 500)%nat
  | None => True
  end.
Proof.
  intros Hdb.
  destruct (stored_income E db r doc Hdb) as (r1 & t0 & id & Hf & Hu & He & HF & Hdoc).
  destruct (create_notes _ _ _ _ _ Hdoc) as (n & Hcast & -> & Hlen).
  destruct n as [x|]; [|exact I]. cbn [option_map]. split; [|exact Hlen].
  change (authenticateToken :: income_front)
    with ((authenticateToken :: income_guards)
          ++ income_sanitizers ++ income_schema) in Hf.
  apply run_stack_app_next in Hf as (ra & ta & tb & _ & Hf).
  apply run_stack_app_next in Hf as (rs & ts & tc & Hs & Hf).
  assert (Hclean : notes_clean (get (body r1) "notes")).
  { apply (run_stack_keeps _ _ income_schema_keeps_notes E db rs r1 tc); [|exact Hf].
    destruct (sanitizers_effect E db ra rs) as (v1 & v2 & v3 & v4 & v5 & v6 & _ & H2
                                               & _ & _ & _ & _ & Hb).
    { now rewrite Hs. }
    rewrite Hb.
    rewrite (get_set_ne "isRecurring" "notes"), (get_set_ne "amount" "notes"),
      (get_set_ne "date" "notes"), (get_set_ne "tags" "notes") by discriminate.
    rewrite get_set_eq.
    rewrite notes_value in H2. injection H2 as <-.
    destruct (get (sanitize_body (body ra)) "notes"); [now left|right..];
      apply smap_clean. }
  apply all_chars_trim.
  destruct Hclean as [Hc|Hc]; [rewrite Hc in Hcast; discriminate Hcast|].
  unfold text_clean in Hc.
  destruct (get (body r1) "notes") as [| |b|m|s|l]; try discriminate Hc;
    try discriminate Hcast.
  cbn in Hcast. injection Hcast as <-. cbn [EV.values forallb] in Hc.
  now rewrite andb_true_r in Hc.
Qed.

Lemma stored_income_notes_witness :
  exists doc,
    t_notes doc = Some "a &lt;b&gt; c"%string
    /\ match t_notes doc with
       | Some n => all_chars clean_char n = true /\ (String.length n <= 500)%nat
       | None => True
       end.
Proof.
  pose (b := <["notes" := JStr " a <b> c "]> Fixtures.draft).
  pose (o := run_route (authenticateToken :: income_post) createIncome Fixtures.E0
               Fixtures.db0 (with_path "/" (Fixtures.post_income 1 b))).
  exists (List.last (incomes (db_after o)) (Fixtures.salary 1 0)).
  split; [vm_compute; reflexivity|].
  apply (stored_income_notes Fixtures.E0 Fixtures.db0
           (with_path "/" (Fixtures.post_income 1 b))).
  vm_compute. reflexivity.
Defined.

(** ** What the guards let through *)

(** X19.  An income is stored only for a request that passed the three
    guards of the route: sent as JSON, of at most 2048 bytes by its
    content length, and with no string in its body or its query, inside
    arrays too, that matches a dangerous pattern. *)
Theorem stored_income_passed_the_guards
    (E : Env) (db : Db) (r : Request) (doc : Transaction) :
  db_after (run_route (authenticateToken :: income_post) createIncome E db r)
  = Models.insert Models.Income doc db ->
  (method r = POST ->
   exists ct, content_type r = Some ct /\ includes "application/json" ct = true)
  /\ default 0 (content_length r) <= 2048
  /\ checkForInjection (dangerous E) (body r) = false
  /\ checkForInjection (dangerous E) (query r) = false.
Proof.
  intros Hdb.
  destruct (stored_income E db r doc Hdb) as (r1 & t0 & id & Hf & _).
  apply run_stack_head in Hf as (r0 & rd0 & t1 & Ha & Hf).
  assert (H0 : method r0 = method r /\ content_type r0 = content_type r
               /\ content_length r0 = content_length r
               /\ body r0 = body r /\ query r0 = query r).
  { revert Ha. cbn [mw_run authenticateToken].
    destruct (token r); [destruct (findById db z)|]; intros Ha; try discriminate Ha.
    injection Ha as <- _. repeat split. }
  destruct H0 as (Hm & Hct & Hcl & Hb & Hq).
  unfold income_front, income_guards in Hf. cbn [app] in Hf.
  apply run_stack_head in Hf as (r2 & rd2 & t2 & H1 & Hf).
  apply run_stack_head in Hf as (r3 & rd3 & t3 & H2 & Hf).
  apply run_stack_head in Hf as (r4 & rd4 & t4 & H3 & _).
  pose proof H1 as H1'. apply guard_next in H1' as [-> _]; [|now left].
  pose proof H2 as H2'. apply guard_next in H2' as [-> _]; [|right; now left].
  cbn [mw_run validateContentType limitDataSize preventInjection] in H1, H2, H3.
  rewrite Hm, Hct in H1. rewrite Hcl in H2. rewrite Hb, Hq in H3.
  split; [|split].
  - intros HP. rewrite HP in H1.
    destruct (content_type r) as [ct|]; [|discriminate H1]. exists ct. split; [reflexivity|].
    destruct (String.eqb ct "" || _) eqn:Hc in H1; [discriminate H1|].
    apply orb_false_elim in Hc as [_ Hc]. apply negb_false_iff in Hc.
    cbn [existsb] in Hc. now rewrite orb_false_r in Hc.
  - destruct (Z.ltb_spec 2048 (default 0 (content_length r))); [discriminate H2|lia].
  - destruct (checkForInjection (dangerous E) (body r)
              || checkForInjection (dangerous E) (query r)) eqn:Hc;
      [discriminate H3|]. now apply orb_false_elim in Hc.
Qed.

Lemma stored_income_passed_the_guards_witness :
  exists doc,
    t_description doc = "Test"%string
    /\ (method (with_path "/" (Fixtures.post_income 1 Fixtures.draft)) = POST ->
        exists ct, content_type (with_path "/" (Fixtures.post_income 1 Fixtures.draft))
                   = Some ct
                   /\ includes "application/json" ct = true)
    /\ default 0 (content_length (with_path "/" (Fixtures.post_income 1 Fixtures.draft)))
       <= 2048
    /\ checkForInjection (dangerous Fixtures.E0)
         (body (with_path "/" (Fixtures.post_income 1 Fixtures.draft))) = false
    /\ checkForInjection (dangerous Fixtures.E0)
         (query (with_path "/" (Fixtures.post_income 1 Fixtures.draft))) = false.
Proof.
  pose (o := run_route (authenticateToken :: income_post) createIncome Fixtures.E0
               Fixtures.db0 (with_path "/" (Fixtures.post_income 1 Fixtures.draft))).
  exists (List.last (incomes (db_after o)) (Fixtures.salary 1 0)).
  split; [vm_compute; reflexivity|].
  apply (stored_income_passed_the_guards Fixtures.E0 Fixtures.db0
           (with_path "/" (Fixtures.post_income 1 Fixtures.draft))
           (List.last (incomes (db_after o)) (Fixtures.salary 1 0))).
  vm_compute. reflexivity.
Defined.

(** ** The text of a stored expense *)

Lemma stored_expense E db r doc :
  db_after (run_route (authenticateToken :: expense_post) createExpense E db r)
  = Models.insert Models.Expense doc db ->
  exists r1 t0 id,
    run_stack (authenticateToken :: expense_post) E db r = (Next r1, t0)
    /\ user r1 = Some id /\ errors r1 = []
    /\ Models.create Models.Expense E id (body r1) = Ok doc.
Proof.
  intros Hdb.
  destruct (post_expense_cases E db r)
    as [[_ H]|(r1 & t0 & id & doc' & Hf & _ & Hu & He & Hdoc & _ & H)];
    rewrite H in Hdb.
  - exfalso. apply (f_equal (fun d => List.length (expenses d))) in Hdb.
    cbn [Models.insert expenses] in Hdb. rewrite List.length_app in Hdb.
    cbn in Hdb. lia.
  - assert (doc' = doc) as ->.
    { unfold Models.insert in Hdb. injection Hdb as Hdb.
      apply app_inv_head in Hdb. now injection Hdb. }
    eauto 10.
Qed.

(** The chains of a route keep the value [v] of the field [f] when those on
    [f] are validators. *)
Ltac chains_keep_value f v :=
  repeat (apply List.Forall_cons;
          [apply (of_chain_keeps_value (fun w => w = v) f); intros ? HfE;
           first [discriminate HfE
                 | split; [reflexivity|];
                   let Hv := fresh in
                   intros ? ? -> Hv;
                   rewrite chain_value_validators in Hv by reflexivity;
                   now injection Hv]|]);
  apply List.Forall_nil.

(** X20.  The route that creates an expense stores its text as it was
    sent, trimmed: it escapes nothing, so markup in the description or in
    the notes of an expense is stored. *)
Theorem stored_expense_text_is_as_sent
    (E : Env) (db : Db) (r : Request) (doc : Transaction) :
  db_after (run_route (authenticateToken :: expense_post) createExpense E db r)
  = Models.insert Models.Expense doc db ->
  t_description doc = trim (EV.toString (get (body r) "description"))
  /\ forall s, get (body r) "notes" = JStr s -> t_notes doc = Some (trim s).
Proof.
  intros Hdb.
  destruct (stored_expense E db r doc Hdb) as (r1 & t0 & id & Hf & _ & _ & Hdoc).
  apply run_stack_head in Hf as (r0 & rd0 & t1 & Ha & Hf).
  assert (H0 : body r0 = body r).
  { revert Ha. cbn [mw_run authenticateToken].
    destruct (token r); [destruct (findById db z)|]; intros Ha; try discriminate Ha.
    now injection Ha as <- _. }
  unfold expense_post, inline_chains in Hf. cbn [app opt] in Hf.
  split.
  - apply run_stack_head in Hf as (r2 & rd2 & t2 & H1 & Hf).
    apply chain_mw_effect in H1 as (v' & Hv & Hb & _); [|reflexivity|discriminate].
    cbn in Hv. injection Hv as <-. cbn [ch_field chain] in Hb.
    apply (run_stack_keeps
             (fun x => get (body x) "description"
                       = smap trim (get (body r) "description"))) in Hf.
    + destruct (create_document _ _ _ _ _ Hdoc) as (_ & (d0 & Hcast & -> & _) & _).
      rewrite Hf in Hcast.
      destruct (get (body r) "description") as [| |x|n|s|l]; try discriminate Hcast;
        cbn [smap Models.castString js_String] in Hcast; injection Hcast as <-;
        exact (trim_idem _).
    + chains_keep_value "description"%string (smap trim (get (body r) "description")).
    + rewrite Hb, get_set_eq, H0. reflexivity.
  - intros s Hs.
    apply (run_stack_keeps (fun x => get (body x) "notes" = JStr s)) in Hf.
    + destruct (create_notes _ _ _ _ _ Hdoc) as (n & Hcast & -> & _).
      rewrite Hf in Hcast. cbn in Hcast. now injection Hcast as <-.
    + chains_keep_value "notes"%string (JStr s).
    + now rewrite H0.
Qed.

Lemma stored_expense_text_is_as_sent_witness :
  exists doc,
    t_description doc = "<b>Mercado</b>"%string
    /\ t_description doc
       = trim (EV.toString (get (body (with_path "/" expense_with_markup)) "description"))
    /\ forall s, get (body (with_path "/" expense_with_markup)) "notes" = JStr s ->
                 t_notes doc = Some (trim s).
Proof.
  pose (o := run_route (authenticateToken :: expense_post) createExpense Fixtures.E0
               Fixtures.db0 (with_path "/" expense_with_markup)).
  exists (List.last (expenses (db_after o)) (Fixtures.salary 1 0)).
  split; [vm_compute; reflexivity|].
  apply (stored_expense_text_is_as_sent Fixtures.E0 Fixtures.db0
           (with_path "/" expense_with_markup)
           (List.last (expenses (db_after o)) (Fixtures.salary 1 0))).
  vm_compute. reflexivity.
Defined.
